(** * MicroShop browser client: session guard, cart reconciliation,
      order polling and payment retry

    A shallow embedding of the client's core (src/frontend: utils/auth,
    App, RequireAuth, api, pages/Login, pages/Cart, pages/Products,
    pages/MyOrders), the properties its specification states about it,
    and further properties of the same code: signing in and out, placing
    an order and retrying its payment, the cart across pages, and the
    orders view.

    JavaScript values are an inductive type; numbers are IEEE 754
    binary64 values ([spec_float] with precision 53 and exponent bound
    1024); strings are sequences of 8-bit code units; an exception is an
    explicit [Throw] completion.  The built-ins of the JavaScript runtime
    the code calls (JSON.parse, JSON.stringify, atob, escape,
    decodeURIComponent and the string/number conversions) are an
    interface, [Runtime]: every theorem holds for every implementation of
    it, and [Reference] is an executable one on which the examples run.
    What the network and the clock deliver is an input of the function
    that awaits it. *)

From Stdlib Require Import ZArith NArith String Ascii List Bool.
From Stdlib Require Import DecimalString DecimalN.
From Stdlib.Floats Require Import SpecFloat.
From stdpp Require Import base option list strings gmap.

Local Open Scope string_scope.

(** ** JavaScript values *)

Module JS.

(** Number values: binary64. *)
Definition number : Type := spec_float.

Definition prec : Z := 53.
Definition emax : Z := 1024.

Definition NaN : number := S754_nan.
Definition pos_zero : number := S754_zero false.
Definition num_of_Z (z : Z) : number := binary_normalize prec emax z 0 false.
Definition num_mul (x y : number) : number := SFmul prec emax x y.
(** [x < y] and [x <= y] on numbers; both are false when an operand is NaN. *)
Definition num_lt (x y : number) : bool := SFltb x y.
Definition num_le (x y : number) : bool := SFleb x y.

Definition num_is_nan (x : number) : bool :=
  match x with S754_nan => true | _ => false end.
Definition num_is_zero (x : number) : bool :=
  match x with S754_zero _ => true | _ => false end.

(** A value as JSON text, a localStorage entry or a literal of the code can
    produce it.  An object lists its own properties in order; an array its
    elements. *)
#[local] Unset Elimination Schemes.
Inductive value : Type :=
  | VUndefined
  | VNull
  | VBool (b : bool)
  | VNum (n : number)
  | VStr (s : string)
  | VArr (elems : list value)
  | VObj (props : list (string * value)).
#[local] Set Elimination Schemes.

(** Exceptions: the error's class and its message. *)
Record exn : Type := Exn { exn_name : string; exn_message : string }.

Definition Error (msg : string) : exn := Exn "Error" msg.
Definition TypeError (msg : string) : exn := Exn "TypeError" msg.
Definition SyntaxError (msg : string) : exn := Exn "SyntaxError" msg.
Definition URIError (msg : string) : exn := Exn "URIError" msg.

(** The outcome of evaluating an expression or awaiting a promise: a value,
    or an exception on its way to the nearest [catch]. *)
Inductive completion (A : Type) : Type :=
  | Normal (a : A)
  | Throw (e : exn).
Arguments Normal {A} a.
Arguments Throw {A} e.

Definition bind {A B} (c : completion A) (k : A -> completion B) : completion B :=
  match c with
  | Normal a => k a
  | Throw e => Throw e
  end.

(** [try { c } catch (err) { h err }] *)
Definition try_catch {A} (c : completion A) (h : exn -> completion A) : completion A :=
  match c with
  | Normal a => Normal a
  | Throw e => h e
  end.

(** [p.catch(() => d)] on a promise that settles as [c] *)
Definition catch_default {A} (c : completion A) (d : A) : A :=
  match c with
  | Normal a => a
  | Throw _ => d
  end.

Definition is_normal {A} (c : completion A) : bool :=
  match c with Normal _ => true | Throw _ => false end.

(** ToBoolean *)
Definition ToBoolean (v : value) : bool :=
  match v with
  | VUndefined | VNull => false
  | VBool b => b
  | VNum n => negb (num_is_zero n || num_is_nan n)
  | VStr s => negb (String.eqb s "")
  | VArr _ | VObj _ => true
  end.

(** Truthiness of what [localStorage.getItem] returns: a string or null. *)
Definition truthy_item (t : option string) : bool :=
  match t with
  | Some s => negb (String.eqb s "")
  | None => false
  end.

Fixpoint own_property (props : list (string * value)) (k : string) : option value :=
  match props with
  | [] => None
  | (k', v) :: rest => if String.eqb k' k then Some v else own_property rest k
  end.

(** [v.k] for a property name [k] that no prototype defines and that is no
    array index (every name the code reads: exp, status, items, id,
    product_id, quantity, name, price): the own property of an object,
    undefined on everything else that has properties. *)
Definition prop (v : value) (k : string) : value :=
  match v with
  | VObj props => default VUndefined (own_property props k)
  | _ => VUndefined
  end.

(** Reading a property of null or undefined is a TypeError. *)
Definition get (v : value) (k : string) : completion value :=
  match v with
  | VUndefined | VNull =>
      Throw (TypeError ("Cannot read properties of null or undefined (reading '" ++ k ++ "')"))
  | _ => Normal (prop v k)
  end.

Definition isArray (v : value) : bool :=
  match v with VArr _ => true | _ => false end.

(** [v === s] for a string literal [s] *)
Definition strict_eq_str (v : value) (s : string) : bool :=
  match v with VStr s' => String.eqb s' s | _ => false end.

(** SameValueZero, the equality of [Set.prototype.has]: primitives by value
    (NaN equals NaN, +0 equals -0), objects and arrays by identity.  The two
    values compared by the code come from two different parses, so two of
    their objects are never the same object. *)
Definition same_value_zero (x y : value) : bool :=
  match x, y with
  | VUndefined, VUndefined => true
  | VNull, VNull => true
  | VBool a, VBool b => Bool.eqb a b
  | VNum a, VNum b => (num_is_nan a && num_is_nan b) || SFeqb a b
  | VStr a, VStr b => String.eqb a b
  | _, _ => false
  end.

End JS.
Export JS.

#[global] Instance completion_ret : MRet completion := @Normal.
#[global] Instance completion_bind : MBind completion :=
  fun A B k c => bind c k.

(** ** The runtime's built-ins *)

(** What the code calls and does not define.  A built-in that can throw
    returns a completion. *)
Class Runtime : Type := {
  (** [JSON.parse(text)]: a SyntaxError on text that is not JSON *)
  JSON_parse : string -> completion value;
  (** [JSON.stringify(v)] of an array *)
  JSON_stringify : value -> string;
  (** [atob(s)]: an InvalidCharacterError on text that is not base64 *)
  atob : string -> completion string;
  (** [escape(s)] *)
  escape : string -> string;
  (** [decodeURIComponent(s)]: a URIError on a malformed sequence *)
  decodeURIComponent : string -> completion string;
  (** StringToNumber, the numeric value of a string *)
  StringToNumber : string -> number;
  (** Number::toString in radix 10 *)
  NumberToString : number -> string
}.

Section Conversions.
Context `{Runtime}.

(** ToString.  For an object, ToPrimitive with hint string calls
    [toString] and then [valueOf] when they are functions: a parsed object
    inherits both from Object.prototype unless it has an own property of
    that name, which is data and cannot be called.  With an own [toString]
    neither call yields a primitive (the inherited [valueOf] returns the
    object), which is a TypeError; without, the result is "[object Object]".
    For an array it is [join(",")], where null and undefined elements are
    empty. *)
Fixpoint ToString (v : value) : completion string :=
  match v with
  | VUndefined => Normal "undefined"
  | VNull => Normal "null"
  | VBool true => Normal "true"
  | VBool false => Normal "false"
  | VNum n => Normal (NumberToString n)
  | VStr s => Normal s
  | VArr elems =>
      (fix join (l : list value) : completion string :=
         match l with
         | [] => Normal ""
         | x :: rest =>
             s ← match x with
                 | VUndefined | VNull => Normal ""
                 | _ => ToString x
                 end;
             match rest with
             | [] => Normal s
             | _ => t ← join rest; Normal (s ++ "," ++ t)
             end
         end) elems
  | VObj props =>
      match own_property props "toString" with
      | Some _ => Throw (TypeError "Cannot convert object to primitive value")
      | None => Normal "[object Object]"
      end
  end.

(** ToNumber.  An object or array goes through ToPrimitive with hint
    number, which reaches the same [toString] as above. *)
Definition ToNumber (v : value) : completion number :=
  match v with
  | VUndefined => Normal NaN
  | VNull => Normal pos_zero
  | VBool true => Normal (num_of_Z 1)
  | VBool false => Normal pos_zero
  | VNum n => Normal n
  | VStr s => Normal (StringToNumber s)
  | VArr _ | VObj _ => s ← ToString v; Normal (StringToNumber s)
  end.

End Conversions.

(** ** Code that changes state and can throw *)

(** A computation over a state [S]: an exception leaves the state as it is
    at the throw, so what ran before it stays done. *)
Definition SE (S A : Type) : Type := S -> completion A * S.

Definition se_ret {S A} (a : A) : SE S A := fun s => (Normal a, s).
Definition se_bind {S A B} (m : SE S A) (k : A -> SE S B) : SE S B :=
  fun s =>
    match m s with
    | (Normal a, s') => k a s'
    | (Throw e, s') => (Throw e, s')
    end.
Definition se_lift {S A} (c : completion A) : SE S A := fun s => (c, s).
Definition se_gets {S A} (f : S -> A) : SE S A := fun s => (Normal (f s), s).
Definition se_modify {S} (f : S -> S) : SE S unit := fun s => (Normal tt, f s).
Definition se_state {S A} (f : S -> A * S) : SE S A :=
  fun s => let '(a, s') := f s in (Normal a, s').
(** [try { m } catch (err) { h err }] *)
Definition se_try {S A} (m : SE S A) (h : exn -> SE S A) : SE S A :=
  fun s =>
    match m s with
    | (Normal a, s') => (Normal a, s')
    | (Throw e, s') => h e s'
    end.
(** [try { m } finally { f }] for a [finally] block that only updates state *)
Definition se_finally {S A} (m : SE S A) (f : S -> S) : SE S A :=
  fun s => let '(r, s') := m s in (r, f s').

#[global] Instance se_mret S : MRet (SE S) := @se_ret S.
#[global] Instance se_mbind S : MBind (SE S) := fun A B k m => se_bind m k.

(** ** utils/auth *)

Section Auth.
Context `{Runtime}.

Definition getToken (ls : gmap string string) : option string := ls !! "token".

Definition clearAuth (ls : gmap string string) : gmap string string :=
  delete "token" ls.

(** [s.split(sep)] for a one-character separator *)
Fixpoint split (sep : ascii) (s : string) : list string :=
  match s with
  | EmptyString => [EmptyString]
  | String c rest =>
      if Ascii.eqb c sep then EmptyString :: split sep rest
      else match split sep rest with
           | part :: parts => String c part :: parts
           | [] => [String c EmptyString]
           end
  end.

(** [s.replace(/a/g, b)] for single characters *)
Fixpoint replace_all (a b : ascii) (s : string) : string :=
  match s with
  | EmptyString => EmptyString
  | String c rest => String (if Ascii.eqb c a then b else c) (replace_all a b rest)
  end.

(** [parseJwt(token)]; a null token has no [split]. *)
Definition parseJwt (token : option string) : completion value :=
  try_catch
    (match token with
     | None => Throw (TypeError "Cannot read properties of null (reading 'split')")
     | Some t =>
         let parts := split "." t in
         if negb (length parts =? 3)%nat then Normal VNull
         else
           let payload := nth 1 parts "" in
           decoded ← atob (replace_all "_" "/" (replace_all "-" "+" payload));
           text ← decodeURIComponent (escape decoded);
           JSON_parse text
     end)
    (fun _ => Normal VNull).

(** [isTokenValid(token)], with [now] what [Date.now()] returns *)
Definition isTokenValid (now : number) (token : option string) : completion bool :=
  if negb (truthy_item token) then Normal false
  else
    claims ← parseJwt token;
    if negb (ToBoolean claims) then Normal false
    else
      e ← get claims "exp";
      if negb (ToBoolean e) then Normal false
      else
        x ← ToNumber e;
        let exp := num_mul x (num_of_Z 1000) in
        Normal (num_lt now exp).

End Auth.

(** ** App: forced sign-out and the periodic liveness check *)

Section App.
Context `{Runtime}.

(** The part of the page [App] reads and writes: browser storage, the
    session history (current entry first) and the [token] state. *)
Record AppWorld : Type := mkApp {
  app_storage : gmap string string;
  app_history : list string;
  app_token : option string
}.

(** [history.replaceState({}, "", url)] and [navigate(url, {replace: true})]:
    the current entry is replaced, none is pushed. *)
Definition replace_entry (url : string) (h : list string) : list string :=
  url :: tail h.

Definition logout (w : AppWorld) : AppWorld :=
  let ls := clearAuth (app_storage w) in
  let h := replace_entry "/login" (app_history w) in
  mkApp ls (replace_entry "/login" h) None.

(** One run of the callback armed by [setInterval(..., 5000)]. *)
Definition liveness_tick (now : number) (w : AppWorld) : completion AppWorld :=
  let t := getToken (app_storage w) in
  if negb (truthy_item t) then Normal w
  else
    valid ← isTokenValid now t;
    if negb valid then Normal (logout w) else Normal w.

End App.

(** ** api *)

Section Api.
Context `{Runtime}.

(** What [await fetch(...)] resolves to, as far as the callers look:
    the status code and how reading the body as text settles. *)
Record Response : Type := mkResponse {
  status : N;
  text : completion string
}.

Definition ok (r : Response) : bool := (200 <=? status r)%N && (status r <=? 299)%N.

(** [r.json()] *)
Definition json (r : Response) : completion value :=
  s ← text r; JSON_parse s.

(** A status code inside a template literal: its decimal digits. *)
Definition status_text (n : N) : string := NilEmpty.string_of_uint (N.to_uint n).

(** [createPayment(order_id, method)], where [net] is how the POST to
    /payment settles.  The arguments and the stored token go into the
    request only. *)
Definition createPayment (net : completion Response) : completion value :=
  try_catch
    (r ← net;
     let bodyText := catch_default (text r) "" in
     let parsed :=
       if negb (String.eqb bodyText "")
       then catch_default (JSON_parse bodyText) (VObj [("raw", VStr bodyText)])
       else VNull in
     if (status r =? 200)%N then Normal parsed
     else if (status r =? 202)%N
     then Normal (if ToBoolean parsed then parsed else VObj [("result", VStr "PENDING")])
     else Throw (Error ("Payment request failed: " ++ status_text (status r))))
    (fun err => Throw err).

(** [fetchCartServer], [addToCartServer] and [clearCartServer] share one
    body up to the name in the message. *)
Definition cart_request (name : string) (net : completion Response) : completion value :=
  try_catch
    (r ← net;
     if negb (ok r)
     then
       let text := catch_default (text r) "<no-body>" in
       Throw (Error (name ++ " failed: " ++ status_text (status r)))
     else json r)
    (fun err => Throw err).

Definition fetchCartServer := cart_request "fetchCartServer".
Definition addToCartServer := cart_request "addToCartServer".
Definition clearCartServer := cart_request "clearCartServer".

Definition createOrder (net : completion Response) : completion value :=
  r ← net; json r.

Definition fetchOrder (net : completion Response) : completion value :=
  r ← net;
  if negb (ok r)
  then
    let text := catch_default (text r) "<no-body>" in
    Throw (Error ("fetchOrder failed: " ++ status_text (status r) ++ " " ++ text))
  else json r.

End Api.

(** ** pages/Cart *)

Section Cart.
Context `{Runtime}.

(** What the [Cart] view reads and writes: browser storage, its React
    state, the [pollRef] ref and the page's interval timers.  A live timer
    is recorded with the order id its callback polls; [polled] lists the
    order ids whose status was requested, oldest first. *)
Record CartWorld : Type := mkCart {
  storage : gmap string string;
  cart : value;
  loading : bool;
  message : option string;
  lastOrder : value;
  pollRef : option positive;
  timers : gmap positive value;
  next_timer : positive;
  polled : list value
}.

Definition set_storage (f : gmap string string -> gmap string string) (w : CartWorld) :=
  mkCart (f (storage w)) (cart w) (loading w) (message w) (lastOrder w)
         (pollRef w) (timers w) (next_timer w) (polled w).
Definition setCart (c : value) (w : CartWorld) :=
  mkCart (storage w) c (loading w) (message w) (lastOrder w)
         (pollRef w) (timers w) (next_timer w) (polled w).
Definition setLoading (b : bool) (w : CartWorld) :=
  mkCart (storage w) (cart w) b (message w) (lastOrder w)
         (pollRef w) (timers w) (next_timer w) (polled w).
Definition setMessage (m : option string) (w : CartWorld) :=
  mkCart (storage w) (cart w) (loading w) m (lastOrder w)
         (pollRef w) (timers w) (next_timer w) (polled w).
Definition setLastOrder (o : value) (w : CartWorld) :=
  mkCart (storage w) (cart w) (loading w) (message w) o
         (pollRef w) (timers w) (next_timer w) (polled w).
Definition set_pollRef (r : option positive) (w : CartWorld) :=
  mkCart (storage w) (cart w) (loading w) (message w) (lastOrder w)
         r (timers w) (next_timer w) (polled w).
Definition log_poll (id : value) (w : CartWorld) :=
  mkCart (storage w) (cart w) (loading w) (message w) (lastOrder w)
         (pollRef w) (timers w) (next_timer w) (polled w ++ [id]).

(** [setInterval(callback, 3000)] for the poll callback of order [id]:
    a handle no timer had before. *)
Definition setInterval (id : value) (w : CartWorld) : positive * CartWorld :=
  (next_timer w,
   mkCart (storage w) (cart w) (loading w) (message w) (lastOrder w)
          (pollRef w) (<[next_timer w := id]> (timers w)) (Pos.succ (next_timer w))
          (polled w)).

(** [clearInterval(h)]; [clearInterval(null)] does nothing. *)
Definition clearInterval (h : option positive) (w : CartWorld) : CartWorld :=
  match h with
  | Some t =>
      mkCart (storage w) (cart w) (loading w) (message w) (lastOrder w)
             (pollRef w) (delete t (timers w)) (next_timer w) (polled w)
  | None => w
  end.

(** [(it) => ({ product_id: it.product_id, quantity: it.quantity,
    name: it.name, price: it.price })] *)
Definition to_local_shape (it : value) : completion value :=
  pid ← get it "product_id";
  q ← get it "quantity";
  n ← get it "name";
  p ← get it "price";
  Normal (VObj [("product_id", pid); ("quantity", q); ("name", n); ("price", p)]).

(** [serverIds.has(x)] *)
Definition set_has (ids : list value) (x : value) : bool :=
  existsb (same_value_zero x) ids.

(** What [for (const li of v)] iterates over; a value that is no array and
    no string is not iterable. *)
Definition iterate (v : value) : completion (list value) :=
  match v with
  | VArr elems => Normal elems
  | VStr s => Normal (map (fun c => VStr (String c EmptyString)) (list_ascii_of_string s))
  | _ => Throw (TypeError "local is not iterable")
  end.

(** The loop [for (const li of local) if (!serverIds.has(li.product_id))
    merged.push(li)] *)
Fixpoint push_absent (serverIds merged locals : list value) : completion (list value) :=
  match locals with
  | [] => Normal merged
  | li :: rest =>
      pid ← get li "product_id";
      push_absent serverIds
        (if negb (set_has serverIds pid) then merged ++ [li] else merged) rest
  end.

(** Lines 87-93 of [load]: [items] are the elements of [server.items]. *)
Definition merge (items : list value) (local : value) : completion (list value) :=
  serverItems ← mapM to_local_shape items;
  let serverIds := map (fun i => prop i "product_id") serverItems in
  let merged := serverItems in
  locals ← iterate local;
  push_absent serverIds merged locals.

Definition array_elements (v : value) : list value :=
  match v with VArr elems => elems | _ => [] end.

(** [load()], where [net] is how the GET of /cart settles *)
Definition load (net : completion Response) : SE CartWorld unit :=
  token ← se_gets (fun w => storage w !! "token");
  stored ← se_gets (fun w => storage w !! "cart");
  local ← se_lift (JSON_parse (if truthy_item stored then default "" stored else "[]"));
  returned ←
    (if truthy_item token then
       se_try
         (server ← se_lift (fetchCartServer net);
          if ToBoolean server && isArray (prop server "items") then
            merged ← se_lift (merge (array_elements (prop server "items")) local);
            se_modify (setCart (VArr merged));;
            mret true
          else mret false)
         (fun err =>
            se_modify (setMessage (Some "Could not load server cart; showing local cart."));;
            mret false)
     else mret false);
  if returned : bool then mret tt else se_modify (setCart local).

(** [String(err)] *)
Definition String_of_exn (e : exn) : string :=
  if String.eqb (exn_message e) "" then exn_name e
  else exn_name e ++ ": " ++ exn_message e.

(** [cart.length === 0] *)
Definition length_is_zero (c : value) : completion bool :=
  match c with
  | VArr elems => Normal (match elems with [] => true | _ => false end)
  | VStr s => Normal (String.eqb s "")
  | VObj props =>
      Normal (match own_property props "length" with
              | Some (VNum n) => num_is_zero n
              | _ => false
              end)
  | VUndefined | VNull => Throw (TypeError "Cannot read properties of null (reading 'length')")
  | VBool _ | VNum _ => Normal false
  end.

(** The callback given to [setInterval] by [placeOrder] for the order
    whose id is [id]; [net] is how its GET of /orders/id settles. *)
Definition poll_tick (id : value) (net : completion Response) : SE CartWorld unit :=
  se_try
    (se_modify (log_poll id);;
     statusResp ← se_lift (fetchOrder net);
     if negb (ToBoolean statusResp) || negb (ToBoolean (prop statusResp "status")) then mret tt
     else if strict_eq_str (prop statusResp "status") "PAID" then
       s ← se_lift (ToString id);
       se_modify (setMessage (Some ("Payment successful for order " ++ s)));;
       se_modify (setLastOrder VNull);;
       r ← se_gets pollRef;
       se_modify (clearInterval r);;
       se_modify (set_pollRef None)
     else if strict_eq_str (prop statusResp "status") "PAYMENT_FAILED" then
       s ← se_lift (ToString id);
       se_modify (setMessage (Some ("Payment failed for order " ++ s)));;
       se_modify (setLastOrder (VObj [("id", id); ("status", VStr "PAYMENT_FAILED")]));;
       r ← se_gets pollRef;
       se_modify (clearInterval r);;
       se_modify (set_pollRef None)
     else mret tt)
    (fun err => mret tt).

(** Lines 143-166 of [placeOrder]: the poll for the new order replaces the
    one [pollRef] holds. *)
Definition start_poll (id : value) : SE CartWorld unit :=
  se_try
    (r ← se_gets pollRef;
     match r with
     | Some _ => se_modify (clearInterval r)
     | None => mret tt
     end;;
     h ← se_state (setInterval id);
     se_modify (set_pollRef (Some h)))
    (fun err => mret tt).

(** [placeOrder()], where [orderNet] is how the POST to /orders settles and
    [clearNet] how the DELETE of /cart does *)
Definition placeOrder (orderNet clearNet : completion Response) : SE CartWorld unit :=
  c ← se_gets cart;
  empty ← se_lift (length_is_zero c);
  if empty : bool then se_modify (setMessage (Some "Cart is empty"))
  else
    se_modify (setLoading true);;
    se_modify (setMessage None);;
    se_finally
      (se_try
         (order ← se_lift (createOrder orderNet);
          id ← se_lift (get order "id");
          st ← se_lift (get order "status");
          se_modify (setLastOrder (VObj [("id", id); ("status", st)]));;
          s ← se_lift (ToString id);
          se_modify (setMessage (Some ("Bestellung erstellt (#" ++ s ++
            "). Zahlung zur Bearbeitung eingereiht — Status unter 'Meine Bestellungen'.")));;
          se_modify (setCart (VArr []));;
          se_modify (set_storage (delete "cart"));;
          token ← se_gets (fun w => storage w !! "token");
          (if truthy_item token
           then se_try (se_lift (clearCartServer clearNet);; mret tt) (fun err => mret tt)
           else mret tt);;
          id' ← se_lift (get order "id");
          start_poll id')
         (fun err => se_modify (setMessage (Some (String_of_exn err)))))
      (setLoading false).

(** The cleanup of the effect that owns [pollRef], run when the view is
    torn down. *)
Definition unmount (w : CartWorld) : CartWorld :=
  match pollRef w with
  | Some _ => clearInterval (pollRef w) w
  | None => w
  end.

(** What can happen to a mounted [Cart] view, one event at a time. *)
Inductive event : Type :=
  | EvLoad (net : completion Response)
  | EvPlaceOrder (orderNet clearNet : completion Response)
  | EvTick (h : positive) (net : completion Response)
  | EvUnmount.

(** A timer fires only while it is live. *)
Definition step (w : CartWorld) (ev : event) : CartWorld :=
  match ev with
  | EvLoad net => snd (load net w)
  | EvPlaceOrder orderNet clearNet => snd (placeOrder orderNet clearNet w)
  | EvTick h net =>
      match timers w !! h with
      | Some id => snd (poll_tick id net w)
      | None => w
      end
  | EvUnmount => unmount w
  end.

Definition run (w : CartWorld) (evs : list event) : CartWorld := foldl step w evs.

(** The view as it mounts over a given storage. *)
Definition mount (ls : gmap string string) : CartWorld :=
  mkCart ls (VArr []) false None VNull None ∅ 1%positive [].

End Cart.

(** ** pages/Products: the add-to-cart button *)

Section Products.
Context `{Runtime}.

(** What the button reads and writes: browser storage, and the alerts it
    has shown. *)
Record ProductsWorld : Type := mkProducts {
  p_storage : gmap string string;
  alerts : list string
}.

Definition alert (msg : string) (w : ProductsWorld) : ProductsWorld :=
  mkProducts (p_storage w) (alerts w ++ [msg]).

Definition setItem (k v : string) (w : ProductsWorld) : ProductsWorld :=
  mkProducts (<[k := v]> (p_storage w)) (alerts w).

(** [{ product_id: p.id, quantity: 1, name: p.name, price: p.price }] *)
Definition cart_entry (p : value) : completion value :=
  id ← get p "id";
  n ← get p "name";
  pr ← get p "price";
  Normal (VObj [("product_id", id); ("quantity", VNum (num_of_Z 1)); ("name", n); ("price", pr)]).

(** [existing.push(arg)]: reading [push] of null fails before the argument
    is evaluated, and only an array has a [push] to call afterwards. *)
Definition push (existing : value) (arg : completion value) : completion value :=
  match existing with
  | VUndefined | VNull => Throw (TypeError "Cannot read properties of null (reading 'push')")
  | VArr elems => entry ← arg; Normal (VArr (elems ++ [entry]))
  | _ => arg;; Throw (TypeError "existing.push is not a function")
  end.

(** The three lines both local branches run: read the stored cart, push
    the entry, write the cart back. *)
Definition save_locally (p : value) : SE ProductsWorld unit :=
  stored ← se_gets (fun w => p_storage w !! "cart");
  existing ← se_lift (JSON_parse (if truthy_item stored then default "" stored else "[]"));
  existing' ← se_lift (push existing (cart_entry p));
  se_modify (setItem "cart" (JSON_stringify existing')).

(** The button's [onClick] for product [p], where [net] is how the POST to
    /cart/items settles *)
Definition add_to_cart (p : value) (net : completion Response) : SE ProductsWorld unit :=
  token ← se_gets (fun w => p_storage w !! "token");
  if truthy_item token then
    se_try
      (id ← se_lift (get p "id");
       se_lift (addToCartServer net);;
       se_modify (alert "Added to cart (server)"))
      (fun err =>
         se_modify (alert "Failed to add to server cart, saved locally");;
         save_locally p)
  else
    save_locally p;;
    se_modify (alert "Added to cart (local)").

End Products.

(** ** App and RequireAuth: the checks on resume and on render *)

Section Guards.
Context `{Runtime}.

(** The body [handlePageShow] and [handlePopState] share: the redirect of
    [logout] without its [clearAuth] and [setToken]. *)
Definition redirect_to_login (w : AppWorld) : AppWorld :=
  mkApp (app_storage w)
        (replace_entry "/login" (replace_entry "/login" (app_history w)))
        (app_token w).

Definition handlePageShow (now : number) (w : AppWorld) : completion AppWorld :=
  let t := getToken (app_storage w) in
  if negb (truthy_item t) then Normal (redirect_to_login w)
  else
    valid ← isTokenValid now t;
    if negb valid then Normal (redirect_to_login w) else Normal w.

Definition handlePopState (now : number) (w : AppWorld) : completion AppWorld :=
  let t := getToken (app_storage w) in
  if negb (truthy_item t) then Normal (redirect_to_login w)
  else
    valid ← isTokenValid now t;
    if negb valid then Normal (redirect_to_login w) else Normal w.

(** What [RequireAuth] renders: its children, or
    [<Navigate to="/login" state={{ from: location }} replace />]. *)
Inductive rendered : Type :=
  | Children
  | Navigate (to : string) (from : string).

Definition RequireAuth (now : number) (ls : gmap string string) (location : string)
  : completion rendered :=
  let token := getToken ls in
  if negb (truthy_item token) then Normal (Navigate "/login" location)
  else
    valid ← isTokenValid now token;
    if negb valid then Normal (Navigate "/login" location) else Normal Children.

(** [claims && claims.role === "admin"] of [App], for the [token] state *)
Definition isAdmin (token : option string) : completion value :=
  claims ← (if truthy_item token then parseJwt token else Normal VNull);
  if ToBoolean claims then
    role ← get claims "role";
    Normal (VBool (strict_eq_str role "admin"))
  else Normal claims.

End Guards.

(** ** App: the sign-out armed when the page mounts *)

Section Mount.
Context `{Runtime}.

(** [x - y] and [x / y] on numbers *)
Definition num_sub (x y : number) : number := SFsub prec emax x y.
Definition num_div (x y : number) : number := SFdiv prec emax x y.

(** [Math.floor(x)]: a finite number with a non-negative exponent is an
    integer already; below, the integer part is exact. *)
Definition num_floor (x : number) : number :=
  match x with
  | S754_finite s m e =>
      if (0 <=? e)%Z then x
      else
        let d := (2 ^ (- e))%Z in
        if s then num_of_Z (- ((Z.pos m + d - 1) / d))
        else num_of_Z (Z.pos m / d)
  | _ => x
  end.

(** What the effect that runs when [App] mounts reads and writes: the page,
    the [expiresIn] state, and the delay of the timeout [timer] holds. *)
Record MountWorld : Type := mkMount {
  page : AppWorld;
  expiresIn : value;
  timer : option number
}.

Definition on_page (f : AppWorld -> AppWorld) (m : MountWorld) : MountWorld :=
  mkMount (f (page m)) (expiresIn m) (timer m).
Definition setToken (t : option string) (w : AppWorld) : AppWorld :=
  mkApp (app_storage w) (app_history w) t.
Definition setExpiresIn (v : value) (m : MountWorld) : MountWorld :=
  mkMount (page m) v (timer m).
(** [timer = setTimeout(() => { logout(); }, delay)] *)
Definition setTimeout (delay : number) (m : MountWorld) : MountWorld :=
  mkMount (page m) (expiresIn m) (Some delay).

(** [scheduleLogout()], with [now] what [Date.now()] returns *)
Definition scheduleLogout (now : number) : SE MountWorld unit :=
  t ← se_gets (fun m => getToken (app_storage (page m)));
  se_modify (on_page (setToken t));;
  if negb (truthy_item t) then mret tt
  else
    claims ← se_lift (parseJwt t);
    if negb (ToBoolean claims) then mret tt
    else
      e ← se_lift (get claims "exp");
      if negb (ToBoolean e) then mret tt
      else
        x ← se_lift (ToNumber e);
        let msLeft := num_sub (num_mul x (num_of_Z 1000)) now in
        if num_le msLeft pos_zero then se_modify (on_page logout)
        else
          se_modify (setExpiresIn (VNum (num_floor (num_div msLeft (num_of_Z 1000)))));;
          se_modify (setTimeout msLeft).

End Mount.

(** ** pages/Login *)

Module Login.
Section Login.
Context `{Runtime}.

(** How an awaited request of the form settles: the data of the answer, or
    a rejection with what the handler reads of it,
    [err.response?.data?.detail] and [err.message]. *)
Inductive settled : Type :=
  | Fulfilled (data : value)
  | Rejected (detail : value) (message : string).

(** What the [catch] of a handler receives: an error the handler's own
    code raised, which has no [response], or the rejection of a request. *)
Inductive caught : Type :=
  | Raised (e : exn)
  | Refused (detail : value) (message : string).

(** [err.response?.data?.detail || err.message] *)
Definition shown_error (c : caught) : value :=
  match c with
  | Raised e => VStr (exn_message e)
  | Refused detail message => if ToBoolean detail then detail else VStr message
  end.

(** What the form reads and writes: browser storage, the session history
    (current entry first) and the [error] state. *)
Record World : Type := mkLogin {
  storage : gmap string string;
  history : list string;
  error : value
}.

Definition setError (e : value) (w : World) : World :=
  mkLogin (storage w) (history w) e.
Definition setItem (k v : string) (w : World) : World :=
  mkLogin (<[k := v]> (storage w)) (history w) (error w).
(** [navigate(url, { replace: true })] *)
Definition navigate (url : string) (w : World) : World :=
  mkLogin (storage w) (replace_entry url (history w)) (error w).

(** The lines both handlers run from [await login(username, password)] on,
    where [res] is how that request settles.  The notification of the auth
    service that follows the [setItem] is awaited inside its own [try] and
    changes nothing here. *)
Definition sign_in (res : settled) (w : World) : option caught * World :=
  match res with
  | Rejected detail message => (Some (Refused detail message), w)
  | Fulfilled tokenResp =>
      match (tok ← get tokenResp "access_token"; ToString tok) with
      | Throw e => (Some (Raised e), w)
      | Normal s => (None, navigate "/products" (setItem "token" s w))
      end
  end.

(** [try { ... } catch (err) { setError(...) }] *)
Definition reported (r : option caught * World) : World :=
  match r with
  | (None, w) => w
  | (Some c, w) => setError (shown_error c) w
  end.

(** [doLogin(e)] *)
Definition doLogin (res : settled) (w : World) : World :=
  reported (sign_in res (setError VNull w)).

(** [doRegister(e)], where [reg] is how the registration settles *)
Definition doRegister (reg res : settled) (w : World) : World :=
  reported
    (match reg with
     | Rejected detail message => (Some (Refused detail message), setError VNull w)
     | Fulfilled _ => sign_in res (setError VNull w)
     end).

End Login.
End Login.

(** ** pages/Cart: removing an entry and retrying a payment *)

Section CartActions.
Context `{Runtime}.

(** [cart[index]] *)
Definition element_at (c : value) (index : nat) : completion value :=
  match c with
  | VArr elems => Normal (default VUndefined (elems !! index))
  | VStr s => Normal (default VUndefined
                        ((fun ch => VStr (String ch EmptyString)) <$> list_ascii_of_string s !! index))
  | VObj props => Normal (default VUndefined (own_property props (status_text (N.of_nat index))))
  | VUndefined | VNull => Throw (TypeError "Cannot read properties of null")
  | VBool _ | VNum _ => Normal VUndefined
  end.

(** [removeItem(index)].  The request to the server cart is sent and not
    awaited, and its failure is logged only: how it settles reaches
    nothing here. *)
Definition removeItem (index : nat) : SE CartWorld unit :=
  token ← se_gets (fun w => storage w !! "token");
  (if truthy_item token then
     c ← se_gets cart;
     it ← se_lift (element_at c index);
     se_lift (get it "product_id");;
     mret tt
   else mret tt);;
  c ← se_gets cart;
  copy ← se_lift (iterate c);
  let copy := delete index copy in
  se_modify (setCart (VArr copy));;
  se_modify (set_storage (insert "cart" (JSON_stringify (VArr copy)))).

(** [handleRetryFromCart()], where [net] is how the POST to /payment
    settles *)
Definition handleRetryFromCart (net : completion Response) : SE CartWorld unit :=
  lo ← se_gets lastOrder;
  if negb (ToBoolean lo) || negb (ToBoolean (prop lo "id")) then mret tt
  else
    se_modify (setLoading true);;
    se_finally
      (se_try
         (s ← se_lift (ToString (prop lo "id"));
          se_modify (setMessage (Some ("Retrying payment for order #" ++ s ++ "…")));;
          pay ← se_lift (createPayment net);
          res ← se_lift (get pay "result");
          if strict_eq_str res "SUCCESS" then
            se_modify (setMessage (Some ("Payment successful for order " ++ s)));;
            se_modify (setLastOrder VNull)
          else if strict_eq_str res "PENDING" then
            se_modify (setMessage
              (Some "Payment still pending. It was not completed; you can retry manually."))
          else
            se_modify (setMessage (Some "Payment retry failed. Try again later.")))
         (fun err => se_modify (setMessage (Some ("Retry failed: " ++ String_of_exn err)))))
      (setLoading false).

End CartActions.

(** ** pages/MyOrders *)

Module MyOrders.
Section MyOrders.
Context `{Runtime}.

(** [JSON.parse(v)]: the text of [v] is what is parsed. *)
Definition JSON_parse_value (v : value) : completion value :=
  s ← ToString v; JSON_parse s.

(** [parseItems(itemsStr)]; only a string has a [replace] to call. *)
Definition parseItems (itemsStr : value) : value :=
  if negb (ToBoolean itemsStr) then VArr []
  else
    match JSON_parse_value itemsStr with
    | Normal v => v
    | Throw _ =>
        catch_default
          (match itemsStr with
           | VStr str => JSON_parse (replace_all "'" "034" str)
           | _ => Throw (TypeError "itemsStr.replace is not a function")
           end)
          (VArr [])
    end.

(** What the view reads and writes: browser storage, the [orders] state,
    the [productsCache] map (keys in order of insertion), and the product
    ids requested from the catalog, oldest first. *)
Record World : Type := mkOrders {
  storage : gmap string string;
  orders : list value;
  productsCache : list (value * value);
  requested : list value
}.

Definition setOrders (l : list value) (w : World) : World :=
  mkOrders (storage w) l (productsCache w) (requested w).
Definition log_request (pid : value) (w : World) : World :=
  mkOrders (storage w) (orders w) (productsCache w) (requested w ++ [pid])%list.

(** [productsCache.get(k)] *)
Definition cache_get (cache : list (value * value)) (k : value) : value :=
  match List.find (fun kv => same_value_zero (fst kv) k) cache with
  | Some kv => snd kv
  | None => VUndefined
  end.

(** [productsCache.set(k, v)] *)
Fixpoint cache_set (k v : value) (cache : list (value * value)) : list (value * value) :=
  match cache with
  | [] => [(k, v)]
  | (k', v') :: rest =>
      if same_value_zero k' k then (k', v) :: rest else (k', v') :: cache_set k v rest
  end.

Definition cache_put (k v : value) (w : World) : World :=
  mkOrders (storage w) (orders w) (cache_set k v (productsCache w)) (requested w).

(** [a || b] when evaluating [b] can throw *)
Definition or_else (a : value) (b : completion value) : completion value :=
  if ToBoolean a then Normal a else b.

(** What [for (const x of v)] iterates over, for the variable [name]. *)
Definition iterable (name : string) (v : value) : completion (list value) :=
  match v with
  | VArr elems => Normal elems
  | VStr s => Normal (map (fun c => VStr (String c EmptyString)) (list_ascii_of_string s))
  | _ => Throw (TypeError (name ++ " is not iterable"))
  end.

(** One turn of the loop of [enrichOrderItems].  The [n]-th request to the
    catalog settles as [catalog n]; its URL prints the product id. *)
Definition enrich_item (catalog : nat -> completion value) (enriched : list value) (it : value)
  : SE World (list value) :=
  p ← se_lift (get it "product_id");
  pid ← se_lift (or_else p (p' ← get it "productId"; or_else p' (get it "id")));
  q ← se_lift (get it "quantity");
  qty ← se_lift (or_else q (q' ← get it "qty"; or_else q' (Normal (VNum (num_of_Z 1)))));
  if negb (ToBoolean pid) then mret enriched
  else
    cached ← se_gets (fun w => cache_get (productsCache w) pid);
    prod ←
      (if negb (ToBoolean cached) then
         se_try
           (se_lift (ToString pid);;
            n ← se_gets (fun w => length (requested w));
            se_modify (log_request pid);;
            fetched ← se_lift (catalog n);
            se_modify (cache_put pid fetched);;
            mret fetched)
           (fun err =>
              name ← se_lift (ToString pid);
              mret (VObj [("id", pid); ("name", VStr ("#" ++ name)); ("price", VNum pos_zero)]))
       else mret cached);
    mret (enriched ++ [VObj [("product", prod); ("quantity", qty)]])%list.

Fixpoint enrich_loop (catalog : nat -> completion value) (enriched items : list value)
  : SE World (list value) :=
  match items with
  | [] => mret enriched
  | it :: rest =>
      enriched' ← enrich_item catalog enriched it;
      enrich_loop catalog enriched' rest
  end.

(** [enrichOrderItems(items)] *)
Definition enrichOrderItems (catalog : nat -> completion value) (items : value)
  : SE World value :=
  l ← se_lift (iterable "items" items);
  enriched ← enrich_loop catalog [] l;
  mret (VArr enriched).

(** The own enumerable properties [{ ...o }] copies. *)
Definition own_enumerable (o : value) : list (string * value) :=
  match o with
  | VObj props => props
  | VArr elems => imap (fun i x => (status_text (N.of_nat i), x)) elems
  | VStr s =>
      imap (fun i c => (status_text (N.of_nat i), VStr (String c EmptyString)))
           (list_ascii_of_string s)
  | _ => []
  end.

(** [{ ...props, k: v }] for a name [k] that is no array index *)
Fixpoint assign (k : string) (v : value) (props : list (string * value))
  : list (string * value) :=
  match props with
  | [] => [(k, v)]
  | (k', v') :: rest =>
      if String.eqb k' k then (k', v) :: rest else (k', v') :: assign k v rest
  end.

(** [fetchMyOrders(token)]: the body as JSON, whatever the status *)
Definition fetchMyOrders (net : completion Response) : completion value :=
  r ← net; json r.

Fixpoint load_loop (catalog : nat -> completion value) (fully data : list value)
  : SE World (list value) :=
  match data with
  | [] => mret fully
  | o :: rest =>
      items ← se_lift (get o "items");
      let rawItems := parseItems items in
      parsed ← enrichOrderItems catalog rawItems;
      load_loop catalog (fully ++ [VObj (assign "parsedItems" parsed (own_enumerable o))])%list rest
  end.

(** [load()], where [net] is how the GET of /myorders settles *)
Definition load (net : completion Response) (catalog : nat -> completion value)
  : SE World unit :=
  se_try
    (data ← se_lift (fetchMyOrders net);
     let list' := if ToBoolean data then data else VArr [] in
     l ← se_lift (iterable "list" list');
     fully ← load_loop catalog [] l;
     se_modify (setOrders fully))
    (fun err => mret tt).

(** [list.includes(v)] for a list of string literals *)
Definition includes (l : list string) (v : value) : bool :=
  existsb (strict_eq_str v) l.

(** [list.some(f)] for a callback that can throw *)
Fixpoint some (f : value -> completion bool) (l : list value) : completion bool :=
  match l with
  | [] => Normal false
  | x :: rest => b ← f x; if b : bool then Normal true else some f rest
  end.

Definition needsPolling (orders : list value) : completion bool :=
  some (fun o => st ← get o "status";
                 Normal (includes ["PENDING_PAYMENT"; "PAYMENT_FAILED"; "PENDING"] st))
       orders.

(** The condition under which the view renders the Retry button of [o]. *)
Definition retry_offered (o : value) : completion bool :=
  st ← get o "status";
  Normal (includes ["PAYMENT_FAILED"; "PENDING_PAYMENT"; "PENDING"] st).

End MyOrders.
End MyOrders.

(** ** An executable runtime *)

(** The built-ins as ECMA-262, ECMA-404 and the HTML standard define them,
    over strings of 8-bit code units: an escape or an encoded sequence that
    denotes a code unit above 0xFF has no image here and is reported as a
    failure of the built-in.  Numbers are read and written exactly. *)
Module Reference.

Local Open Scope Z_scope.

Definition code (c : ascii) : Z := Z.of_N (N_of_ascii c).
Definition char_of (n : Z) : ascii := ascii_of_N (Z.to_N n).

Definition digit_of (c : ascii) : option Z :=
  if (48 <=? code c) && (code c <=? 57) then Some (code c - 48) else None.

Definition hex_of (c : ascii) : option Z :=
  if (48 <=? code c) && (code c <=? 57) then Some (code c - 48)
  else if (65 <=? code c) && (code c <=? 70) then Some (code c - 55)
  else if (97 <=? code c) && (code c <=? 102) then Some (code c - 87)
  else None.

(** The Number value of [m * 10^e] for a natural number [m] of at most
    [digits] decimal digits: correctly rounded to nearest, ties to even. *)
Definition num_of_decimal (neg : bool) (m : Z) (digits : Z) (e : Z) : number :=
  match m with
  | Zpos p =>
      if 400 <? e then S754_infinity neg
      else if digits + e <? -400 then S754_zero neg
      else if 0 <=? e then binary_round prec emax neg (p * Z.to_pos (10 ^ e)) 0
      else
        let '(q, e', l) := SFdiv_core_binary prec emax (Zpos p) 0 (10 ^ (- e)) 0 in
        binary_round_aux prec emax neg q e' l
  | _ => S754_zero neg
  end.

(** Decimal digits at the head of [s]: their value after [acc], how many
    there are, and what follows them. *)
Fixpoint read_digits (acc count : Z) (s : list ascii) : Z * Z * list ascii :=
  match s with
  | c :: rest =>
      match digit_of c with
      | Some d => read_digits (10 * acc + d) (count + 1) rest
      | None => (acc, count, s)
      end
  | [] => (acc, count, s)
  end.

(** An optional exponent part [e[+-]digits]; [None] when an [e] is not
    followed by digits. *)
Definition read_exponent (s : list ascii) : option (Z * list ascii) :=
  match s with
  | c :: rest =>
      if Ascii.eqb c "e" || Ascii.eqb c "E" then
        let '(sign, rest') :=
          match rest with
          | "+"%char :: r => (1, r)
          | "-"%char :: r => (-1, r)
          | _ => (1, rest)
          end in
        let '(x, n, rest'') := read_digits 0 0 rest' in
        if n =? 0 then None else Some (sign * x, rest'')
      else Some (0, s)
  | [] => Some (0, s)
  end.

(** A JSON number at the head of [s]. *)
Definition read_number (s : list ascii) : option (number * list ascii) :=
  let '(neg, s1) := match s with "-"%char :: r => (true, r) | _ => (false, s) end in
  int ← match s1 with
        | "0"%char :: r => Some (0, 1, r)
        | c :: _ =>
            match digit_of c with
            | Some _ => Some (read_digits 0 0 s1)
            | None => None
            end
        | [] => None
        end;
  let '(i, ni, s2) := int in
  frac ← match s2 with
         | "."%char :: r =>
             let '(f, nf, r') := read_digits i 0 r in
             if nf =? 0 then None else Some (f, nf, r')
         | _ => Some (i, 0, s2)
         end;
  let '(m, nf, s3) := frac in
  ex ← read_exponent s3;
  let '(x, s4) := ex in
  Some (num_of_decimal neg m (ni + nf) (x - nf), s4).

Definition is_json_ws (c : ascii) : bool :=
  Ascii.eqb c " " || Ascii.eqb c "009" || Ascii.eqb c "010" || Ascii.eqb c "013".

Fixpoint skip_ws (s : list ascii) : list ascii :=
  match s with
  | c :: rest => if is_json_ws c then skip_ws rest else s
  | [] => []
  end.

(** The characters of a JSON string after its opening quote, up to the
    closing one. *)
Fixpoint read_string (s : list ascii) : option (string * list ascii) :=
  match s with
  | [] => None
  | "034"%char :: rest => Some (EmptyString, rest)
  | "\"%char :: c :: rest =>
      let simple (x : ascii) :=
        r ← read_string rest; Some (String x (fst r), snd r) in
      match c with
      | "034"%char => simple "034"%char
      | "\"%char => simple "\"%char
      | "/"%char => simple "/"%char
      | "b"%char => simple "008"%char
      | "f"%char => simple "012"%char
      | "n"%char => simple "010"%char
      | "r"%char => simple "013"%char
      | "t"%char => simple "009"%char
      | "u"%char =>
          match rest with
          | h1 :: h2 :: h3 :: h4 :: rest' =>
              a ← hex_of h1; b ← hex_of h2; c ← hex_of h3; d ← hex_of h4;
              let unit := ((a * 16 + b) * 16 + c) * 16 + d in
              if unit <? 256 then
                r ← read_string rest'; Some (String (char_of unit) (fst r), snd r)
              else None
          | _ => None
          end
      | _ => None
      end
  | c :: rest =>
      if code c <? 32 then None
      else r ← read_string rest; Some (String c (fst r), snd r)
  end.


(** An array index: the canonical decimal text of an integer below
    [2^32 - 1]. *)
Definition array_index (k : string) : option Z :=
  match list_ascii_of_string k with
  | [] => None
  | c :: rest =>
      let '(x, n, tl) := read_digits 0 0 (c :: rest) in
      match tl with
      | [] =>
          if (Ascii.eqb c "0" && negb (n =? 1)) || (4294967294 <? x) then None
          else Some x
      | _ => None
      end
  end.

(** Where a new own property goes: array indices come first, in ascending
    order, then the other names in order of creation. *)
Fixpoint insert_property (k : string) (v : value) (props : list (string * value))
  : list (string * value) :=
  match props with
  | [] => [(k, v)]
  | (k', v') :: rest =>
      match array_index k, array_index k' with
      | Some i, Some j =>
          if i <? j then (k, v) :: props else (k', v') :: insert_property k v rest
      | Some _, None => (k, v) :: props
      | None, _ => (k', v') :: insert_property k v rest
      end
  end.

Fixpoint replace_property (k : string) (v : value) (props : list (string * value))
  : list (string * value) :=
  match props with
  | [] => []
  | (k', v') :: rest =>
      if String.eqb k' k then (k, v) :: rest else (k', v') :: replace_property k v rest
  end.

(** CreateDataProperty on a parsed object: a repeated name keeps its place
    and takes the later value. *)
Definition define_property (k : string) (v : value) (props : list (string * value))
  : list (string * value) :=
  match own_property props k with
  | Some _ => replace_property k v props
  | None => insert_property k v props
  end.

(** A JSON value at the head of [s], after white space.  Every call
    consumes a character within two nested calls, so twice the length of
    the text is fuel enough. *)
Fixpoint read_value (fuel : nat) (s : list ascii) : option (value * list ascii) :=
  match fuel with
  | O => None
  | S fuel =>
      match skip_ws s with
      | "n"%char :: "u"%char :: "l"%char :: "l"%char :: rest => Some (VNull, rest)
      | "t"%char :: "r"%char :: "u"%char :: "e"%char :: rest => Some (VBool true, rest)
      | "f"%char :: "a"%char :: "l"%char :: "s"%char :: "e"%char :: rest =>
          Some (VBool false, rest)
      | "034"%char :: rest =>
          r ← read_string rest; Some (VStr (fst r), snd r)
      | "["%char :: rest =>
          match skip_ws rest with
          | "]"%char :: rest' => Some (VArr [], rest')
          | _ => r ← read_elements fuel rest; Some (VArr (fst r), snd r)
          end
      | "{"%char :: rest =>
          match skip_ws rest with
          | "}"%char :: rest' => Some (VObj [], rest')
          | _ => r ← read_members fuel [] rest; Some (VObj (fst r), snd r)
          end
      | s' => r ← read_number s'; Some (VNum (fst r), snd r)
      end
  end
with read_elements (fuel : nat) (s : list ascii) : option (list value * list ascii) :=
  match fuel with
  | O => None
  | S fuel =>
      r ← read_value fuel s;
      match skip_ws (snd r) with
      | ","%char :: rest =>
          r' ← read_elements fuel rest; Some (fst r :: fst r', snd r')
      | "]"%char :: rest => Some ([fst r], rest)
      | _ => None
      end
  end
with read_members (fuel : nat) (props : list (string * value)) (s : list ascii)
  : option (list (string * value) * list ascii) :=
  match fuel with
  | O => None
  | S fuel =>
      match skip_ws s with
      | "034"%char :: rest =>
          k ← read_string rest;
          match skip_ws (snd k) with
          | ":"%char :: rest' =>
              r ← read_value fuel rest';
              let props' := define_property (fst k) (fst r) props in
              match skip_ws (snd r) with
              | ","%char :: rest'' => read_members fuel props' rest''
              | "}"%char :: rest'' => Some (props', rest'')
              | _ => None
              end
          | _ => None
          end
      | _ => None
      end
  end.

(** [JSON.parse(text)] *)
Definition JSON_parse (text : string) : completion value :=
  let s := list_ascii_of_string text in
  match read_value (2 * length s + 2) s with
  | Some (v, rest) =>
      match skip_ws rest with
      | [] => Normal v
      | _ => Throw (SyntaxError "Unexpected non-whitespace character after JSON")
      end
  | None => Throw (SyntaxError "Unexpected token in JSON")
  end.


(** *** Number to text *)

Definition decimal_text (z : Z) : string :=
  NilEmpty.string_of_uint (N.to_uint (Z.to_N z)).

Fixpoint zeros (n : nat) : string :=
  match n with O => EmptyString | S n => String "0" (zeros n) end.

(** [x < 10^n] for the positive rational [x = num / den] *)
Definition below_power (num den n : Z) : bool :=
  if 0 <=? n then num <? den * 10 ^ n else num * 10 ^ (- n) <? den.

(** The least [n] from [n0] on with [x < 10^n]. *)
Fixpoint magnitude (fuel : nat) (num den n0 : Z) : Z :=
  match fuel with
  | O => n0
  | S fuel => if below_power num den n0 then n0 else magnitude fuel num den (n0 + 1)
  end.

(** [floor (x / 10^scale)] *)
Definition scaled_floor (num den scale : Z) : Z :=
  if 0 <=? scale then num / (den * 10 ^ scale) else (num * 10 ^ (- scale)) / den.

(** Is [s * 10^scale] nearer to [x] than [(s + 1) * 10^scale], or as near
    with [s] even? *)
Definition lower_is_nearer (num den s scale : Z) : bool :=
  let c := if 0 <=? scale
           then Z.compare (2 * num) ((2 * s + 1) * den * 10 ^ scale)
           else Z.compare (2 * num * 10 ^ (- scale)) ((2 * s + 1) * den) in
  match c with
  | Lt => true
  | Eq => Z.even s
  | Gt => false
  end.

(** The shortest digits [s] with [k] digits and the exponent [n] for which
    [s * 10^(n - k)] reads back as [x]; [k] runs from [k0] up. *)
Fixpoint shortest (fuel : nat) (x : number) (num den n k : Z) : Z * Z * Z :=
  let scale := n - k in
  let lo := scaled_floor num den scale in
  let reads s := SFeqb (num_of_decimal false s (k + 1) scale) x in
  let pick :=
    if reads lo && reads (lo + 1)
    then Some (if lower_is_nearer num den lo scale then lo else lo + 1)
    else if reads lo then Some lo
    else if reads (lo + 1) then Some (lo + 1)
    else None in
  match pick, fuel with
  | Some s, _ => if s =? 10 ^ k then (10 ^ (k - 1), k, n + 1) else (s, k, n)
  | None, S fuel => shortest fuel x num den n (k + 1)
  | None, O => (lo, k, n)
  end.

Definition split_at (n : Z) (s : string) : string * string :=
  (String.substring 0 (Z.to_nat n) s,
   String.substring (Z.to_nat n) (String.length s - Z.to_nat n) s).

(** Number::toString for a positive finite number [m * 2^e] *)
Definition positive_text (m : positive) (e : Z) : string :=
  let '(num, den) := if 0 <=? e then (Zpos m * 2 ^ e, 1) else (Zpos m, 2 ^ (- e)) in
  let bits := Zpos (digits2_pos m) + e in
  let n0 := magnitude 8 num den ((bits - 1) * 30102 / 100000 - 1) in
  let '(s, k, n) := shortest 17 (S754_finite false m e) num den n0 1 in
  let digits := decimal_text s in
  if (k <=? n) && (n <=? 21) then (digits ++ zeros (Z.to_nat (n - k)))%string
  else if (0 <? n) && (n <=? 21) then
    let '(a, b) := split_at n digits in (a ++ "." ++ b)%string
  else if (-6 <? n) && (n <=? 0) then ("0." ++ zeros (Z.to_nat (- n)) ++ digits)%string
  else
    let sign := if 0 <=? n - 1 then "+" else "-" in
    let ex := (sign ++ decimal_text (Z.abs (n - 1)))%string in
    if k =? 1 then (digits ++ "e" ++ ex)%string
    else let '(a, b) := split_at 1 digits in (a ++ "." ++ b ++ "e" ++ ex)%string.

(** Number::toString in radix 10 *)
Definition NumberToString (x : number) : string :=
  match x with
  | S754_nan => "NaN"
  | S754_zero _ => "0"
  | S754_infinity false => "Infinity"
  | S754_infinity true => "-Infinity"
  | S754_finite false m e => positive_text m e
  | S754_finite true m e => ("-" ++ positive_text m e)%string
  end.


(** *** Text to number *)

(** StrWhiteSpaceChar among the 8-bit code units *)
Definition is_str_ws (c : ascii) : bool :=
  ((9 <=? code c) && (code c <=? 13)) || (code c =? 32) || (code c =? 160).

Fixpoint trim_left (s : list ascii) : list ascii :=
  match s with
  | c :: rest => if is_str_ws c then trim_left rest else s
  | [] => []
  end.

Definition trim (s : list ascii) : list ascii :=
  rev (trim_left (rev (trim_left s))).

(** The digits of [s] in the given radix, when [s] is nothing else. *)
Fixpoint read_radix (radix acc : Z) (s : list ascii) : option Z :=
  match s with
  | [] => Some acc
  | c :: rest =>
      d ← hex_of c;
      if d <? radix then read_radix radix (radix * acc + d) rest else None
  end.

Definition infinity_text : list ascii := list_ascii_of_string "Infinity".

(** StrUnsignedDecimalLiteral, when [s] is nothing else *)
Definition read_unsigned (neg : bool) (s : list ascii) : option number :=
  if bool_decide (s = infinity_text) then Some (S754_infinity neg)
  else
    let '(i, ni, s1) := read_digits 0 0 s in
    let '(m, nf, s2) :=
      match s1 with
      | "."%char :: r => read_digits i 0 r
      | _ => (i, 0, s1)
      end in
    if ni + nf =? 0 then None
    else
      match read_exponent s2 with
      | Some (x, []) => Some (num_of_decimal neg m (ni + nf) (x - nf))
      | _ => None
      end.

(** StringToNumber *)
Definition StringToNumber (text : string) : number :=
  let s := trim (list_ascii_of_string text) in
  let radix_literal (radix : Z) (digits : list ascii) :=
    match digits with
    | [] => None
    | _ => x ← read_radix radix 0 digits; Some (num_of_Z x)
    end in
  default NaN
    match s with
    | [] => Some pos_zero
    | "0"%char :: "x"%char :: r | "0"%char :: "X"%char :: r => radix_literal 16 r
    | "0"%char :: "o"%char :: r | "0"%char :: "O"%char :: r => radix_literal 8 r
    | "0"%char :: "b"%char :: r | "0"%char :: "B"%char :: r => radix_literal 2 r
    | "+"%char :: r => read_unsigned false r
    | "-"%char :: r => read_unsigned true r
    | _ => read_unsigned false s
    end.

(** *** JSON.stringify *)

Definition hex_digit (n : Z) : ascii :=
  if n <? 10 then char_of (48 + n) else char_of (87 + n).

(** QuoteJSONString, without the enclosing quotes *)
Fixpoint quote_chars (s : string) : string :=
  match s with
  | EmptyString => EmptyString
  | String c rest =>
      let tail := quote_chars rest in
      let esc (x : ascii) := String "\" (String x tail) in
      if Ascii.eqb c "034" then esc "034"%char
      else if Ascii.eqb c "\" then esc "\"%char
      else if Ascii.eqb c "008" then esc "b"%char
      else if Ascii.eqb c "012" then esc "f"%char
      else if Ascii.eqb c "010" then esc "n"%char
      else if Ascii.eqb c "013" then esc "r"%char
      else if Ascii.eqb c "009" then esc "t"%char
      else if code c <? 32 then
        ("\u00" ++ String (hex_digit (code c / 16)) (String (hex_digit (code c mod 16)) tail))%string
      else String c tail
  end.

Definition quote (s : string) : string :=
  String "034" (quote_chars s ++ String "034" EmptyString).

Fixpoint join (sep : string) (l : list string) : string :=
  match l with
  | [] => EmptyString
  | [x] => x
  | x :: rest => (x ++ sep ++ join sep rest)%string
  end.

(** SerializeJSONProperty without indentation; [None] is undefined. *)
Fixpoint serialize (v : value) : option string :=
  match v with
  | VUndefined => None
  | VNull => Some "null"
  | VBool true => Some "true"
  | VBool false => Some "false"
  | VNum n =>
      match n with
      | S754_nan | S754_infinity _ => Some "null"
      | _ => Some (NumberToString n)
      end
  | VStr s => Some (quote s)
  | VArr elems =>
      Some ("[" ++ join "," (map (fun x => default "null" (serialize x)) elems) ++ "]")%string
  | VObj props =>
      let members :=
        (fix go (l : list (string * value)) : list string :=
           match l with
           | [] => []
           | (k, x) :: rest =>
               match serialize x with
               | Some s => (quote k ++ ":" ++ s)%string :: go rest
               | None => go rest
               end
           end) props in
      Some ("{" ++ join "," members ++ "}")%string
  end.

(** [JSON.stringify(v)]; the text "undefined" is what storing an undefined
    result would write. *)
Definition JSON_stringify (v : value) : string := default "undefined" (serialize v).


(** *** atob *)

Definition is_ascii_ws (c : ascii) : bool :=
  (code c =? 9) || (code c =? 10) || (code c =? 12) || (code c =? 13) || (code c =? 32).

Definition base64_value (c : ascii) : option Z :=
  let n := code c in
  if (65 <=? n) && (n <=? 90) then Some (n - 65)
  else if (97 <=? n) && (n <=? 122) then Some (n - 71)
  else if (48 <=? n) && (n <=? 57) then Some (n + 4)
  else if n =? 43 then Some 62
  else if n =? 47 then Some 63
  else None.

(** Padding goes only from text whose length is a multiple of four. *)
Definition strip_padding (s : list ascii) : list ascii :=
  if (length s mod 4 =? 0)%nat then
    match rev s with
    | "="%char :: "="%char :: r => rev r
    | "="%char :: r => rev r
    | _ => s
    end
  else s.

(** Four characters make three bytes; two or three left over make one or
    two, their spare bits dropped. *)
Fixpoint decode_sextets (l : list Z) : list ascii :=
  match l with
  | a :: b :: c :: d :: rest =>
      let n := ((a * 64 + b) * 64 + c) * 64 + d in
      char_of (n / 65536) :: char_of (n / 256 mod 256) :: char_of (n mod 256)
        :: decode_sextets rest
  | [a; b; c] =>
      let n := (a * 64 + b) * 64 + c in
      [char_of (n / 1024); char_of (n / 4 mod 256)]
  | [a; b] => [char_of ((a * 64 + b) / 16)]
  | _ => []
  end.

(** [atob(text)], the forgiving base64 decoding *)
Definition atob (text : string) : completion string :=
  let s := strip_padding (List.filter (fun c => negb (is_ascii_ws c)) (list_ascii_of_string text)) in
  if (length s mod 4 =? 1)%nat
  then Throw (Exn "InvalidCharacterError" "The string to be decoded is not correctly encoded.")
  else
    match mapM base64_value s with
    | Some l => Normal (string_of_list_ascii (decode_sextets l))
    | None => Throw (Exn "InvalidCharacterError" "The string to be decoded is not correctly encoded.")
    end.

(** *** escape and decodeURIComponent *)

Definition upper_hex_digit (n : Z) : ascii :=
  if n <? 10 then char_of (48 + n) else char_of (55 + n).

Definition escape_keeps (c : ascii) : bool :=
  let n := code c in
  ((65 <=? n) && (n <=? 90)) || ((97 <=? n) && (n <=? 122)) || ((48 <=? n) && (n <=? 57))
  || (n =? 64) || (n =? 42) || (n =? 95) || (n =? 43) || (n =? 45) || (n =? 46) || (n =? 47).

(** [escape(s)] *)
Fixpoint escape (s : string) : string :=
  match s with
  | EmptyString => EmptyString
  | String c rest =>
      if escape_keeps c then String c (escape rest)
      else String "%" (String (upper_hex_digit (code c / 16))
             (String (upper_hex_digit (code c mod 16)) (escape rest)))
  end.

(** The next [n] continuation bytes, each written [%XX], folded into the
    code point [acc]. *)
Fixpoint read_continuations (n : nat) (acc : Z) (s : list ascii) : option (Z * list ascii) :=
  match n with
  | O => Some (acc, s)
  | S n =>
      match s with
      | "%"%char :: h :: l :: rest =>
          a ← hex_of h; b ← hex_of l;
          let byte := a * 16 + b in
          if (128 <=? byte) && (byte <? 192)
          then read_continuations n (acc * 64 + (byte - 128)) rest
          else None
      | _ => None
      end
  end.

(** One escape sequence at the head of [s], after its [%]: the code point
    of a well-formed UTF-8 encoding. *)
Definition read_escaped (s : list ascii) : option (Z * list ascii) :=
  match s with
  | h :: l :: rest =>
      a ← hex_of h; b ← hex_of l;
      let byte := a * 16 + b in
      if byte <? 128 then Some (byte, rest)
      else if byte <? 192 then None
      else if byte <? 224 then
        r ← read_continuations 1 (byte - 192) rest;
        if 128 <=? fst r then Some r else None
      else if byte <? 240 then
        r ← read_continuations 2 (byte - 224) rest;
        if (2048 <=? fst r) && negb ((55296 <=? fst r) && (fst r <=? 57343)) then Some r else None
      else if byte <? 248 then
        r ← read_continuations 3 (byte - 240) rest;
        if (65536 <=? fst r) && (fst r <=? 1114111) then Some r else None
      else None
  | _ => None
  end.

(** Decoding, with [fuel] at least the length of the text.  A code point
    above 0xFF has no 8-bit code unit and is refused. *)
Fixpoint decode (fuel : nat) (s : list ascii) : option (list ascii) :=
  match fuel, s with
  | _, [] => Some []
  | O, _ => None
  | S fuel, "%"%char :: rest =>
      r ← read_escaped rest;
      if fst r <? 256 then t ← decode fuel (snd r); Some (char_of (fst r) :: t) else None
  | S fuel, c :: rest => t ← decode fuel rest; Some (c :: t)
  end.

(** [decodeURIComponent(text)] *)
Definition decodeURIComponent (text : string) : completion string :=
  let s := list_ascii_of_string text in
  match decode (length s) s with
  | Some l => Normal (string_of_list_ascii l)
  | None => Throw (URIError "URI malformed")
  end.

Definition runtime : Runtime :=
  Build_Runtime JSON_parse JSON_stringify atob escape decodeURIComponent
                StringToNumber NumberToString.


End Reference.

(** * The vocabulary of the properties *)

(** What the statements below speak of, beside the code itself. *)

Section Vocabulary.
Context `{Runtime}.

(** A value that has properties to read. *)
Definition nullish (v : value) : bool :=
  match v with VUndefined | VNull => true | _ => false end.

(** The payload segment as [atob] receives it. *)
Definition payload (t : string) : string :=
  replace_all "_" "/" (replace_all "-" "+" (nth 1 (split "." t) "")).

(** A token without claims: no three-part structure, an encoding [atob]
    or [decodeURIComponent] refuses, or a payload that is not JSON. *)
Definition malformed (t : string) : Prop :=
  length (split "." t) <> 3%nat
  \/ (exists e, atob (payload t) = Throw e)
  \/ (exists d e, atob (payload t) = Normal d /\ decodeURIComponent (escape d) = Throw e)
  \/ (exists d s e, atob (payload t) = Normal d /\ decodeURIComponent (escape d) = Normal s
                    /\ JSON_parse s = Throw e).

(** Signed out: no stored credential, no token in the view's state, and
    the login view as the current history entry. *)
Definition signed_out (w : AppWorld) : Prop :=
  getToken (app_storage w) = None
  /\ app_token w = None
  /\ head (app_history w) = Some "/login".

(** [s] without its prefix [pre] *)
Definition strip_prefix (pre s : string) : option string :=
  if String.prefix pre s
  then Some (String.substring (String.length pre) (String.length s - String.length pre) s)
  else None.

(** The status code an error of [createPayment] carries in its message. *)
Definition status_of_error (e : exn) : option N :=
  s ← strip_prefix "Payment request failed: " (exn_message e);
  N.of_uint <$> NilEmpty.uint_of_string s.

(** The object [{ result: 'PENDING' }] that stands in for a missing body. *)
Definition pending : value := VObj [("result", VStr "PENDING")].
(** The object [{ raw: bodyText }] that stands in for a body that is not JSON. *)
Definition raw (bodyText : string) : value := VObj [("raw", VStr bodyText)].

(** What [createPayment] makes of the body before it looks at the status. *)
Definition parsed_body (r : Response) : value :=
  let bodyText := catch_default (text r) "" in
  if negb (String.eqb bodyText "")
  then catch_default (JSON_parse bodyText) (raw bodyText)
  else VNull.

(** [e.product_id] of a cart entry that has properties *)
Definition product_id (v : value) : value := prop v "product_id".

(** A server item in the shape of a local entry. *)
Definition shape (it : value) : value :=
  VObj [("product_id", prop it "product_id"); ("quantity", prop it "quantity");
        ("name", prop it "name"); ("price", prop it "price")].

(** The local entries the merge keeps: those whose product id is not an id
    of a server item. *)
Definition retained (items locals : list value) : list value :=
  List.filter (fun li => negb (set_has (map product_id items) (product_id li))) locals.

(** Server items first, reshaped, then the local entries kept. *)
Definition merged_cart (items locals : list value) : list value :=
  (map shape items ++ retained items locals)%list.

(** How many entries of [l] carry the product id [pid]. *)
Definition count_id (pid : value) (l : list value) : nat :=
  length (List.filter (fun e => same_value_zero (product_id e) pid) l).

(** No two entries of [l] carry the same product id. *)
Fixpoint distinct_ids (l : list value) : bool :=
  match l with
  | [] => true
  | x :: rest =>
      negb (existsb (fun y => same_value_zero (product_id x) (product_id y)) rest)
      && distinct_ids rest
  end.

(** A value compared by what it is, not by which object it is. *)
Definition primitive (v : value) : bool :=
  match v with VArr _ | VObj _ => false | _ => true end.

(** The text [load] parses for the local cart. *)
Definition stored_cart (w : CartWorld) : string :=
  let stored := storage w !! "cart" in
  if truthy_item stored then default "" stored else "[]".

(** The message [load] sets when it falls back to the local cart. *)
Definition advisory : string := "Could not load server cart; showing local cart.".

(** The status a tick observes, when its request succeeds and the answer
    carries one. *)
Definition observed (net : completion Response) : option value :=
  match fetchOrder net with
  | Normal statusResp =>
      if ToBoolean statusResp && ToBoolean (prop statusResp "status")
      then Some (prop statusResp "status")
      else None
  | Throw _ => None
  end.

(** [status === s] for the observed status *)
Definition is_status (s : string) (o : option value) : bool :=
  match o with Some v => strict_eq_str v s | None => false end.

(** A tick that observes PAID or PAYMENT_FAILED. *)
Definition terminal (net : completion Response) : bool :=
  is_status "PAID" (observed net) || is_status "PAYMENT_FAILED" (observed net).

(** What a terminal tick does to the view once the order id is printed. *)
Definition resolve (id : value) (paid : bool) (s : string) (w : CartWorld) : CartWorld :=
  let w1 := setMessage (Some ((if paid then "Payment successful for order "
                               else "Payment failed for order ") ++ s)) w in
  let w2 := setLastOrder (if paid then VNull
                          else VObj [("id", id); ("status", VStr "PAYMENT_FAILED")]) w1 in
  set_pollRef None (clearInterval (pollRef w2) w2).

(** The poll state of a view: no live timer, or the one [pollRef] holds,
    polling an order id that prints. *)
Definition poll_inv (w : CartWorld) : Prop :=
  timers w = ∅
  \/ exists h id, timers w = {[h := id]} /\ pollRef w = Some h
                  /\ is_normal (ToString id) = true
                  /\ (h < next_timer w)%positive.

(** The view after [ids] more status requests and nothing else. *)
Definition log_polls (ids : list value) (w : CartWorld) : CartWorld :=
  mkCart (storage w) (cart w) (loading w) (message w) (lastOrder w)
         (pollRef w) (timers w) (next_timer w) (polled w ++ ids).

(** What [localStorage.getItem("cart") || "[]"] reads when the entry holds
    the text [t]. *)
Definition read_back (t : string) : string := if String.eqb t "" then "[]" else t.

(** The text a click parses for the local cart. *)
Definition stored_cart_p (w : ProductsWorld) : string :=
  let stored := p_storage w !! "cart" in
  if truthy_item stored then default "" stored else "[]".

(** The entry a click pushes for product [p]. *)
Definition entry (p : value) : value :=
  VObj [("product_id", prop p "id"); ("quantity", VNum (num_of_Z 1));
        ("name", prop p "name"); ("price", prop p "price")].

(** A click saves locally when there is no token, or when the request to
    the server cart fails. *)
Definition saves_locally (w : ProductsWorld) (net : completion Response) : Prop :=
  truthy_item (p_storage w !! "token") = false
  \/ is_normal (addToCartServer net) = false.

(** [n] clicks on the button of product [p], one per element of [nets]. *)
Definition clicks (p : value) (nets : list (completion Response)) (w : ProductsWorld)
  : ProductsWorld :=
  foldl (fun w net => snd (add_to_cart p net w)) w nets.

(** A token segment: text without a dot. *)
Definition segment (s : string) : bool :=
  forallb (fun c => negb (Ascii.eqb c ".")) (list_ascii_of_string s).

(** The three-part token [header.payload.signature]. *)
Definition jwt (header body signature : string) : string :=
  header ++ "." ++ body ++ "." ++ signature.

(** Claims an expiry can be read from. *)
Definition expiring (claims : value) : bool :=
  ToBoolean claims && ToBoolean (prop claims "exp").

(** The message [placeOrder] shows for the order whose id prints as [s]. *)
Definition created (s : string) : string :=
  "Bestellung erstellt (#" ++ s ++
  "). Zahlung zur Bearbeitung eingereiht — Status unter 'Meine Bestellungen'.".

(** Text without an apostrophe. *)
Definition apostrophe_free (s : string) : bool :=
  forallb (fun c => negb (Ascii.eqb c "'")) (list_ascii_of_string s).

(** An order in one of the states the view offers a retry for. *)
Definition recoverable (o : value) : bool :=
  MyOrders.includes ["PAYMENT_FAILED"; "PENDING_PAYMENT"; "PENDING"] (prop o "status").

(** [it.product_id || it.productId || it.id] of an item that has properties *)
Definition item_id (it : value) : value :=
  if ToBoolean (prop it "product_id") then prop it "product_id"
  else if ToBoolean (prop it "productId") then prop it "productId"
  else prop it "id".

(** [it.quantity || it.qty || 1] of an item that has properties *)
Definition item_quantity (it : value) : value :=
  if ToBoolean (prop it "quantity") then prop it "quantity"
  else if ToBoolean (prop it "qty") then prop it "qty"
  else VNum (num_of_Z 1).

(** The entry [{ product, quantity }] of an enriched order. *)
Definition line (product quantity : value) : value :=
  VObj [("product", product); ("quantity", quantity)].

(** The product shown when the catalog does not answer. *)
Definition placeholder (pid : value) (s : string) : value :=
  VObj [("id", pid); ("name", VStr ("#" ++ s)); ("price", VNum pos_zero)].

(** The product ids requested from the catalog on the way from [w] to [w']. *)
Definition requests (w w' : MyOrders.World) (new : list value) : Prop :=
  MyOrders.requested w' = (MyOrders.requested w ++ new)%list.

(** What the cache of [w] holds for the product id [pid]. *)
Definition cached (w : MyOrders.World) (pid : value) : value :=
  MyOrders.cache_get (MyOrders.productsCache w) pid.

(** Items the enrichment gets through: a list whose elements have
    properties and an id that prints. *)
Definition enrichable (v : value) : Prop :=
  exists items,
    MyOrders.iterable "items" v = Normal items
    /\ Forall (fun it => nullish it = false /\ is_normal (ToString (item_id it)) = true) items.

(** An order [load] gets through: it has properties, and items as above. *)
Definition loadable (o : value) : Prop :=
  nullish o = false /\ enrichable (MyOrders.parseItems (prop o "items")).

(** The order [o] as the view holds it: its fields, and [parsedItems]. *)
Definition shown (o o' : value) : Prop :=
  exists items,
    o' = VObj (MyOrders.assign "parsedItems" (VArr items) (MyOrders.own_enumerable o)).

End Vocabulary.

(** * Concrete inputs *)

Section Inputs.

(** JSON text, written with an apostrophe for each of its double quotes. *)
Definition dq (s : string) : string := replace_all "'" "034" s.

(** A token whose payload is [{"exp":2000000000}], and two clock readings
    (milliseconds) before and after it expires. *)
Definition token0 : string := "h.eyJleHAiOjIwMDAwMDAwMDB9.s".
Definition claims0 : value := VObj [("exp", VNum (num_of_Z 2000000000))].
Definition before_expiry : number := num_of_Z 1700000000000.
Definition after_expiry : number := num_of_Z 2000000000000.

(** A signed-in page showing the cart, and the same page after something
    else removed the token from storage. *)
Definition signed_in : AppWorld :=
  mkApp {[ "token" := token0 ]} ["/cart"; "/products"] (Some token0).
Definition token_gone : AppWorld :=
  mkApp ∅ ["/cart"; "/products"] (Some token0).

(** Two refusals of a payment with different bodies, and an acceptance. *)
Definition declined : Response := mkResponse 402 (Normal (dq "{'detail':'card declined'}")).
Definition unavailable : Response := mkResponse 402 (Normal "upstream unavailable").
Definition accepted (body : string) : Response := mkResponse 202 (Normal body).

(** The number [n] as a value *)
Definition one (n : Z) : value := VNum (num_of_Z n).

(** The scenario of the specification: the server has product 1 with
    quantity 2; the local cart has product 1 with quantity 5 and product 2
    with quantity 1. *)
Definition local_text : string :=
  (dq "[{'product_id':1,'quantity':5},{'product_id':2,'quantity':1}]").
Definition server_text : string := (dq "{'items':[{'product_id':1,'quantity':2}]}").
Definition local_items : list value :=
  [VObj [("product_id", one 1); ("quantity", one 5)];
   VObj [("product_id", one 2); ("quantity", one 1)]].
Definition server_items : list value := [VObj [("product_id", one 1); ("quantity", one 2)]].
Definition with_token (cart_text : string) : CartWorld :=
  mount {[ "token" := token0; "cart" := cart_text ]}.
Definition answers (body : string) : completion Response :=
  Normal (mkResponse 200 (Normal body)).
Definition merged_scenario : list value :=
  [VObj [("product_id", one 1); ("quantity", one 2);
         ("name", VUndefined); ("price", VUndefined)];
   VObj [("product_id", one 2); ("quantity", one 1)]].

(** A request that fails in the network. *)
Definition offline : completion Response := Throw (TypeError "Failed to fetch").

(** An order is placed from a loaded cart; its status is then polled. *)
Definition order_created : completion Response :=
  answers (dq "{'id':42,'status':'PENDING_PAYMENT'}").
Definition status_is (s : string) : completion Response :=
  answers ((dq "{'id':42,'status':'") ++ s ++ (dq "'}")).
Definition ordered : list event :=
  [EvLoad offline; EvPlaceOrder order_created offline].

(** The cart is loaded again from the server, and a second order placed
    while the first is still polled. *)
Definition second_order : completion Response :=
  answers (dq "{'id':43,'status':'PENDING_PAYMENT'}").
Definition reordered : list event :=
  [EvLoad (answers server_text); EvPlaceOrder second_order offline].

(** Three clicks on one product without a token. *)
Definition tea : value :=
  VObj [("id", one 7); ("name", VStr "Tea"); ("price", VNum (Reference.StringToNumber "3.5"))].
Definition signed_off : ProductsWorld := mkProducts ∅ [].

(** The payload [{"exp":2000000000,"role":"admin"}] of a token. *)
Definition admin_payload : string := "eyJleHAiOjIwMDAwMDAwMDAsInJvbGUiOiJhZG1pbiJ9".

(** A page that mounts over a stored token whose payload, [{}], carries no
    expiry. *)
Definition no_expiry : MountWorld :=
  mkMount (mkApp {[ "token" := "h.e30=.s" ]} ["/cart"] None) VNull None.

(** The login form, and an answer to the login that carries no token. *)
Definition login_form : Login.World := Login.mkLogin ∅ ["/login"] VNull.
Definition no_token : value := VObj [("detail", VStr "Incorrect username or password")].

(** A cart view that shows the local cart of the scenario, signed in and
    signed out, and an answer of the order service that reports a failure. *)
Definition loaded : CartWorld := setCart (VArr local_items) (with_token local_text).
Definition loaded_signed_out : CartWorld :=
  setCart (VArr local_items) (mount {[ "cart" := local_text ]}).
Definition server_error : Response :=
  mkResponse 500 (Normal (dq "{'detail':'Internal Server Error'}")).

(** Order 42 after its payment failed, and a payment that succeeds. *)
Definition failed_order : value := VObj [("id", one 42); ("status", VStr "PAYMENT_FAILED")].
Definition paid : value := VObj [("result", VStr "SUCCESS")].

(** The orders view as it mounts, a catalog that knows product 7 and
    answers the first request only, and the items of an order: two of
    product 7, an item without id, and one more of product 7. *)
Definition orders_view : MyOrders.World := MyOrders.mkOrders ∅ [] [] [].
Definition product7 : value := VObj [("id", one 7); ("name", VStr "Tea")].
Definition catalog0 (n : nat) : completion value :=
  match n with
  | O => Normal product7
  | S _ => Throw (Error "Request failed with status code 404")
  end.
Definition two_of_7 : value := VObj [("product_id", one 7); ("quantity", one 2)].
Definition items0 : value :=
  VArr [two_of_7; VObj [("name", VStr "Tea")]; VObj [("id", one 7)]].
Definition enriched0 : list value :=
  [VObj [("product", product7); ("quantity", one 2)];
   VObj [("product", product7); ("quantity", one 1)]].

(** The answer of the order service with one paid order of two of product
    7, the order as it is received, and as the view holds it. *)
Definition items_text : string := dq "[{'product_id':7,'quantity':2}]".
Definition orders_text : string :=
  dq "[{'id':1,'status':'PAID','items':'[{\'product_id\':7,\'quantity\':2}]'}]".
Definition received_order : value :=
  VObj [("id", one 1); ("status", VStr "PAID"); ("items", VStr items_text)].
Definition displayed_order : value :=
  VObj [("id", one 1); ("status", VStr "PAID"); ("items", VStr items_text);
        ("parsedItems", VArr [VObj [("product", product7); ("quantity", one 2)]])].

(** Two orders on screen: one paid, one whose payment failed. *)
Definition paid_order : value := VObj [("id", one 1); ("status", VStr "PAID")].
Definition unpaid_order : value := VObj [("id", one 2); ("status", VStr "PAYMENT_FAILED")].

End Inputs.

(** * Properties *)

(** Running the monadic plumbing of a completion, and nothing else. *)
Ltac run_bind :=
  cbv beta iota zeta delta [mbind mret completion_bind completion_ret bind try_catch catch_default].
Tactic Notation "run_bind" "in" hyp(H) :=
  cbv beta iota zeta delta [mbind mret completion_bind completion_ret bind try_catch catch_default] in H.

Ltac run_se :=
  cbv beta iota zeta delta
    [mbind mret se_mbind se_mret se_bind se_ret se_gets se_lift se_try se_modify
     se_state se_finally].

(** ** Numbers and values *)

Lemma SFcompare_swap (x y : number) :
  SFcompare y x = CompOpp <$> SFcompare x y.
Proof.
  destruct x as [sx|sx| |sx mx ex], y as [sy|sy| |sy my ey]; simpl;
    try reflexivity;
    try (destruct sx; reflexivity); try (destruct sy; reflexivity);
    try (destruct sx, sy; reflexivity).
  destruct sx, sy; simpl; try reflexivity.
  - rewrite (Z.compare_antisym ex ey).
    destruct (ex ?= ey)%Z; simpl; try reflexivity.
    pose proof (Pos.compare_cont_antisym mx my Eq) as E. simpl in E. rewrite <- E.
    now destruct (Pos.compare_cont Eq mx my).
  - rewrite (Z.compare_antisym ex ey).
    destruct (ex ?= ey)%Z; simpl; try reflexivity.
    pose proof (Pos.compare_cont_antisym mx my Eq) as E. simpl in E. now rewrite <- E.
Qed.

(** [x <= y] excludes [y < x]. *)
Lemma num_le_not_lt (x y : number) : num_le x y = true -> num_lt y x = false.
Proof.
  unfold num_le, num_lt, SFleb, SFltb. rewrite (SFcompare_swap x y).
  destruct (SFcompare x y) as [[]|]; simpl; congruence.
Qed.

Lemma SFeqb_sym (x y : number) : SFeqb x y = SFeqb y x.
Proof.
  unfold SFeqb. rewrite (SFcompare_swap y x).
  now destruct (SFcompare y x) as [[]|].
Qed.

Lemma same_value_zero_sym (x y : value) : same_value_zero x y = same_value_zero y x.
Proof.
  destruct x, y; simpl; try reflexivity.
  - now destruct b, b0.
  - now rewrite SFeqb_sym, andb_comm.
  - apply String.eqb_sym.
Qed.

Lemma get_prop (v : value) (k : string) : nullish v = false -> get v k = Normal (prop v k).
Proof. now destruct v. Qed.

Lemma truthy_not_nullish (v : value) : ToBoolean v = true -> nullish v = false.
Proof. now destruct v. Qed.

(** ** SessionGuard *)

Section SessionGuard.
Context `{Runtime}.

(** [parseJwt] fails soft: it returns, whatever the token. *)
Lemma parseJwt_total (token : option string) : exists claims, parseJwt token = Normal claims.
Proof.
  unfold parseJwt.
  match goal with |- context [try_catch ?c _] => destruct c end; simpl; eauto.
Qed.

Lemma parseJwt_malformed (t : string) : malformed t -> parseJwt (Some t) = Normal VNull.
Proof.
  unfold malformed, parseJwt, payload. intros Hm.
  destruct (Nat.eqb_spec (length (split "." t)) 3) as [E|E]; simpl; [|reflexivity].
  destruct Hm as [Hm|[(e & He)|[(d & e & Hd & He)|(d & s & e & Hd & Hs & He)]]].
  - contradiction.
  - now rewrite He.
  - rewrite Hd. simpl. now rewrite He.
  - rewrite Hd. simpl. rewrite Hs. simpl. now rewrite He.
Qed.

(** With a clock that is not before the epoch, no number that is falsy
    as an [exp] is later than now once multiplied by 1000. *)
Lemma falsy_exp_not_later (now n : number) :
  num_is_zero n || num_is_nan n = true ->
  num_lt now pos_zero = false ->
  num_lt now (num_mul n (num_of_Z 1000)) = false.
Proof.
  intros Hn Hnow. set (k := num_of_Z 1000). vm_compute in k. subst k.
  destruct n as [s|s| |s m e]; try discriminate; cbn.
  - destruct now as [s'|s'| |s' m' e']; cbn in *; auto.
  - now destruct now.
Qed.

(** What [isTokenValid] returns once the token has claims with an [exp]. *)
Lemma isTokenValid_claims (now : number) (token : option string) (claims : value) :
  truthy_item token = true ->
  parseJwt token = Normal claims ->
  ToBoolean claims = true ->
  ToBoolean (prop claims "exp") = true ->
  isTokenValid now token =
    (x ← ToNumber (prop claims "exp"); Normal (num_lt now (num_mul x (num_of_Z 1000)))).
Proof.
  intros Ht Hp Hc He. unfold isTokenValid. rewrite Ht, Hp. simpl. rewrite Hc. simpl.
  rewrite (get_prop _ _ (truthy_not_nullish _ Hc)). simpl. now rewrite He.
Qed.

(** C6: [isTokenValid] returns false for a null or empty token, false for
    a token without claims or whose claims have no (truthy) [exp], false
    when [exp * 1000] is at or before the current time, and true exactly
    when the token has claims with an [exp] and the current time is
    strictly before [exp * 1000]; for a missing or malformed token it
    returns false and does not throw.  For claims with a numeric [exp] and
    a clock that is not before the epoch it returns the comparison
    [now < exp * 1000] itself. *)
Theorem isTokenValid_spec (now : number) (token : option string) :
  (truthy_item token = false -> isTokenValid now token = Normal false)
  /\ (forall t, token = Some t -> malformed t -> isTokenValid now token = Normal false)
  /\ (forall claims, parseJwt token = Normal claims ->
        ToBoolean claims = false \/ ToBoolean (prop claims "exp") = false ->
        isTokenValid now token = Normal false)
  /\ (forall claims x, parseJwt token = Normal claims ->
        ToNumber (prop claims "exp") = Normal x ->
        num_le (num_mul x (num_of_Z 1000)) now = true ->
        isTokenValid now token = Normal false)
  /\ (isTokenValid now token = Normal true <->
      exists claims x,
        truthy_item token = true /\ parseJwt token = Normal claims
        /\ ToBoolean claims = true /\ ToBoolean (prop claims "exp") = true
        /\ ToNumber (prop claims "exp") = Normal x
        /\ num_lt now (num_mul x (num_of_Z 1000)) = true)
  /\ (forall claims n, truthy_item token = true -> parseJwt token = Normal claims ->
        ToBoolean claims = true -> prop claims "exp" = VNum n ->
        num_lt now pos_zero = false ->
        isTokenValid now token = Normal (num_lt now (num_mul n (num_of_Z 1000)))).
Proof.
  assert (Hno : forall claims, parseJwt token = Normal claims ->
            ToBoolean claims = false \/ ToBoolean (prop claims "exp") = false ->
            isTokenValid now token = Normal false).
  { intros claims Hp Hc. unfold isTokenValid.
    destruct (truthy_item token); simpl; [|reflexivity].
    rewrite Hp. simpl.
    destruct (ToBoolean claims) eqn:Ec; simpl; [|reflexivity].
    rewrite (get_prop _ _ (truthy_not_nullish _ Ec)). simpl.
    destruct Hc as [Hc|Hc]; [discriminate|]. now rewrite Hc. }
  split; [|split; [|split; [|split; [|split]]]].
  - intros Ht. unfold isTokenValid. now rewrite Ht.
  - intros t -> Hm. apply (Hno VNull); [now apply parseJwt_malformed | now left].
  - exact Hno.
  - intros claims x Hp Hx Hle.
    destruct (truthy_item token) eqn:Et; [|unfold isTokenValid; now rewrite Et].
    destruct (ToBoolean claims) eqn:Ec; [|apply (Hno claims); auto].
    destruct (ToBoolean (prop claims "exp")) eqn:Ee; [|apply (Hno claims); auto].
    rewrite (isTokenValid_claims now token claims Et Hp Ec Ee), Hx. run_bind.
    now rewrite (num_le_not_lt _ _ Hle).
  - split.
    + intros Hv.
      destruct (truthy_item token) eqn:Et;
        [|unfold isTokenValid in Hv; rewrite Et in Hv; discriminate].
      destruct (parseJwt_total token) as [claims Hp].
      destruct (ToBoolean claims) eqn:Ec;
        [|rewrite (Hno claims Hp (or_introl Ec)) in Hv; discriminate].
      destruct (ToBoolean (prop claims "exp")) eqn:Ee;
        [|rewrite (Hno claims Hp (or_intror Ee)) in Hv; discriminate].
      rewrite (isTokenValid_claims now token claims Et Hp Ec Ee) in Hv.
      destruct (ToNumber (prop claims "exp")) as [x|e] eqn:Ex; run_bind in Hv; [|discriminate].
      exists claims, x. repeat split; auto. congruence.
    + intros (claims & x & Et & Hp & Ec & Ee & Ex & Hlt).
      rewrite (isTokenValid_claims now token claims Et Hp Ec Ee), Ex. run_bind.
      now rewrite Hlt.
  - intros claims n Et Hp Ec He Hnow.
    destruct (ToBoolean (VNum n)) eqn:Eb.
    + rewrite (isTokenValid_claims now token claims Et Hp Ec) by now rewrite He.
      now rewrite He.
    + rewrite (Hno claims Hp) by (right; now rewrite He).
      symmetry. f_equal. apply falsy_exp_not_later; [|exact Hnow].
      cbn in Eb. now apply negb_false_iff in Eb.
Qed.

End SessionGuard.

Section Liveness.
Context `{Runtime}.

Lemma logout_signed_out (w : AppWorld) : signed_out (logout w).
Proof.
  unfold signed_out, logout, getToken, clearAuth. simpl.
  split; [apply lookup_delete_eq | split; reflexivity].
Qed.

(** Sign-out replaces the current history entry and pushes none. *)
Lemma logout_history (w : AppWorld) :
  tail (app_history (logout w)) = tail (app_history w).
Proof. reflexivity. Qed.

(** Sign-out is idempotent. *)
Lemma logout_idempotent (w : AppWorld) : logout (logout w) = logout w.
Proof.
  unfold logout, clearAuth, replace_entry. simpl. f_equal.
  apply delete_id. apply lookup_delete_eq.
Qed.

(** C5, as the code has it: a tick forces sign-out when storage holds a
    token that [isTokenValid] rejects, leaves everything as it is when the
    token is valid, and does nothing at all when storage holds no token
    (or an empty one) at tick time. *)
Theorem liveness_tick_spec (now : number) (w : AppWorld) :
  (forall t, getToken (app_storage w) = Some t -> t <> "" ->
     isTokenValid now (Some t) = Normal false ->
     liveness_tick now w = Normal (logout w) /\ signed_out (logout w))
  /\ (forall t, getToken (app_storage w) = Some t ->
        isTokenValid now (Some t) = Normal true ->
        liveness_tick now w = Normal w)
  /\ (truthy_item (getToken (app_storage w)) = false ->
      liveness_tick now w = Normal w).
Proof.
  unfold liveness_tick. split; [|split].
  - intros t Ht Hne Hv. rewrite Ht. simpl.
    destruct (String.eqb_spec t ""); [contradiction|]. simpl.
    rewrite Hv. split; [reflexivity | apply logout_signed_out].
  - intros t Ht Hv. rewrite Ht.
    destruct (truthy_item (Some t)); simpl; [|reflexivity].
    now rewrite Hv.
  - intros Ht. now rewrite Ht.
Qed.

End Liveness.

(** ** PaymentRetryController *)

Section Payment.
Context `{Runtime}.

Lemma prefix_append (a b : string) : String.prefix a (a ++ b) = true.
Proof.
  induction a as [|c a IH]; simpl; [now destruct b|].
  destruct (Ascii.ascii_dec c c); [exact IH | contradiction].
Qed.

Lemma substring_all (b : string) : String.substring 0 (String.length b) b = b.
Proof. induction b as [|c b IH]; simpl; [reflexivity | now rewrite IH]. Qed.

Lemma substring_append (a b : string) :
  String.substring (String.length a) (String.length (a ++ b) - String.length a) (a ++ b) = b.
Proof.
  induction a as [|c a IH]; simpl.
  - rewrite Nat.sub_0_r. apply substring_all.
  - exact IH.
Qed.

Lemma strip_prefix_append (a b : string) : strip_prefix a (a ++ b) = Some b.
Proof. unfold strip_prefix. now rewrite prefix_append, substring_append. Qed.

Lemma status_text_inv (n : N) :
  status_of_error (Error ("Payment request failed: " ++ status_text n)) = Some n.
Proof.
  unfold status_of_error, Error. cbn [exn_message].
  rewrite strip_prefix_append. unfold status_text. cbn [mbind option_bind].
  rewrite NilEmpty.usu. cbn [fmap option_fmap option_map]. now rewrite DecimalN.Unsigned.of_to.
Qed.

Lemma createPayment_cases (r : Response) :
  createPayment (Normal r) =
    if (status r =? 200)%N then Normal (parsed_body r)
    else if (status r =? 202)%N
         then Normal (if ToBoolean (parsed_body r) then parsed_body r else pending)
         else Throw (Error ("Payment request failed: " ++ status_text (status r))).
Proof.
  unfold createPayment, parsed_body, raw, pending. run_bind.
  destruct (status r =? 200)%N; [reflexivity|].
  destruct (status r =? 202)%N; reflexivity.
Qed.

(** C3, as the code has it: a response with status 202 never makes
    [createPayment] raise; a response with any status other than 200 and
    202 always does, and the error raised is [Error("Payment request
    failed: <status>")], from which the status code is recovered and which
    is the same whatever the body text was. *)
Theorem createPayment_status (r : Response) :
  (status r = 202%N -> exists v, createPayment (Normal r) = Normal v)
  /\ (status r <> 200%N -> status r <> 202%N ->
      let e := Error ("Payment request failed: " ++ status_text (status r)) in
      createPayment (Normal r) = Throw e
      /\ status_of_error e = Some (status r)
      /\ forall body, createPayment (Normal (mkResponse (status r) body)) = Throw e).
Proof.
  split.
  - intros E. rewrite createPayment_cases, E. simpl. eauto.
  - intros H200 H202 e. subst e.
    assert (Hc : forall body, createPayment (Normal (mkResponse (status r) body)) =
              Throw (Error ("Payment request failed: " ++ status_text (status r)))).
    { intros body. rewrite createPayment_cases. cbn [status].
      destruct (N.eqb_spec (status r) 200); [contradiction|].
      destruct (N.eqb_spec (status r) 202); [contradiction|]. reflexivity. }
    split; [|split].
    + destruct r as [st body]. apply (Hc body).
    + apply status_text_inv.
    + exact Hc.
Qed.

(** C4, as the code has it: with status 202, [createPayment] returns the
    parsed body when the body text is not empty and parses into a truthy
    value, the object [{ raw: text }] when the text is not empty and does
    not parse, and [{ result: 'PENDING' }] when the body is empty or
    unreadable or parses into a falsy value (null, false, 0 or the empty
    string); with status 200 it returns the parsed body, [{ raw: text }]
    for text that does not parse, and null for an empty body.  A body that
    does not parse never makes the call fail on that account. *)
Theorem createPayment_body (st : N) (body : completion string) :
  let r := mkResponse st body in
  let bodyText := catch_default body "" in
  (forall v, bodyText <> "" -> JSON_parse bodyText = Normal v ->
     (st = 202%N -> ToBoolean v = true -> createPayment (Normal r) = Normal v)
     /\ (st = 202%N -> ToBoolean v = false -> createPayment (Normal r) = Normal pending)
     /\ (st = 200%N -> createPayment (Normal r) = Normal v))
  /\ (forall e, bodyText <> "" -> JSON_parse bodyText = Throw e ->
        st = 200%N \/ st = 202%N -> createPayment (Normal r) = Normal (raw bodyText))
  /\ (bodyText = "" ->
        (st = 202%N -> createPayment (Normal r) = Normal pending)
        /\ (st = 200%N -> createPayment (Normal r) = Normal VNull)).
Proof.
  intros r bodyText.
  assert (Hp : forall v, bodyText <> "" -> catch_default (JSON_parse bodyText) (raw bodyText) = v ->
            parsed_body r = v).
  { intros v Hne Hv. unfold parsed_body. cbn [text r]. fold bodyText.
    destruct (String.eqb_spec bodyText ""); [contradiction|]. exact Hv. }
  split; [|split].
  - intros v Hne Hv. rewrite createPayment_cases. cbn [status r].
    rewrite (Hp v Hne) by now rewrite Hv.
    split; [|split]; intros ->; simpl; try reflexivity; now intros ->.
  - intros e Hne He Hst. rewrite createPayment_cases. cbn [status r].
    rewrite (Hp (raw bodyText) Hne) by now rewrite He.
    destruct Hst as [-> | ->]; reflexivity.
  - intros He. rewrite createPayment_cases. cbn [status r].
    assert (Hn : parsed_body r = VNull).
    { unfold parsed_body. cbn [text r]. fold bodyText. now rewrite He. }
    rewrite Hn. split; intros ->; reflexivity.
Qed.

End Payment.

(** ** CartReconciler *)

Section Reconcile.
Context `{Runtime}.

Lemma SFeqb_refl (n : number) : num_is_nan n = false -> SFeqb n n = true.
Proof.
  unfold SFeqb. destruct n as [s|s| |s m e]; simpl; try easy.
  - now destruct s.
  - intros _. rewrite Z.compare_refl, Pos.compare_cont_refl. now destruct s.
Qed.

Lemma same_value_zero_refl (v : value) : primitive v = true -> same_value_zero v v = true.
Proof.
  destruct v; simpl; try easy.
  - now destruct b.
  - intros _. destruct (num_is_nan n) eqn:E; [reflexivity|]. now rewrite SFeqb_refl.
  - intros _. apply String.eqb_refl.
Qed.

Lemma to_local_shape_shape (it : value) : nullish it = false -> to_local_shape it = Normal (shape it).
Proof. intros Hn. unfold to_local_shape. rewrite !(get_prop _ _ Hn). reflexivity. Qed.

Lemma mapM_shape (items : list value) :
  Forall (fun it => nullish it = false) items ->
  mapM to_local_shape items = Normal (map shape items).
Proof.
  induction 1 as [|it items Hit _ IH]; [reflexivity|].
  simpl. now rewrite (to_local_shape_shape _ Hit), IH.
Qed.

Lemma product_id_shape (it : value) : product_id (shape it) = product_id it.
Proof. reflexivity. Qed.

Lemma map_product_id_shape (items : list value) :
  map (fun i => prop i "product_id") (map shape items) = map product_id items.
Proof. rewrite map_map. reflexivity. Qed.

Lemma push_absent_spec (ids merged locals : list value) :
  Forall (fun li => nullish li = false) locals ->
  push_absent ids merged locals =
    Normal (merged ++ List.filter (fun li => negb (set_has ids (product_id li))) locals)%list.
Proof.
  intros Hl. revert merged.
  induction Hl as [|li locals Hli _ IH]; intros merged; simpl.
  - now rewrite app_nil_r.
  - rewrite (get_prop _ _ Hli). run_bind. rewrite IH. fold (product_id li).
    destruct (set_has ids (product_id li)); simpl; [reflexivity|].
    now rewrite <- app_assoc.
Qed.

(** The merge, on items and local entries that have properties to read. *)
Lemma merge_spec (items locals : list value) :
  Forall (fun it => nullish it = false) items ->
  Forall (fun li => nullish li = false) locals ->
  merge items (VArr locals) = Normal (merged_cart items locals).
Proof.
  intros Hi Hl. unfold merge. rewrite (mapM_shape _ Hi). run_bind.
  cbn [iterate]. rewrite map_product_id_shape. apply (push_absent_spec _ _ _ Hl).
Qed.

(** [load], case by case. *)
Lemma load_unfold (net : completion Response) (w : CartWorld) :
  load net w =
    match JSON_parse (stored_cart w) with
    | Throw e => (Throw e, w)
    | Normal local =>
        if truthy_item (storage w !! "token") then
          match fetchCartServer net with
          | Throw e => (Normal tt, setCart local (setMessage (Some advisory) w))
          | Normal server =>
              if ToBoolean server && isArray (prop server "items") then
                match merge (array_elements (prop server "items")) local with
                | Normal merged => (Normal tt, setCart (VArr merged) w)
                | Throw e => (Normal tt, setCart local (setMessage (Some advisory) w))
                end
              else (Normal tt, setCart local w)
          end
        else (Normal tt, setCart local w)
    end.
Proof.
  unfold load, stored_cart, advisory.
  cbv beta iota zeta delta [mbind mret se_mbind se_mret se_bind se_ret se_gets se_lift se_try se_modify].
  destruct (JSON_parse _) as [local|e]; [|reflexivity].
  destruct (truthy_item (storage w !! "token")); [|reflexivity].
  destruct (fetchCartServer net) as [server|e]; [|reflexivity].
  destruct (ToBoolean server && isArray (prop server "items")); [|reflexivity].
  destruct (merge _ local); reflexivity.
Qed.

Lemma load_merged (net : completion Response) (w : CartWorld)
      (server : value) (items locals : list value) :
  truthy_item (storage w !! "token") = true ->
  JSON_parse (stored_cart w) = Normal (VArr locals) ->
  fetchCartServer net = Normal server ->
  ToBoolean server = true ->
  prop server "items" = VArr items ->
  Forall (fun it => nullish it = false) items ->
  Forall (fun li => nullish li = false) locals ->
  load net w = (Normal tt, setCart (VArr (merged_cart items locals)) w).
Proof.
  intros Ht Hp Hs Hb Hi Hni Hnl.
  rewrite load_unfold, Hp, Ht, Hs, Hb, Hi. cbn [isArray andb array_elements].
  now rewrite (merge_spec _ _ Hni Hnl).
Qed.

Lemma count_id_app (pid : value) (a b : list value) :
  count_id pid (a ++ b)%list = (count_id pid a + count_id pid b)%nat.
Proof. unfold count_id. now rewrite List.filter_app, length_app. Qed.

Lemma count_id_shape (pid : value) (items : list value) :
  count_id pid (map shape items) = count_id pid items.
Proof.
  unfold count_id. induction items as [|it items IH]; [reflexivity|]. cbn [map List.filter].
  rewrite product_id_shape. destruct (same_value_zero _ _); simpl; now rewrite IH.
Qed.

Lemma set_has_false (ids : list value) (x y : value) :
  set_has ids x = false -> In y ids -> same_value_zero x y = false.
Proof.
  unfold set_has. intros Hs Hy.
  destruct (same_value_zero x y) eqn:E; [|reflexivity].
  rewrite <- Hs. symmetry. apply existsb_exists. eauto.
Qed.

Lemma retained_absent (items locals : list value) (li : value) :
  In li (retained items locals) -> set_has (map product_id items) (product_id li) = false.
Proof.
  unfold retained. rewrite List.filter_In. intros [_ Hf].
  now destruct (set_has _ _).
Qed.

(** No retained local entry carries the id of a server item. *)
Lemma count_id_retained (items locals : list value) (it : value) :
  In it items -> count_id (product_id it) (retained items locals) = 0%nat.
Proof.
  intros Hin. unfold count_id.
  assert (Hall : forall li, In li (retained items locals) ->
            same_value_zero (product_id li) (product_id it) = false).
  { intros li Hli. apply (set_has_false (map product_id items)).
    - now apply retained_absent with locals.
    - now apply in_map. }
  induction (retained items locals) as [|li l IH]; [reflexivity|]. cbn [List.filter].
  rewrite (Hall li) by now left. apply IH. intros li' Hli'. apply Hall. now right.
Qed.

Lemma count_id_distinct (items : list value) (it : value) :
  distinct_ids items = true -> In it items -> primitive (product_id it) = true ->
  count_id (product_id it) items = 1%nat.
Proof.
  unfold count_id. induction items as [|x items IH]; [easy|].
  cbn [distinct_ids]. rewrite andb_true_iff, negb_true_iff.
  intros [Hx Hd] Hin Hprim. cbn [List.filter].
  assert (Hnone : forall y, In y items -> same_value_zero (product_id x) (product_id y) = false).
  { intros y Hy. destruct (same_value_zero _ _) eqn:E; [|reflexivity].
    rewrite <- Hx. symmetry. apply existsb_exists. eauto. }
  destruct Hin as [->|Hin].
  - rewrite same_value_zero_refl by assumption. cbn [length]. f_equal.
    clear IH Hx Hd. induction items as [|y items IH]; [reflexivity|]. cbn [List.filter].
    rewrite same_value_zero_sym, (Hnone y) by now left.
    apply IH. intros y' Hy'. apply Hnone. now right.
  - rewrite (Hnone it Hin). now apply IH.
Qed.

End Reconcile.

Section ReconcileClaims.
Context `{Runtime}.

(** C1, as the code has it: when the token is present and the server cart
    arrives, the cart [load] sets is one reshaped entry per server item,
    carrying that item's product id, quantity, name and price, in the
    server's order, followed by exactly the local entries whose product id
    is the id of no server item, in their order.  A product id the server
    list carries once (a primitive value, as JSON ids are) therefore has
    exactly one entry in the result. *)
Theorem load_merge_order (net : completion Response) (w : CartWorld)
        (server : value) (items locals : list value) :
  truthy_item (storage w !! "token") = true ->
  JSON_parse (stored_cart w) = Normal (VArr locals) ->
  fetchCartServer net = Normal server ->
  ToBoolean server = true ->
  prop server "items" = VArr items ->
  Forall (fun it => nullish it = false) items ->
  Forall (fun li => nullish li = false) locals ->
  load net w =
    (Normal tt,
     setCart (VArr (map shape items ++
                    List.filter (fun li => negb (set_has (map product_id items) (product_id li)))
                                locals)%list) w)
  /\ (forall it, In it items ->
        prop (shape it) "quantity" = prop it "quantity"
        /\ prop (shape it) "price" = prop it "price"
        /\ prop (shape it) "name" = prop it "name"
        /\ prop (shape it) "product_id" = prop it "product_id")
  /\ (distinct_ids items = true ->
      forall it, In it items -> primitive (product_id it) = true ->
        count_id (product_id it) (merged_cart items locals) = 1%nat).
Proof.
  intros Ht Hp Hs Hb Hi Hni Hnl. split; [|split].
  - exact (load_merged net w server items locals Ht Hp Hs Hb Hi Hni Hnl).
  - intros it _. repeat split.
  - intros Hd it Hin Hprim. unfold merged_cart.
    rewrite count_id_app, count_id_shape, (count_id_distinct _ _ Hd Hin Hprim).
    now rewrite (count_id_retained items locals it Hin).
Qed.






(** How the request for the server cart fails: the network, a status that
    is not 2xx, or a body that is not JSON. *)
Lemma fetchCartServer_fails (net : completion Response) :
  (forall e, net = Throw e -> fetchCartServer net = Throw e)
  /\ (forall r, net = Normal r -> ok r = false ->
        fetchCartServer net = Throw (Error ("fetchCartServer failed: " ++ status_text (status r))))
  /\ (forall r e, net = Normal r -> ok r = true -> json r = Throw e ->
        fetchCartServer net = Throw e).
Proof.
  unfold fetchCartServer, cart_request. split; [|split].
  - now intros e ->.
  - intros r -> Hok. run_bind. now rewrite Hok.
  - intros r e -> Hok Hj. run_bind. now rewrite Hok, Hj.
Qed.

(** C7, as the code has it: whenever the stored cart is absent, empty or
    text that parses as JSON, [load] returns without throwing, whatever
    the server answers; and when the request for the server cart fails it
    shows the local cart only and sets the advisory message. *)
Theorem load_never_throws (net : completion Response) (w : CartWorld) (local : value) :
  JSON_parse (stored_cart w) = Normal local ->
  (exists w', load net w = (Normal tt, w'))
  /\ (forall e, truthy_item (storage w !! "token") = true ->
        fetchCartServer net = Throw e ->
        load net w = (Normal tt, setCart local (setMessage (Some advisory) w))).
Proof.
  intros Hp. split.
  - rewrite load_unfold, Hp.
    destruct (truthy_item _); [|eauto].
    destruct (fetchCartServer net) as [server|e]; [|eauto].
    destruct (ToBoolean server && isArray (prop server "items")); [|eauto].
    destruct (merge _ local); eauto.
  - intros e Ht He. now rewrite load_unfold, Hp, Ht, He.
Qed.

End ReconcileClaims.

(** ** OrderLifecycleTracker *)

Section Polling.
Context `{Runtime}.

Lemma resolve_poll (id : value) (paid : bool) (s : string) (w : CartWorld) :
  timers (resolve id paid s w) = timers (clearInterval (pollRef w) w)
  /\ pollRef (resolve id paid s w) = None
  /\ polled (resolve id paid s w) = polled w.
Proof. unfold resolve. cbn. destruct (pollRef w); cbn; auto. Qed.

(** One tick, case by case. *)
Lemma poll_tick_unfold (id : value) (net : completion Response) (w : CartWorld) :
  poll_tick id net w =
    (Normal tt,
     if terminal net then
       match ToString id with
       | Normal s => resolve id (is_status "PAID" (observed net)) s (log_poll id w)
       | Throw _ => log_poll id w
       end
     else log_poll id w).
Proof.
  unfold poll_tick, terminal, observed, resolve. run_se.
  destruct (fetchOrder net) as [resp|e]; [|reflexivity].
  destruct (ToBoolean resp) eqn:Er; cbn [negb orb andb]; [|reflexivity].
  destruct (ToBoolean (prop resp "status")) eqn:Es; cbn [negb is_status orb]; [|reflexivity].
  destruct (strict_eq_str (prop resp "status") "PAID") eqn:Ep; cbn [orb].
  - destruct (ToString id); reflexivity.
  - destruct (strict_eq_str (prop resp "status") "PAYMENT_FAILED") eqn:Ef; [|reflexivity].
    destruct (ToString id); reflexivity.
Qed.

(** A failed request, an answer without a status and a status other than
    PAID and PAYMENT_FAILED are not terminal. *)
Lemma not_terminal (net : completion Response) :
  (forall e, fetchOrder net = Throw e -> terminal net = false)
  /\ (forall resp, fetchOrder net = Normal resp ->
        ToBoolean resp = false \/ ToBoolean (prop resp "status") = false ->
        terminal net = false)
  /\ (forall resp s, fetchOrder net = Normal resp -> prop resp "status" = VStr s ->
        s <> "PAID" -> s <> "PAYMENT_FAILED" -> terminal net = false).
Proof.
  unfold terminal, observed. split; [|split].
  - now intros e ->.
  - intros resp -> [-> | E]; [reflexivity|]. rewrite E. now rewrite andb_false_r.
  - intros resp s -> Hs Hp Hf. rewrite Hs.
    destruct (ToBoolean resp && ToBoolean (VStr s)); [|reflexivity]. simpl.
    destruct (String.eqb_spec s "PAID"); [contradiction|].
    destruct (String.eqb_spec s "PAYMENT_FAILED"); [contradiction|]. reflexivity.
Qed.

Lemma is_terminal (net : completion Response) (resp : value) (s : string) :
  fetchOrder net = Normal resp -> ToBoolean resp = true -> prop resp "status" = VStr s ->
  s = "PAID" \/ s = "PAYMENT_FAILED" -> terminal net = true.
Proof.
  unfold terminal, observed. intros -> -> -> [-> | ->]; reflexivity.
Qed.

Lemma clear_pollRef (w : CartWorld) : poll_inv w -> timers (clearInterval (pollRef w) w) = ∅.
Proof.
  intros [E | (h & id & E & Hr & _ & _)].
  - destruct (pollRef w); simpl; [|exact E]. rewrite E. apply delete_empty.
  - rewrite Hr. simpl. rewrite E. apply delete_singleton_eq.
Qed.

(** What [placeOrder] does to the poll state: nothing, or one new timer in
    place of the one [pollRef] held. *)
Lemma placeOrder_poll (orderNet clearNet : completion Response) (w : CartWorld) :
  let w' := snd (placeOrder orderNet clearNet w) in
  (timers w' = timers w /\ pollRef w' = pollRef w /\ next_timer w' = next_timer w)
  \/ exists id,
       is_normal (ToString id) = true
       /\ pollRef w' = Some (next_timer w)
       /\ timers w' = <[next_timer w := id]> (timers (clearInterval (pollRef w) w))
       /\ next_timer w' = Pos.succ (next_timer w).
Proof.
  unfold placeOrder, start_poll, setInterval. run_se.
  destruct (length_is_zero (cart w)) as [[|]|e]; cbn [snd]; [now left| |now left].
  destruct (createOrder orderNet) as [order|e]; cbn [snd]; [|now left].
  destruct (get order "id") as [id|e] eqn:Eid; cbn [snd]; [|now left].
  destruct (get order "status") as [st|e]; cbn [snd]; [|now left].
  destruct (ToString id) as [s|e] eqn:Es; cbn [snd]; [|now left].
  right. exists id. rewrite Es. split; [reflexivity|].
  destruct (truthy_item _); [destruct (clearCartServer clearNet)|];
    destruct (pollRef w) eqn:Er; cbn; rewrite ?Er; cbn; auto.
Qed.

(** An order that is created starts its poll on a new handle, in place of
    the handle [pollRef] held. *)
Lemma placeOrder_starts_poll (orderNet clearNet : completion Response) (w : CartWorld)
      (order : value) (s : string) :
  length_is_zero (cart w) = Normal false ->
  createOrder orderNet = Normal order ->
  nullish order = false ->
  ToString (prop order "id") = Normal s ->
  pollRef (snd (placeOrder orderNet clearNet w)) = Some (next_timer w)
  /\ timers (snd (placeOrder orderNet clearNet w))
     = <[next_timer w := prop order "id"]> (timers (clearInterval (pollRef w) w)).
Proof.
  intros Hc Ho Hn Hs. unfold placeOrder, start_poll, setInterval. run_se.
  rewrite Hc, Ho, !(get_prop _ _ Hn), Hs.
  cbn [storage set_storage setCart setMessage setLastOrder setLoading].
  destruct (truthy_item _); [destruct (clearCartServer clearNet)|];
    destruct (pollRef w) eqn:Er; cbn; rewrite ?Er; cbn; auto.
Qed.

Lemma load_poll (net : completion Response) (w : CartWorld) :
  timers (snd (load net w)) = timers w /\ pollRef (snd (load net w)) = pollRef w
  /\ next_timer (snd (load net w)) = next_timer w.
Proof.
  rewrite load_unfold.
  repeat match goal with |- context [match ?x with _ => _ end] => destruct x end; auto.
Qed.

Lemma step_poll_inv (w : CartWorld) (ev : event) : poll_inv w -> poll_inv (step w ev).
Proof.
  intros Hinv. destruct ev as [net|orderNet clearNet|h net|]; cbn [step].
  - destruct (load_poll net w) as (Et & Er & En). unfold poll_inv. rewrite Et, Er, En. exact Hinv.
  - destruct (placeOrder_poll orderNet clearNet w) as [(Et & Er & En)|(id & Hid & Er & Et & En)].
    + unfold poll_inv. rewrite Et, Er, En. exact Hinv.
    + right. exists (next_timer w), id. rewrite Et, En, (clear_pollRef w Hinv).
      split; [apply insert_empty | repeat split; auto; lia].
  - destruct (timers w !! h) as [id|]; [|exact Hinv].
    rewrite poll_tick_unfold. cbn [snd].
    assert (Hlog : poll_inv (log_poll id w)) by exact Hinv.
    destruct (terminal net); [|exact Hlog].
    destruct (ToString id) as [s|e]; [|exact Hlog].
    left. rewrite (proj1 (resolve_poll _ _ _ _)). exact (clear_pollRef (log_poll id w) Hlog).
  - unfold unmount. destruct (pollRef w) eqn:Er; [|exact Hinv].
    left. rewrite <- Er. exact (clear_pollRef w Hinv).
Qed.

Lemma run_poll_inv (w : CartWorld) (evs : list event) : poll_inv w -> poll_inv (run w evs).
Proof.
  revert w. induction evs as [|ev evs IH]; intros w Hinv; [exact Hinv|].
  apply IH. now apply step_poll_inv.
Qed.

Lemma mount_poll_inv (ls : gmap string string) : poll_inv (mount ls).
Proof. now left. Qed.

End Polling.

Section PollingClaims.
Context `{Runtime}.

Lemma log_polls_nil (w : CartWorld) : log_polls [] w = w.
Proof. destruct w. unfold log_polls. cbn. now rewrite app_nil_r. Qed.

Lemma log_polls_cons (id : value) (ids : list value) (w : CartWorld) :
  log_polls ids (log_poll id w) = log_polls (id :: ids) w.
Proof. unfold log_polls, log_poll. cbn. now rewrite <- app_assoc. Qed.

Lemma run_cons (w : CartWorld) (ev : event) (evs : list event) :
  run w (ev :: evs) = run (step w ev) evs.
Proof. reflexivity. Qed.

Lemma run_app (w : CartWorld) (evs evs' : list event) :
  run w (evs ++ evs') = run (run w evs) evs'.
Proof. apply foldl_app. Qed.

Lemma step_tick (h : positive) (id : value) (net : completion Response) (w : CartWorld) :
  timers w !! h = Some id -> step w (EvTick h net) = snd (poll_tick id net w).
Proof. intros Hh. cbn [step]. now rewrite Hh. Qed.

(** Ticks that observe no terminal status only add their requests. *)
Lemma run_idle_ticks (h : positive) (id : value) (nets : list (completion Response))
      (w : CartWorld) :
  timers w !! h = Some id ->
  Forall (fun net => terminal net = false) nets ->
  run w (map (EvTick h) nets) = log_polls (replicate (length nets) id) w.
Proof.
  intros Hh Hn. revert w Hh.
  induction Hn as [|net nets Hnet _ IH]; intros w Hh.
  - cbn. now rewrite log_polls_nil.
  - cbn [map length replicate]. rewrite run_cons, (step_tick h id net w Hh).
    rewrite poll_tick_unfold, Hnet. cbn [snd].
    rewrite IH by exact Hh. apply log_polls_cons.
Qed.

(** A timer that is not live does not fire. *)
Lemma run_dead_ticks (h : positive) (nets : list (completion Response)) (w : CartWorld) :
  timers w !! h = None -> run w (map (EvTick h) nets) = w.
Proof.
  intros Hh. induction nets as [|net nets IH]; [reflexivity|].
  cbn [map]. rewrite run_cons. cbn [step]. rewrite Hh. exact IH.
Qed.

(** C8: in a mounted view with a live poll for order [id], ticks that
    observe no terminal status (a failed request, an answer without a
    status, PENDING_PAYMENT, PENDING or any other status) each request the
    status once and change nothing else, the poll staying live; the first
    tick that observes PAID or PAYMENT_FAILED is the last request: it
    cancels the timer, and no later tick fires. *)
Theorem poll_stops_at_first_terminal (ls : gmap string string) (evs : list event)
        (h : positive) (id : value) :
  let w := run (mount ls) evs in
  timers w !! h = Some id ->
  (forall nets, Forall (fun net => terminal net = false) nets ->
     let w' := run w (map (EvTick h) nets) in
     w' = log_polls (replicate (length nets) id) w
     /\ timers w' !! h = Some id)
  /\ (forall before net after,
        Forall (fun net => terminal net = false) before -> terminal net = true ->
        let w' := run w (map (EvTick h) (before ++ net :: after)) in
        polled w' = (polled w ++ replicate (S (length before)) id)%list
        /\ timers w' = ∅ /\ pollRef w' = None)
  /\ (forall st resp net, fetchOrder net = Normal resp -> ToBoolean resp = true ->
        prop resp "status" = VStr st ->
        (st = "PAID" \/ st = "PAYMENT_FAILED" -> terminal net = true)
        /\ (st = "PENDING_PAYMENT" \/ st = "PENDING" -> terminal net = false)).
Proof.
  intros w Hh. split; [|split].
  - intros nets Hn w'. subst w'. rewrite (run_idle_ticks h id nets w Hh Hn). split; [reflexivity|].
    exact Hh.
  - intros before net after Hb Ht w'. subst w'.
    assert (Hinv : poll_inv w) by (apply run_poll_inv, mount_poll_inv).
    destruct Hinv as [E | (h' & id' & E & Hr & Hs & _)];
      [rewrite E, lookup_empty in Hh; discriminate|].
    rewrite E in Hh. apply lookup_singleton_Some in Hh. destruct Hh as [-> ->].
    assert (Hlive : timers w !! h = Some id) by (rewrite E; apply lookup_singleton_eq).
    rewrite map_app, run_app, (run_idle_ticks h id before w Hlive Hb).
    set (w1 := log_polls (replicate (length before) id) w).
    assert (Hlive1 : timers w1 !! h = Some id) by exact Hlive.
    cbn [map]. rewrite run_cons, (step_tick h id net w1 Hlive1), poll_tick_unfold, Ht.
    cbn [snd].
    destruct (ToString id) as [s|e]; [|discriminate].
    set (w2 := resolve id _ s (log_poll id w1)).
    destruct (resolve_poll id (is_status "PAID" (observed net)) s (log_poll id w1))
      as (Et & Er & Ep).
    assert (Hempty : timers w2 = ∅).
    { subst w2. rewrite Et. cbn. change (pollRef w1) with (pollRef w). rewrite Hr. cbn.
      change (timers w1) with (timers w). rewrite E. apply delete_singleton_eq. }
    rewrite run_dead_ticks by (rewrite Hempty; apply lookup_empty).
    split; [|split]; [|exact Hempty|exact Er].
    subst w2. rewrite Ep. cbn. rewrite <- app_assoc. f_equal.
    change ((replicate (length before) id ++ [id])%list = replicate (S (length before)) id).
    now rewrite <- replicate_S_end.
  - intros st resp net Hf Hr Hs. split.
    + now apply (is_terminal net resp st).
    + intros [-> | ->]; now apply (proj2 (proj2 (not_terminal net)) resp _ Hf Hs).
Qed.

(** C9: at every point of a mounted view's life at most one poll timer is
    live, and it is the one [pollRef] holds; [placeOrder] either leaves the
    timers alone or leaves one new timer live; whenever it creates an
    order (the cart is not empty and the answer is an order whose id
    prints), it starts the poll of that order on a handle no timer had,
    that timer alone is live afterwards and [pollRef] holds it, so the one
    live before is cancelled; and tearing the view down leaves no timer
    live. *)
Theorem one_live_poll (ls : gmap string string) (evs : list event) :
  let w := run (mount ls) evs in
  size (timers w) <= 1
  /\ (forall h id, timers w !! h = Some id -> pollRef w = Some h)
  /\ (forall h1 h2 id1 id2,
        timers w !! h1 = Some id1 -> timers w !! h2 = Some id2 -> h1 = h2)
  /\ (forall orderNet clearNet,
        let w' := step w (EvPlaceOrder orderNet clearNet) in
        (timers w' = timers w /\ pollRef w' = pollRef w)
        \/ (exists id, timers w' = {[next_timer w := id]}
                       /\ pollRef w' = Some (next_timer w)
                       /\ forall h, is_Some (timers w !! h) -> timers w' !! h = None))
  /\ (forall orderNet clearNet order s,
        length_is_zero (cart w) = Normal false ->
        createOrder orderNet = Normal order ->
        nullish order = false ->
        ToString (prop order "id") = Normal s ->
        let w' := step w (EvPlaceOrder orderNet clearNet) in
        timers w' = {[next_timer w := prop order "id"]}
        /\ pollRef w' = Some (next_timer w)
        /\ timers w !! next_timer w = None
        /\ forall h, is_Some (timers w !! h) -> timers w' !! h = None)
  /\ timers (step w EvUnmount) = ∅.
Proof.
  intros w.
  assert (Hinv : poll_inv w) by (apply run_poll_inv, mount_poll_inv).
  assert (Hlive : forall h id, timers w !! h = Some id -> pollRef w = Some h).
  { intros h id Hh. destruct Hinv as [E | (h' & id' & E & Hr & _)].
    - rewrite E, lookup_empty in Hh. discriminate.
    - rewrite E in Hh. apply lookup_singleton_Some in Hh. destruct Hh as [-> _]. exact Hr. }
  assert (Hfresh : forall h, is_Some (timers w !! h) -> h <> next_timer w).
  { intros h [id Hh]. destruct Hinv as [E | (h' & id' & E & _ & _ & Hlt)].
    - rewrite E, lookup_empty in Hh. discriminate.
    - rewrite E in Hh. apply lookup_singleton_Some in Hh. destruct Hh as [-> _]. lia. }
  split; [|split; [|split; [|split; [|split]]]].
  - destruct Hinv as [E | (h & id & E & _)]; rewrite E.
    + rewrite map_size_empty. lia.
    + rewrite map_size_singleton. lia.
  - exact Hlive.
  - intros h1 h2 id1 id2 H1 H2.
    apply Hlive in H1. apply Hlive in H2. congruence.
  - intros orderNet clearNet w'. subst w'. cbn [step].
    destruct (placeOrder_poll orderNet clearNet w) as [(Et & Er & _)|(id & _ & Er & Et & _)].
    + left. auto.
    + right. exists id. rewrite Et, (clear_pollRef w Hinv), insert_empty.
      split; [reflexivity|split; [exact Er|]].
      intros h [id' Hh]. apply lookup_singleton_None.
      destruct Hinv as [E | (h' & id'' & E & _ & _ & Hlt)].
      * rewrite E, lookup_empty in Hh. discriminate.
      * rewrite E in Hh. apply lookup_singleton_Some in Hh. destruct Hh as [-> _]. lia.
  - intros orderNet clearNet order s Hc Ho Hn Hs w'. subst w'. cbn [step].
    destruct (placeOrder_starts_poll orderNet clearNet w order s Hc Ho Hn Hs) as [Er Et].
    rewrite Et, (clear_pollRef w Hinv), insert_empty.
    split; [reflexivity|]. split; [exact Er|]. split.
    + destruct (timers w !! next_timer w) eqn:El; [|reflexivity].
      exfalso. now apply (Hfresh (next_timer w) (mk_is_Some _ _ El)).
    + intros h Hh. apply lookup_singleton_None. intros E. now apply (Hfresh h Hh).
  - cbn [step]. unfold unmount. destruct (pollRef w) eqn:Er.
    + rewrite <- Er. exact (clear_pollRef w Hinv).
    + destruct Hinv as [E | (h & id & _ & Hr & _)]; [exact E | congruence].
Qed.

End PollingClaims.

(** ** The local cart of the Products page *)

Section LocalCart.
Context `{Runtime}.

Lemma cart_entry_entry (p : value) : nullish p = false -> cart_entry p = Normal (entry p).
Proof. intros Hp. unfold cart_entry. now rewrite !(get_prop _ _ Hp). Qed.

Lemma save_locally_appends (p : value) (w : ProductsWorld) (items : list value) :
  nullish p = false ->
  JSON_parse (stored_cart_p w) = Normal (VArr items) ->
  save_locally p w =
    (Normal tt, setItem "cart" (JSON_stringify (VArr (items ++ [entry p]))) w).
Proof.
  intros Hp Hs. unfold save_locally. run_se. fold (stored_cart_p w).
  rewrite Hs. unfold push. rewrite (cart_entry_entry p Hp). reflexivity.
Qed.

(** One click that saves locally appends one entry, whatever the stored
    cart holds already. *)
Lemma add_to_cart_appends (p : value) (net : completion Response) (w : ProductsWorld)
      (items : list value) :
  nullish p = false ->
  saves_locally w net ->
  JSON_parse (stored_cart_p w) = Normal (VArr items) ->
  fst (add_to_cart p net w) = Normal tt
  /\ p_storage (snd (add_to_cart p net w)) =
       <["cart" := JSON_stringify (VArr (items ++ [entry p]))]> (p_storage w).
Proof.
  intros Hp Hl Hs. unfold add_to_cart.
  cbv beta iota zeta delta [mbind mret se_mbind se_mret se_bind se_ret se_gets se_try].
  destruct (truthy_item (p_storage w !! "token")) eqn:Et.
  - destruct Hl as [Hl|Hl]; [congruence|].
    rewrite (get_prop _ _ Hp).
    destruct (addToCartServer net) as [v|e]; [cbn in Hl; discriminate|].
    cbv beta iota zeta delta [se_lift se_modify].
    rewrite (save_locally_appends p (alert _ w) items Hp Hs). split; reflexivity.
  - rewrite (save_locally_appends p _ items Hp Hs). split; reflexivity.
Qed.

Lemma stored_cart_p_insert (t : string) (ls : gmap string string) (a : list string) :
  stored_cart_p (mkProducts (<["cart" := t]> ls) a) = read_back t.
Proof.
  unfold stored_cart_p, read_back. cbn [p_storage]. rewrite lookup_insert_eq. cbn.
  now destruct (String.eqb t "").
Qed.

Lemma count_id_replicate (p : value) (n : nat) :
  primitive (prop p "id") = true -> count_id (prop p "id") (replicate n (entry p)) = n.
Proof.
  intros Hp. unfold count_id. induction n as [|n IH]; [reflexivity|].
  cbn [replicate List.filter]. change (product_id (entry p)) with (prop p "id").
  rewrite (same_value_zero_refl _ Hp). cbn [length]. now rewrite IH.
Qed.

(** C10: every click that saves locally appends a new entry with quantity
    1 to the stored cart, whether or not an entry with that product id is
    there already; so, as long as the stored text reads back as the array
    it was written from, [n] such clicks on one product leave [n] more
    entries with its product id, each with quantity 1. *)
Theorem local_add_appends (p : value) (nets : list (completion Response))
        (w : ProductsWorld) (items : list value) :
  nullish p = false ->
  truthy_item (p_storage w !! "token") = false
    \/ Forall (fun net => is_normal (addToCartServer net) = false) nets ->
  JSON_parse (stored_cart_p w) = Normal (VArr items) ->
  (forall k, k < length nets ->
     JSON_parse (read_back (JSON_stringify (VArr (items ++ replicate (S k) (entry p)))))
     = Normal (VArr (items ++ replicate (S k) (entry p)))) ->
  JSON_parse (stored_cart_p (clicks p nets w))
    = Normal (VArr (items ++ replicate (length nets) (entry p)))
  /\ prop (entry p) "quantity" = VNum (num_of_Z 1)
  /\ (primitive (prop p "id") = true ->
      count_id (prop p "id") (items ++ replicate (length nets) (entry p))%list
      = count_id (prop p "id") items + length nets).
Proof.
  intros Hp Hoff Hs Hrt. split; [|split]; [|reflexivity|].
  - revert w items Hoff Hs Hrt.
    induction nets as [|net nets IH]; intros w items Hoff Hs Hrt.
    + cbn. now rewrite app_nil_r.
    + assert (Hl : saves_locally w net).
      { destruct Hoff as [Ht|Hf]; [now left | right; now inversion Hf]. }
      destruct (add_to_cart_appends p net w items Hp Hl Hs) as [_ Est].
      unfold clicks. cbn [foldl]. fold (clicks p nets (snd (add_to_cart p net w))).
      generalize dependent (snd (add_to_cart p net w)). intros w1 Est.
      assert (Hs1 : JSON_parse (stored_cart_p w1) = Normal (VArr (items ++ [entry p]))).
      { destruct w1 as [ls1 a1]. cbn [p_storage] in Est. rewrite Est, stored_cart_p_insert.
        apply (Hrt 0). cbn. lia. }
      assert (Ht1 : p_storage w1 !! "token" = p_storage w !! "token").
      { rewrite Est. now apply lookup_insert_ne. }
      cbn [length replicate].
      replace (items ++ entry p :: replicate (length nets) (entry p))%list
        with ((items ++ [entry p]) ++ replicate (length nets) (entry p))%list
        by now rewrite <- app_assoc.
      apply IH; [| exact Hs1 |].
      * rewrite Ht1. destruct Hoff as [Ht|Hf]; [now left | right; now inversion Hf].
      * intros k Hk. rewrite <- app_assoc. apply (Hrt (S k)). cbn. lia.
  - intros Hprim. now rewrite count_id_app, (count_id_replicate p _ Hprim).
Qed.

End LocalCart.

(** ** Signing in and out *)

Section Session.
Context `{Runtime}.

Lemma isTokenValid_falsy (now : number) (t : option string) :
  truthy_item t = false -> isTokenValid now t = Normal false.
Proof. intros Ht. unfold isTokenValid. now rewrite Ht. Qed.

(** X1: [logout] removes the token and nothing else from storage, so a
    locally stored cart survives signing out; it clears the [token] state,
    replaces the current history entry by /login without adding an entry,
    and running it again changes nothing. *)
Theorem logout_removes_only_token (w : AppWorld) :
  getToken (app_storage (logout w)) = None
  /\ app_token (logout w) = None
  /\ (forall k, k <> "token" -> app_storage (logout w) !! k = app_storage w !! k)
  /\ app_history (logout w) = "/login" :: tail (app_history w)
  /\ logout (logout w) = logout w.
Proof.
  repeat split.
  - unfold logout, getToken, clearAuth. cbn. apply lookup_delete_eq.
  - intros k Hk. unfold logout, clearAuth. cbn. now apply lookup_delete_ne.
  - unfold logout, clearAuth. cbn. f_equal. apply delete_delete_eq.
Qed.

(** X2: [RequireAuth] renders its children exactly when [isTokenValid]
    accepts the stored token, and a redirect to /login that remembers the
    location in every other case where [isTokenValid] returns; its own test
    for a missing token adds nothing to that.  After [logout] it
    redirects. *)
Theorem RequireAuth_guard (now : number) (ls : gmap string string) (location : string) :
  RequireAuth now ls location =
    (valid ← isTokenValid now (getToken ls);
     Normal (if valid : bool then Children else Navigate "/login" location))
  /\ (truthy_item (getToken ls) = false ->
      RequireAuth now ls location = Normal (Navigate "/login" location))
  /\ (forall w, RequireAuth now (app_storage (logout w)) location
                = Normal (Navigate "/login" location)).
Proof.
  split; [|split].
  - unfold RequireAuth. destruct (truthy_item (getToken ls)) eqn:Ht; cbn [negb].
    + destruct (isTokenValid now (getToken ls)) as [[]|e]; reflexivity.
    + now rewrite (isTokenValid_falsy now _ Ht).
  - intros Ht. unfold RequireAuth. now rewrite Ht.
  - intros w. unfold RequireAuth, logout, getToken, clearAuth. cbn [app_storage].
    now rewrite lookup_delete_eq.
Qed.

(** X3: the handlers of pageshow and popstate do the same thing: they
    leave the page alone when [isTokenValid] accepts the stored token, and
    otherwise replace the current history entry by /login as [logout]
    does, but without touching storage or the [token] state, so a rejected
    token stays stored.  With no token in storage they redirect, where the
    periodic check does nothing. *)
Theorem resume_redirects (now : number) (w : AppWorld) :
  handlePopState now w = handlePageShow now w
  /\ handlePageShow now w =
       (valid ← isTokenValid now (getToken (app_storage w));
        Normal (if valid : bool then w else redirect_to_login w))
  /\ (forall w', handlePageShow now w = Normal w' ->
        app_storage w' = app_storage w /\ app_token w' = app_token w
        /\ (w' = w \/ app_history w' = app_history (logout w)))
  /\ (getToken (app_storage w) = None ->
        liveness_tick now w = Normal w
        /\ handlePageShow now w = Normal (redirect_to_login w)).
Proof.
  assert (E : handlePageShow now w =
       (valid ← isTokenValid now (getToken (app_storage w));
        Normal (if valid : bool then w else redirect_to_login w))).
  { unfold handlePageShow. destruct (truthy_item (getToken (app_storage w))) eqn:Ht; cbn [negb].
    - destruct (isTokenValid now (getToken (app_storage w))) as [[]|e]; reflexivity.
    - now rewrite (isTokenValid_falsy now _ Ht). }
  split; [reflexivity|]. split; [exact E|]. split.
  - intros w'. rewrite E.
    destruct (isTokenValid now (getToken (app_storage w))) as [[]|e]; cbn; intros Hw;
      inversion Hw; subst; auto.
  - intros Hn. unfold liveness_tick, handlePageShow. rewrite Hn. cbn. auto.
Qed.

Lemma split_nonempty (sep : ascii) (s : string) : split sep s <> [].
Proof.
  destruct s as [|c s]; simpl; [discriminate|].
  destruct (Ascii.eqb c sep); [discriminate|].
  destruct (split sep s); discriminate.
Qed.

(** Splitting distributes over a separator. *)
Lemma split_app (sep : ascii) (a b : string) :
  split sep (a ++ String sep b) = (split sep a ++ split sep b)%list.
Proof.
  induction a as [|c a IH]; simpl.
  - now rewrite Ascii.eqb_refl.
  - destruct (Ascii.eqb c sep); [now rewrite IH|].
    rewrite IH. pose proof (split_nonempty sep a) as Hn.
    destruct (split sep a); [contradiction|reflexivity].
Qed.

Lemma split_segment (s : string) : segment s = true -> split "." s = [s].
Proof.
  unfold segment. induction s as [|c s IH]; simpl; [reflexivity|].
  intros Hs. apply andb_prop in Hs as [Hc Hs].
  apply negb_true_iff in Hc. rewrite Hc, (IH Hs). reflexivity.
Qed.

Lemma split_jwt (h p s : string) :
  segment h = true -> segment s = true ->
  split "." (jwt h p s) = (h :: split "." p ++ [s])%list.
Proof.
  intros Hh Hs. unfold jwt.
  change (h ++ "." ++ p ++ "." ++ s) with (h ++ String "." (p ++ String "." s)).
  rewrite !split_app, (split_segment h Hh), (split_segment s Hs). reflexivity.
Qed.

(** The claims of a token are those of its middle segment. *)
Lemma parseJwt_jwt (h p s : string) :
  segment h = true -> segment s = true ->
  parseJwt (Some (jwt h p s)) = parseJwt (Some (jwt "" p "")).
Proof.
  intros Hh Hs. unfold parseJwt.
  rewrite (split_jwt h p s Hh Hs), (split_jwt "" p "" eq_refl eq_refl).
  rewrite !length_cons, !length_app. simpl length.
  pose proof (split_nonempty "." p) as Hn.
  destruct (split "." p) as [|x l]; [contradiction|]. reflexivity.
Qed.

(** X4: the client reads a token's payload and nothing else: two tokens
    with the same middle segment have the same claims, are valid or not
    together, and show or hide the Admin link together, whatever their
    header and signature segments are. *)
Theorem token_signature_unchecked (now : number) (h1 s1 h2 s2 p : string) :
  segment h1 = true -> segment s1 = true -> segment h2 = true -> segment s2 = true ->
  parseJwt (Some (jwt h1 p s1)) = parseJwt (Some (jwt h2 p s2))
  /\ isTokenValid now (Some (jwt h1 p s1)) = isTokenValid now (Some (jwt h2 p s2))
  /\ isAdmin (Some (jwt h1 p s1)) = isAdmin (Some (jwt h2 p s2)).
Proof.
  intros H1 H2 H3 H4.
  assert (E : parseJwt (Some (jwt h1 p s1)) = parseJwt (Some (jwt h2 p s2))).
  { rewrite (parseJwt_jwt h1 p s1 H1 H2), (parseJwt_jwt h2 p s2 H3 H4). reflexivity. }
  assert (T : forall h s, truthy_item (Some (jwt h p s)) = true).
  { intros h s. unfold jwt. simpl. destruct h; reflexivity. }
  split; [exact E|]. split.
  - unfold isTokenValid. rewrite E, !T. reflexivity.
  - unfold isAdmin. rewrite E, !T. reflexivity.
Qed.

(** X5: a stored token whose claims cannot be read, or carry no [exp],
    passes the check that runs when the page mounts: [scheduleLogout]
    copies it into the [token] state, arms no timer and signs nobody out.
    The periodic check signs the same page out at its first tick. *)
Theorem scheduleLogout_lenient (now : number) (m : MountWorld) (claims : value) :
  truthy_item (getToken (app_storage (page m))) = true ->
  parseJwt (getToken (app_storage (page m))) = Normal claims ->
  expiring claims = false ->
  scheduleLogout now m
    = (Normal tt, on_page (setToken (getToken (app_storage (page m)))) m)
  /\ liveness_tick now (page m) = Normal (logout (page m)).
Proof.
  intros Ht Hp He. unfold expiring in He. split.
  - unfold scheduleLogout. run_se. cbn [page on_page]. rewrite Ht, Hp. cbn [negb].
    destruct (ToBoolean claims) eqn:Ec; cbn [negb]; [|reflexivity].
    rewrite (get_prop _ _ (truthy_not_nullish _ Ec)). cbn [andb] in He. rewrite He. reflexivity.
  - unfold liveness_tick, isTokenValid. rewrite Ht, Hp. cbn [negb]. run_bind.
    destruct (ToBoolean claims) eqn:Ec; cbn [negb]; [|reflexivity].
    rewrite (get_prop _ _ (truthy_not_nullish _ Ec)). cbn [andb] in He. rewrite He. reflexivity.
Qed.

(** X6: [doLogin] stores the text of [access_token] under the key token
    and replaces the current history entry by /products; an answer without
    [access_token] stores the text "undefined", which [RequireAuth] then
    rejects.  A rejected login shows its detail, or its message when there
    is none, and leaves storage and history alone.  [doRegister] after a
    successful registration is [doLogin]; after a rejected one it signs
    nobody in. *)
Theorem doLogin_outcome (res : Login.settled) (w : Login.World) :
  (forall data s, res = Login.Fulfilled data -> nullish data = false ->
     ToString (prop data "access_token") = Normal s ->
     Login.doLogin res w
     = Login.navigate "/products" (Login.setItem "token" s (Login.setError VNull w)))
  /\ (forall data, res = Login.Fulfilled data -> nullish data = false ->
        prop data "access_token" = VUndefined ->
        Login.storage (Login.doLogin res w) !! "token" = Some "undefined"
        /\ forall now location,
             RequireAuth now (Login.storage (Login.doLogin res w)) location
             = Normal (Navigate "/login" location))
  /\ (forall detail message, res = Login.Rejected detail message ->
        Login.doLogin res w
        = Login.setError (if ToBoolean detail then detail else VStr message) w)
  /\ (Login.error (Login.doLogin res w) = VNull
      \/ Login.storage (Login.doLogin res w) = Login.storage w
         /\ Login.history (Login.doLogin res w) = Login.history w)
  /\ (forall registered, Login.doRegister (Login.Fulfilled registered) res w
                         = Login.doLogin res w)
  /\ (forall detail message,
        Login.doRegister (Login.Rejected detail message) res w
        = Login.setError (if ToBoolean detail then detail else VStr message) w).
Proof.
  assert (Ok : forall data s, nullish data = false ->
            ToString (prop data "access_token") = Normal s ->
            Login.doLogin (Login.Fulfilled data) w
            = Login.navigate "/products" (Login.setItem "token" s (Login.setError VNull w))).
  { intros data s Hn Hs. unfold Login.doLogin, Login.sign_in.
    rewrite (get_prop _ _ Hn). run_bind. rewrite Hs. reflexivity. }
  split; [|split; [|split; [|split; [|split]]]].
  - intros data s -> Hn Hs. exact (Ok data s Hn Hs).
  - intros data -> Hn Hu. rewrite (Ok data "undefined" Hn) by now rewrite Hu.
    cbn [Login.storage Login.navigate Login.setItem Login.setError].
    split; [apply lookup_insert_eq|]. intros now location.
    unfold RequireAuth, getToken. rewrite lookup_insert_eq. reflexivity.
  - intros detail message ->. reflexivity.
  - unfold Login.doLogin, Login.sign_in.
    destruct res as [data|detail message]; [|right; split; reflexivity].
    destruct (get data "access_token") as [tok|e]; run_bind; [|right; split; reflexivity].
    destruct (ToString tok); [left|right; split]; reflexivity.
  - reflexivity.
  - reflexivity.
Qed.

End Session.

(** ** Placing an order and retrying its payment *)

Section Checkout.
Context `{Runtime}.

(** X7: [placeOrder] never looks at the status of the answer to the order
    request.  Whatever the status, an answer whose body is JSON with
    properties counts as a created order: the cart is emptied, the stored
    cart removed, the message names the [id] of the body as it prints (the
    text undefined when there is none), and a poll for that id starts. *)
Theorem placeOrder_ignores_status (r : Response) (clearNet : completion Response)
        (w : CartWorld) (order : value) (s : string) :
  length_is_zero (cart w) = Normal false ->
  json r = Normal order ->
  nullish order = false ->
  ToString (prop order "id") = Normal s ->
  fst (placeOrder (Normal r) clearNet w) = Normal tt
  /\ cart (snd (placeOrder (Normal r) clearNet w)) = VArr []
  /\ storage (snd (placeOrder (Normal r) clearNet w)) = delete "cart" (storage w)
  /\ message (snd (placeOrder (Normal r) clearNet w)) = Some (created s)
  /\ lastOrder (snd (placeOrder (Normal r) clearNet w))
     = VObj [("id", prop order "id"); ("status", prop order "status")]
  /\ loading (snd (placeOrder (Normal r) clearNet w)) = false
  /\ pollRef (snd (placeOrder (Normal r) clearNet w)) = Some (next_timer w)
  /\ timers (snd (placeOrder (Normal r) clearNet w)) !! next_timer w
     = Some (prop order "id").
Proof.
  intros Hc Hj Hn Hs. unfold placeOrder, start_poll, setInterval, createOrder, created. run_se.
  rewrite Hc. run_bind. rewrite Hj, !(get_prop _ _ Hn), Hs.
  cbn [storage set_storage setCart setMessage setLastOrder setLoading].
  destruct (truthy_item _); [destruct (clearCartServer clearNet)|];
    destruct (pollRef w) eqn:Er; cbn; rewrite ?Er; cbn;
    repeat split; try reflexivity; apply lookup_insert_eq.
Qed.

(** X8: when the order request fails, or its answer is null, [placeOrder]
    shows the error as text and changes nothing else: the cart on screen,
    the stored cart, the last order and the timers are as before, and
    [loading] is false again. *)
Theorem placeOrder_failure_keeps_cart (orderNet clearNet : completion Response)
        (w : CartWorld) (e : exn) :
  length_is_zero (cart w) = Normal false ->
  (order ← createOrder orderNet; get order "id") = Throw e ->
  placeOrder orderNet clearNet w
  = (Normal tt, setLoading false (setMessage (Some (String_of_exn e)) w)).
Proof.
  intros Hc He. unfold placeOrder. run_se. rewrite Hc.
  run_bind in He.
  destruct (createOrder orderNet) as [order|e']; [|now inversion He].
  rewrite He. reflexivity.
Qed.

(** X9: clearing the server cart after an order is best effort: how the
    request settles changes nothing of what [placeOrder] returns or leaves
    behind. *)
Theorem placeOrder_clear_best_effort (orderNet c1 c2 : completion Response) (w : CartWorld) :
  placeOrder orderNet c1 w = placeOrder orderNet c2 w.
Proof.
  unfold placeOrder, start_poll. run_se.
  destruct (length_is_zero (cart w)) as [[|]|e]; try reflexivity.
  destruct (createOrder orderNet) as [order|e]; try reflexivity.
  destruct (get order "id") as [id|e]; try reflexivity.
  destruct (get order "status") as [st|e]; try reflexivity.
  destruct (ToString id) as [s|e]; try reflexivity.
  cbn [storage set_storage setCart setMessage setLastOrder setLoading].
  destruct (truthy_item _); [|reflexivity].
  destruct (clearCartServer c1), (clearCartServer c2); reflexivity.
Qed.

(** X10: [handleRetryFromCart] never throws and touches nothing but
    [loading], [message] and [lastOrder]: cart, storage and a running poll
    stay as they are.  It forgets the last order only when the payment
    answers with the result SUCCESS, does nothing at all when the last
    order has no truthy [id], and otherwise ends with [loading] false.  A
    payment answered with status 200 and no body is reported as a failed
    retry. *)
Theorem handleRetryFromCart_frame (net : completion Response) (w : CartWorld) :
  fst (handleRetryFromCart net w) = Normal tt
  /\ storage (snd (handleRetryFromCart net w)) = storage w
  /\ cart (snd (handleRetryFromCart net w)) = cart w
  /\ pollRef (snd (handleRetryFromCart net w)) = pollRef w
  /\ timers (snd (handleRetryFromCart net w)) = timers w
  /\ polled (snd (handleRetryFromCart net w)) = polled w
  /\ (lastOrder (snd (handleRetryFromCart net w)) = lastOrder w
      \/ lastOrder (snd (handleRetryFromCart net w)) = VNull
         /\ exists pay, createPayment net = Normal pay
                        /\ strict_eq_str (prop pay "result") "SUCCESS" = true)
  /\ (ToBoolean (prop (lastOrder w) "id") = true ->
      loading (snd (handleRetryFromCart net w)) = false)
  /\ (ToBoolean (prop (lastOrder w) "id") = false -> snd (handleRetryFromCart net w) = w)
  /\ (ToBoolean (prop (lastOrder w) "id") = true ->
      createPayment net = Normal VNull ->
      lastOrder (snd (handleRetryFromCart net w)) = lastOrder w
      /\ exists m, message (snd (handleRetryFromCart net w)) = Some ("Retry failed: " ++ m)).
Proof.
  unfold handleRetryFromCart. run_se.
  destruct (ToBoolean (prop (lastOrder w) "id")) eqn:Eid.
  - assert (El : ToBoolean (lastOrder w) = true)
      by (destruct (lastOrder w); try discriminate; reflexivity).
    rewrite El. cbn [negb orb].
    destruct (ToString (prop (lastOrder w) "id")) as [s|e]; cbn [fst snd];
      [destruct (createPayment net) as [pay|e] eqn:Ep; cbn [fst snd];
       [destruct (get pay "result") as [res|e] eqn:Eres; cbn [fst snd];
        [destruct (strict_eq_str res "SUCCESS") eqn:Es;
         [|destruct (strict_eq_str res "PENDING")]|]|]|];
      cbn; repeat match goal with |- _ /\ _ => split end;
      try reflexivity; try discriminate; try (intros; reflexivity);
      try (left; reflexivity).
    + right. split; [reflexivity|]. exists pay. split; [reflexivity|].
      destruct pay; try discriminate; cbn in Eres; inversion Eres; subst; exact Es.
    + intros _ Ev. inversion Ev; subst. discriminate.
    + intros _ Ev. inversion Ev; subst. discriminate.
    + intros _ Ev. inversion Ev; subst. discriminate.
    + intros _ _. split; eauto.
    + intros _ _. split; eauto.
  - rewrite orb_true_r. cbn.
    repeat match goal with |- _ /\ _ => split end;
      try reflexivity; try discriminate; try (left; reflexivity).
Qed.

Lemma handleRetryFromCart_idle (net : completion Response) (w : CartWorld) :
  ToBoolean (prop (lastOrder w) "id") = false ->
  handleRetryFromCart net w = (Normal tt, w).
Proof.
  intros Hid. unfold handleRetryFromCart. run_se. now rewrite Hid, orb_true_r.
Qed.

Lemma handleRetryFromCart_success (net : completion Response) (w : CartWorld) (s : string)
      (pay : value) :
  ToBoolean (prop (lastOrder w) "id") = true ->
  ToString (prop (lastOrder w) "id") = Normal s ->
  createPayment net = Normal pay ->
  strict_eq_str (prop pay "result") "SUCCESS" = true ->
  handleRetryFromCart net w
  = (Normal tt,
     setLoading false
       (setLastOrder VNull (setMessage (Some ("Payment successful for order " ++ s)) w))).
Proof.
  intros Hid Hs Hpay Hres. unfold handleRetryFromCart. run_se.
  assert (El : ToBoolean (lastOrder w) = true)
    by (destruct (lastOrder w); try discriminate; reflexivity).
  assert (Hn : nullish pay = false) by (destruct pay; try discriminate; reflexivity).
  rewrite El, Hid. cbn [negb orb]. rewrite Hs, Hpay, (get_prop _ _ Hn), Hres. reflexivity.
Qed.

(** X11: the tick that observes PAYMENT_FAILED records the order as the
    last order, which is what the retry reads.  A retry whose payment then
    answers SUCCESS forgets the order, shows the success message and
    leaves no poll behind; when the order's id is falsy (an order created
    from an answer without [id]), the retry does nothing. *)
Theorem retry_after_failed_poll (id : value) (net payNet : completion Response)
        (w : CartWorld) (s : string) (pay : value) :
  terminal net = true ->
  is_status "PAID" (observed net) = false ->
  ToString id = Normal s ->
  createPayment payNet = Normal pay ->
  strict_eq_str (prop pay "result") "SUCCESS" = true ->
  lastOrder (snd (poll_tick id net w)) = VObj [("id", id); ("status", VStr "PAYMENT_FAILED")]
  /\ (ToBoolean id = true ->
      lastOrder (snd (handleRetryFromCart payNet (snd (poll_tick id net w)))) = VNull
      /\ message (snd (handleRetryFromCart payNet (snd (poll_tick id net w))))
         = Some ("Payment successful for order " ++ s)
      /\ loading (snd (handleRetryFromCart payNet (snd (poll_tick id net w)))) = false
      /\ pollRef (snd (handleRetryFromCart payNet (snd (poll_tick id net w)))) = None)
  /\ (ToBoolean id = false ->
      handleRetryFromCart payNet (snd (poll_tick id net w))
      = (Normal tt, snd (poll_tick id net w))).
Proof.
  intros Ht Hp Hs Hpay Hres. rewrite poll_tick_unfold, Ht, Hs, Hp. cbn [snd].
  set (w1 := resolve id false s (log_poll id w)).
  assert (E : lastOrder w1 = VObj [("id", id); ("status", VStr "PAYMENT_FAILED")])
    by (unfold w1, resolve; destruct (pollRef _); reflexivity).
  assert (Er : pollRef w1 = None) by apply resolve_poll.
  assert (Ei : prop (lastOrder w1) "id" = id) by now rewrite E.
  split; [exact E|]. split.
  - intros Hid.
    rewrite (handleRetryFromCart_success payNet w1 s pay); rewrite ?Ei; auto.
  - intros Hid. apply handleRetryFromCart_idle. now rewrite Ei.
Qed.

End Checkout.

(** ** The cart across pages *)

Section CartEntries.
Context `{Runtime}.

Lemma stored_cart_lookup (t : string) (w : CartWorld) :
  storage w !! "cart" = Some t -> stored_cart w = read_back t.
Proof.
  intros E. unfold stored_cart, read_back. rewrite E. cbn. now destruct (String.eqb t "").
Qed.

Lemma delete_beyond {A} (l : list A) (i : nat) : length l <= i -> delete i l = l.
Proof.
  revert i. induction l as [|x l IH]; intros [|i]; simpl; intros Hl; try reflexivity; try lia.
  f_equal. apply IH. lia.
Qed.

Lemma removeItem_offline (index : nat) (w : CartWorld) (items : list value) :
  cart w = VArr items ->
  truthy_item (storage w !! "token") = false ->
  removeItem index w =
    (Normal tt,
     set_storage (insert "cart" (JSON_stringify (VArr (delete index items))))
                 (setCart (VArr (delete index items)) w)).
Proof.
  intros Hc Ht. unfold removeItem. run_se. rewrite Ht, Hc. reflexivity.
Qed.

(** X12: [removeItem] shows the cart without the entry at the index and
    stores exactly that cart as text, when nobody is signed in or the
    entry exists.  Signed in and with an index past the end it throws
    before anything changes; signed out, an index past the end removes
    nothing. *)
Theorem removeItem_spec (index : nat) (w : CartWorld) (items : list value) :
  cart w = VArr items ->
  (truthy_item (storage w !! "token") = false
   \/ (exists it, items !! index = Some it /\ nullish it = false) ->
   removeItem index w =
     (Normal tt,
      set_storage (insert "cart" (JSON_stringify (VArr (delete index items))))
                  (setCart (VArr (delete index items)) w)))
  /\ (truthy_item (storage w !! "token") = true -> items !! index = None ->
      exists e, removeItem index w = (Throw e, w))
  /\ (length items <= index -> delete index items = items).
Proof.
  intros Hc. split; [|split].
  - intros [Ht|(it & Hi & Hn)]; [now apply removeItem_offline|].
    destruct (truthy_item (storage w !! "token")) eqn:Ht; [|now apply removeItem_offline].
    unfold removeItem. run_se. rewrite Ht, Hc. cbn [element_at]. rewrite Hi. cbn [default].
    rewrite (get_prop _ _ Hn), ?Hc. reflexivity.
  - intros Ht Hi. unfold removeItem. run_se. rewrite Ht, Hc. cbn [element_at].
    rewrite Hi. cbn. eauto.
  - apply delete_beyond.
Qed.

(** X13: what [removeItem] stores is what [load] shows: signed out, and
    with a stored text that reads back as the array written, loading the
    cart after a removal changes nothing on screen. *)
Theorem removeItem_then_load (index : nat) (net : completion Response) (w : CartWorld)
        (items : list value) :
  cart w = VArr items ->
  truthy_item (storage w !! "token") = false ->
  JSON_parse (read_back (JSON_stringify (VArr (delete index items))))
    = Normal (VArr (delete index items)) ->
  load net (snd (removeItem index w)) = (Normal tt, snd (removeItem index w))
  /\ cart (snd (removeItem index w)) = VArr (delete index items).
Proof.
  intros Hc Ht Hr. rewrite (removeItem_offline index w items Hc Ht). cbn [snd].
  rewrite load_unfold, (stored_cart_lookup (JSON_stringify (VArr (delete index items)))), Hr
    by apply lookup_insert_eq.
  cbn [storage set_storage setCart]. rewrite lookup_insert_ne by discriminate.
  rewrite Ht. split; reflexivity.
Qed.

(** X14: an entry added on the Products page while signed out is the last
    entry of the cart the Cart page shows when it mounts over the same
    storage, after the entries stored before, provided the stored text
    reads back as the array written. *)
Theorem add_then_load (p : value) (net cartNet : completion Response) (w : ProductsWorld)
        (items : list value) :
  nullish p = false ->
  truthy_item (p_storage w !! "token") = false ->
  JSON_parse (stored_cart_p w) = Normal (VArr items) ->
  JSON_parse (read_back (JSON_stringify (VArr (items ++ [entry p]))))
    = Normal (VArr (items ++ [entry p])) ->
  cart (snd (load cartNet (mount (p_storage (snd (add_to_cart p net w))))))
  = VArr (items ++ [entry p]).
Proof.
  intros Hp Ht Hs Hr.
  destruct (add_to_cart_appends p net w items Hp (or_introl Ht) Hs) as [_ E].
  rewrite load_unfold, (stored_cart_lookup (JSON_stringify (VArr (items ++ [entry p])))), Hr
    by (cbn [mount storage]; rewrite E; apply lookup_insert_eq).
  cbn [mount storage]. rewrite E, lookup_insert_ne, Ht by discriminate. reflexivity.
Qed.

(** X21: [load] changes nothing but the cart on screen and, when it falls
    back, the message: storage, the last order, [loading] and the poll are
    as before, so the merged cart is shown and never stored.  When it sets
    the advisory message, the cart it shows is the stored cart.  Signed
    out, what the network answers is never looked at. *)
Theorem load_changes_cart_only (net : completion Response) (w : CartWorld) :
  storage (snd (load net w)) = storage w
  /\ lastOrder (snd (load net w)) = lastOrder w
  /\ loading (snd (load net w)) = loading w
  /\ pollRef (snd (load net w)) = pollRef w
  /\ timers (snd (load net w)) = timers w
  /\ polled (snd (load net w)) = polled w
  /\ (message (snd (load net w)) = message w
      \/ message (snd (load net w)) = Some advisory
         /\ JSON_parse (stored_cart w) = Normal (cart (snd (load net w))))
  /\ (truthy_item (storage w !! "token") = false ->
      forall net', load net' w = load net w).
Proof.
  rewrite load_unfold.
  destruct (JSON_parse (stored_cart w)) as [local|e] eqn:El.
  - destruct (truthy_item (storage w !! "token")) eqn:Et.
    + destruct (fetchCartServer net) as [server|e];
        [destruct (ToBoolean server && isArray (prop server "items"));
         [destruct (merge _ local)|]|];
        cbn; repeat split; auto; discriminate.
    + cbn. repeat split; auto. intros _ net'. now rewrite load_unfold, El, Et.
  - cbn. repeat split; auto. intros _ net'. now rewrite load_unfold, El.
Qed.

Lemma save_locally_alerts (p : value) (w : ProductsWorld) :
  alerts (snd (save_locally p w)) = alerts w.
Proof.
  unfold save_locally. run_se.
  destruct (JSON_parse _) as [existing|e]; [|reflexivity].
  destruct (push existing (cart_entry p)); reflexivity.
Qed.

(** One click, case by case. *)
Lemma add_to_cart_unfold (p : value) (net : completion Response) (w : ProductsWorld) :
  add_to_cart p net w =
    if truthy_item (p_storage w !! "token") then
      match (get p "id";; addToCartServer net) with
      | Normal _ => (Normal tt, alert "Added to cart (server)" w)
      | Throw _ => save_locally p (alert "Failed to add to server cart, saved locally" w)
      end
    else
      match save_locally p w with
      | (Normal _, w1) => (Normal tt, alert "Added to cart (local)" w1)
      | (Throw e, w1) => (Throw e, w1)
      end.
Proof.
  unfold add_to_cart. run_se. run_bind.
  destruct (truthy_item (p_storage w !! "token")).
  - destruct (get p "id"); [destruct (addToCartServer net)|]; reflexivity.
  - destruct (save_locally p w) as [[[]|e] w1]; reflexivity.
Qed.

(** X22: a click on the add-to-cart button that completes shows exactly
    one alert.  Signed in and with the server accepting, it shows the
    server alert and writes nothing to storage.  Signed out and with a
    stored cart that is not JSON, it throws before it shows or stores
    anything. *)
Theorem add_to_cart_alerts (p : value) (net : completion Response) (w : ProductsWorld) :
  (fst (add_to_cart p net w) = Normal tt ->
   exists msg, alerts (snd (add_to_cart p net w)) = (alerts w ++ [msg])%list)
  /\ (truthy_item (p_storage w !! "token") = true -> nullish p = false ->
      is_normal (addToCartServer net) = true ->
      add_to_cart p net w = (Normal tt, alert "Added to cart (server)" w))
  /\ (truthy_item (p_storage w !! "token") = false ->
      is_normal (JSON_parse (stored_cart_p w)) = false ->
      exists e, add_to_cart p net w = (Throw e, w)).
Proof.
  rewrite add_to_cart_unfold. split; [|split].
  - destruct (truthy_item (p_storage w !! "token")).
    + destruct (get p "id";; addToCartServer net); [cbn; eauto|].
      intros _. rewrite save_locally_alerts. cbn. eauto.
    + pose proof (save_locally_alerts p w) as Ha.
      destruct (save_locally p w) as [[[]|e'] w1]; cbn [fst snd] in *; [|discriminate].
      intros _. cbn [alerts alert]. rewrite Ha. eauto.
  - intros Ht Hp Hn. rewrite Ht, (get_prop _ _ Hp). run_bind.
    destruct (addToCartServer net); [reflexivity|discriminate].
  - intros Ht Hn. rewrite Ht. unfold save_locally. run_se.
    fold (stored_cart_p w). destruct (JSON_parse (stored_cart_p w)); [discriminate|]. eauto.
Qed.

End CartEntries.

(** ** The orders view *)

Section Orders.
Context `{Runtime}.
Import MyOrders.

Lemma replace_all_absent (a b : ascii) (s : string) :
  forallb (fun c => negb (Ascii.eqb c a)) (list_ascii_of_string s) = true ->
  replace_all a b s = s.
Proof.
  induction s as [|c s IH]; simpl; [reflexivity|].
  intros Hs. apply andb_prop in Hs as [Hc Hs]. apply negb_true_iff in Hc.
  now rewrite Hc, (IH Hs).
Qed.

(** X15: [parseItems] gives the empty list for a falsy input; for text
    that is JSON, what it parses to; for text that is not, the parse of
    the text with every apostrophe replaced by a double quote, and the
    empty list when that fails too, as it must for text without
    apostrophes.  An input that is no string, such as items that arrive as
    an array or object, gives the empty list unless its text is JSON. *)
Theorem parseItems_fallback (itemsStr : value) :
  (ToBoolean itemsStr = false -> parseItems itemsStr = VArr [])
  /\ (forall s v, itemsStr = VStr s -> s <> "" -> JSON_parse s = Normal v ->
        parseItems itemsStr = v)
  /\ (forall s e, itemsStr = VStr s -> JSON_parse s = Throw e ->
        parseItems itemsStr
          = catch_default (JSON_parse (replace_all "'" "034" s)) (VArr [])
        /\ (apostrophe_free s = true -> parseItems itemsStr = VArr []))
  /\ (primitive itemsStr = false ->
      is_normal (JSON_parse_value itemsStr) = false ->
      parseItems itemsStr = VArr []).
Proof.
  split; [|split; [|split]].
  - intros Hf. unfold parseItems. now rewrite Hf.
  - intros s v -> Hs Hp. unfold parseItems, JSON_parse_value.
    cbn [ToBoolean ToString]. run_bind.
    apply String.eqb_neq in Hs. rewrite Hs, Hp. reflexivity.
  - intros s e -> He.
    assert (E : parseItems (VStr s)
                = catch_default (JSON_parse (replace_all "'" "034" s)) (VArr [])).
    { unfold parseItems, JSON_parse_value.
      cbn [ToBoolean ToString]. run_bind. rewrite He.
      destruct (s =? "")%string eqn:Es; [|reflexivity].
      apply String.eqb_eq in Es. subst. cbn. now rewrite He. }
    split; [exact E|].
    intros Ha. rewrite E, (replace_all_absent _ _ s Ha), He. reflexivity.
  - intros Hp Hn. unfold parseItems.
    destruct (JSON_parse_value itemsStr); [discriminate|].
    destruct itemsStr; try discriminate; reflexivity.
Qed.

Lemma item_quantity_truthy (it : value) : ToBoolean (item_quantity it) = true.
Proof.
  unfold item_quantity.
  destruct (ToBoolean (prop it "quantity")) eqn:E1; [exact E1|].
  destruct (ToBoolean (prop it "qty")) eqn:E2; [exact E2|]. reflexivity.
Qed.

(** One turn of the loop, case by case, for an item that has properties. *)
Lemma enrich_item_unfold (catalog : nat -> completion value) (acc : list value) (it : value)
      (w : World) :
  nullish it = false ->
  enrich_item catalog acc it w =
    if negb (ToBoolean (item_id it)) then (Normal acc, w)
    else if ToBoolean (cached w (item_id it))
    then (Normal (acc ++ [line (cached w (item_id it)) (item_quantity it)])%list, w)
    else match ToString (item_id it) with
         | Throw e => (Throw e, w)
         | Normal s =>
             match catalog (length (requested w)) with
             | Normal fetched =>
                 (Normal (acc ++ [line fetched (item_quantity it)])%list,
                  cache_put (item_id it) fetched (log_request (item_id it) w))
             | Throw _ =>
                 (Normal (acc ++ [line (placeholder (item_id it) s) (item_quantity it)])%list,
                  log_request (item_id it) w)
             end
         end.
Proof.
  intros Hn. unfold enrich_item, or_else. run_se.
  rewrite !(get_prop _ _ Hn). run_bind.
  replace (if ToBoolean (prop it "product_id") then Normal (prop it "product_id")
           else if ToBoolean (prop it "productId") then Normal (prop it "productId")
                else Normal (prop it "id")) with (Normal (item_id it))
    by (unfold item_id; destruct (ToBoolean (prop it "product_id")); [reflexivity|];
        destruct (ToBoolean (prop it "productId")); reflexivity).
  replace (if ToBoolean (prop it "quantity") then Normal (prop it "quantity")
           else if ToBoolean (prop it "qty") then Normal (prop it "qty")
                else Normal (VNum (num_of_Z 1))) with (Normal (item_quantity it))
    by (unfold item_quantity; destruct (ToBoolean (prop it "quantity")); [reflexivity|];
        destruct (ToBoolean (prop it "qty")); reflexivity).
  destruct (ToBoolean (item_id it)); cbn [negb]; [|reflexivity].
  unfold cached. destruct (ToBoolean (cache_get _ _)); cbn [negb]; [reflexivity|].
  destruct (ToString (item_id it)) as [s|e]; [|reflexivity].
  cbn [requested log_request].
  destruct (catalog (length (requested w))); reflexivity.
Qed.

Lemma enrich_item_nullish (catalog : nat -> completion value) (acc : list value) (it : value)
      (w : World) :
  nullish it = true -> exists e, enrich_item catalog acc it w = (Throw e, w).
Proof. intros Hn. unfold enrich_item. run_se. destruct it; try discriminate; cbn; eauto. Qed.

(** Storing a product keeps every product the cache holds. *)
Lemma cache_set_keeps (k v : value) (cache : list (value * value)) (k' : value) :
  ToBoolean (cache_get cache k) = false ->
  ToBoolean (cache_get cache k') = true ->
  cache_get (cache_set k v cache) k' = cache_get cache k'.
Proof.
  unfold cache_get. induction cache as [|[k0 v0] rest IH]; cbn [cache_set List.find fst snd].
  - discriminate.
  - destruct (same_value_zero k0 k) eqn:Ek, (same_value_zero k0 k') eqn:Ek';
      cbn [List.find fst snd]; rewrite ?Ek'; try reflexivity.
    + cbn [snd]. congruence.
    + exact IH.
Qed.

(** What is stored under a primitive key is what is read back. *)
Lemma cache_set_get (k v : value) (cache : list (value * value)) :
  primitive k = true -> cache_get (cache_set k v cache) k = v.
Proof.
  intros Hk. unfold cache_get.
  induction cache as [|[k0 v0] rest IH]; cbn [cache_set List.find fst snd].
  - now rewrite (same_value_zero_refl k Hk).
  - destruct (same_value_zero k0 k) eqn:Ek; cbn [List.find fst snd]; rewrite Ek;
      [reflexivity|exact IH].
Qed.

(** What a run of the loop leaves behind, whatever its outcome. *)
Lemma enrich_loop_frame (catalog : nat -> completion value) (items : list value) :
  forall (acc : list value) (w : World),
    storage (snd (enrich_loop catalog acc items w)) = storage w
    /\ orders (snd (enrich_loop catalog acc items w)) = orders w
    /\ exists new,
         requests w (snd (enrich_loop catalog acc items w)) new
         /\ Forall (fun pid => ToBoolean pid = true /\ ToBoolean (cached w pid) = false) new
         /\ (forall k, ToBoolean (cached w k) = true ->
               cached (snd (enrich_loop catalog acc items w)) k = cached w k).
Proof.
  unfold requests.
  induction items as [|it items IH]; intros acc w; cbn [enrich_loop].
  - cbn. repeat split. exists []. rewrite app_nil_r. repeat split; auto.
  - run_se.
    destruct (nullish it) eqn:Hn.
    { destruct (enrich_item_nullish catalog acc it w Hn) as [e ->].
      cbn. repeat split. exists []. rewrite app_nil_r. repeat split; auto. }
    rewrite (enrich_item_unfold catalog acc it w Hn).
    destruct (ToBoolean (item_id it)) eqn:Ei; cbn [negb]; [|apply IH].
    destruct (ToBoolean (cached w (item_id it))) eqn:Ec; [apply IH|].
    destruct (ToString (item_id it)) as [s|e].
    2:{ cbn. repeat split. exists []. rewrite app_nil_r. repeat split; auto. }
    destruct (catalog (length (requested w))) as [f|e].
    + specialize (IH (acc ++ [line f (item_quantity it)])%list
                     (cache_put (item_id it) f (log_request (item_id it) w))).
      destruct IH as (Hs & Ho & new & Hr & Hf & Hk).
      split; [exact Hs|]. split; [exact Ho|].
      exists (item_id it :: new). split; [|split].
      * rewrite Hr. cbn [requested cache_put log_request]. now rewrite <- app_assoc.
      * constructor; [now split|].
        eapply Forall_impl; [exact Hf|]. intros pid [Hp Hc]. split; [exact Hp|].
        destruct (ToBoolean (cached w pid)) eqn:Ew; [|reflexivity].
        unfold cached in *. cbn [productsCache cache_put log_request] in Hc.
        rewrite (cache_set_keeps _ _ _ _ Ec Ew) in Hc. congruence.
      * intros k Ht. rewrite Hk.
        -- unfold cached in *. cbn [productsCache cache_put log_request].
           now apply cache_set_keeps.
        -- unfold cached in *. cbn [productsCache cache_put log_request].
           now rewrite (cache_set_keeps _ _ _ _ Ec Ht).
    + specialize (IH (acc ++ [line (placeholder (item_id it) s) (item_quantity it)])%list
                     (log_request (item_id it) w)).
      destruct IH as (Hs & Ho & new & Hr & Hf & Hk).
      split; [exact Hs|]. split; [exact Ho|].
      exists (item_id it :: new). split; [|split].
      * rewrite Hr. cbn [requested log_request]. now rewrite <- app_assoc.
      * constructor; [now split|]. exact Hf.
      * exact Hk.
Qed.

(** The entries a run of the loop that completes has added. *)
Lemma enrich_loop_entries (catalog : nat -> completion value) (items : list value) :
  forall (acc out : list value) (w w' : World),
    enrich_loop catalog acc items w = (Normal out, w') ->
    exists es,
      out = (acc ++ es)%list
      /\ Forall2 (fun it e => exists product, e = line product (item_quantity it))
                 (List.filter (fun it => ToBoolean (item_id it)) items) es.
Proof.
  induction items as [|it items IH]; intros acc out w w'; cbn [enrich_loop].
  - intros E. inversion E; subst. exists []. rewrite app_nil_r. split; [reflexivity|constructor].
  - run_se.
    destruct (nullish it) eqn:Hn.
    { destruct (enrich_item_nullish catalog acc it w Hn) as [e ->]. discriminate. }
    rewrite (enrich_item_unfold catalog acc it w Hn). cbn [List.filter].
    destruct (ToBoolean (item_id it)) eqn:Ei; cbn [negb]; [|apply IH].
    assert (Step : forall product w1,
      enrich_loop catalog (acc ++ [line product (item_quantity it)])%list items w1
        = (Normal out, w') ->
      exists es, out = (acc ++ es)%list
        /\ Forall2 (fun it e => exists product, e = line product (item_quantity it))
                   (it :: List.filter (fun it => ToBoolean (item_id it)) items) es).
    { intros product w1 E. destruct (IH _ _ _ _ E) as (es & -> & Hes).
      exists (line product (item_quantity it) :: es). split; [now rewrite <- app_assoc|].
      constructor; [eauto|exact Hes]. }
    destruct (ToBoolean (cached w (item_id it))); [apply Step|].
    destruct (ToString (item_id it)) as [s|e]; [|discriminate].
    destruct (catalog (length (requested w))); apply Step.
Qed.

(** X16: when [enrichOrderItems] returns, it returns one entry
    [{ product, quantity }] for each item that has a truthy id under one of
    the names product_id, productId and id, in the order of the items and
    skipping the others; the quantity of an entry is the item's [quantity],
    else its [qty], else 1, and so always truthy. *)
Theorem enrichOrderItems_entries (catalog : nat -> completion value) (items out : value)
        (w w' : World) :
  enrichOrderItems catalog items w = (Normal out, w') ->
  exists l es,
    iterable "items" items = Normal l
    /\ out = VArr es
    /\ Forall2 (fun it e => exists product, e = line product (item_quantity it))
               (List.filter (fun it => ToBoolean (item_id it)) l) es
    /\ Forall (fun e => ToBoolean (prop e "quantity") = true) es
    /\ length es <= length l.
Proof.
  unfold enrichOrderItems. run_se.
  destruct (iterable "items" items) as [l|e]; [|discriminate].
  destruct (enrich_loop catalog [] l w) as [[es|e] w1] eqn:E; [|discriminate].
  intros Eo. inversion Eo; subst.
  destruct (enrich_loop_entries _ _ _ _ _ _ E) as (es' & -> & Hes). cbn [app] in *.
  exists l, es'. repeat split; auto.
  - clear E Eo. induction Hes as [|it e its es0 [product ->] _ IH]; constructor; [|exact IH].
    cbn. apply item_quantity_truthy.
  - rewrite <- (Forall2_length _ _ _ Hes). apply filter_length_le.
Qed.

(** X17: whatever [enrichOrderItems] does, it requests from the catalog
    only products with a truthy id for which the cache held no product
    when it started, it keeps every product the cache held, and it leaves
    storage and the orders on screen alone. *)
Theorem enrichOrderItems_requests (catalog : nat -> completion value) (items : value)
        (w : World) :
  storage (snd (enrichOrderItems catalog items w)) = storage w
  /\ orders (snd (enrichOrderItems catalog items w)) = orders w
  /\ exists new,
       requests w (snd (enrichOrderItems catalog items w)) new
       /\ Forall (fun pid => ToBoolean pid = true /\ ToBoolean (cached w pid) = false) new
       /\ (forall k, ToBoolean (cached w k) = true ->
             cached (snd (enrichOrderItems catalog items w)) k = cached w k).
Proof.
  unfold enrichOrderItems. run_se.
  destruct (iterable "items" items) as [l|e].
  - pose proof (enrich_loop_frame catalog l [] w) as Hf.
    destruct (enrich_loop catalog [] l w) as [[es|e] w1]; exact Hf.
  - cbn. repeat split. exists []. unfold requests. rewrite app_nil_r. repeat split; auto.
Qed.

(** X18: a product that is not cached is requested once per item until
    the catalog answers: an answer that is truthy is cached, so that the
    same item, whose id is a number or a string, is enriched from the
    cache from then on without a request; a failed request caches nothing
    and shows the placeholder product named after the id. *)
Theorem enrich_item_fetches_once (catalog : nat -> completion value) (acc : list value)
        (it : value) (w : World) :
  nullish it = false ->
  ToBoolean (item_id it) = true ->
  primitive (item_id it) = true ->
  ToBoolean (cached w (item_id it)) = false ->
  requested (snd (enrich_item catalog acc it w)) = (requested w ++ [item_id it])%list
  /\ (forall fetched, catalog (length (requested w)) = Normal fetched ->
        ToBoolean fetched = true ->
        forall acc', enrich_item catalog acc' it (snd (enrich_item catalog acc it w))
                     = (Normal (acc' ++ [line fetched (item_quantity it)])%list,
                        snd (enrich_item catalog acc it w)))
  /\ (forall e, catalog (length (requested w)) = Throw e ->
        productsCache (snd (enrich_item catalog acc it w)) = productsCache w
        /\ exists s, fst (enrich_item catalog acc it w)
                     = Normal (acc ++ [line (placeholder (item_id it) s) (item_quantity it)])%list).
Proof.
  intros Hn Hi Hp Hc. rewrite (enrich_item_unfold catalog acc it w Hn), Hi, Hc. cbn [negb].
  assert (Hs : exists s, ToString (item_id it) = Normal s)
    by (destruct (item_id it) as [| |[]| | | |]; try discriminate; cbn; eauto).
  destruct Hs as [s Hs]. rewrite Hs.
  destruct (catalog (length (requested w))) as [f|e]; cbn [snd fst]; split; try reflexivity.
  - split; [|discriminate]. intros fetched Ef Ht acc'. inversion Ef; subst fetched.
    rewrite (enrich_item_unfold catalog acc' it _ Hn), Hi. cbn [negb].
    unfold cached. cbn [productsCache cache_put log_request].
    rewrite (cache_set_get _ _ _ Hp), Ht. reflexivity.
  - split; [discriminate|]. intros e' _. split; [reflexivity|]. eauto.
Qed.

Lemma own_property_assign (k : string) (v : value) (props : list (string * value)) :
  own_property (assign k v props) k = Some v
  /\ forall k', k' <> k -> own_property (assign k v props) k' = own_property props k'.
Proof.
  induction props as [|[k0 v0] rest [IH1 IH2]]; cbn [assign own_property].
  - rewrite String.eqb_refl. split; [reflexivity|].
    intros k' Hk. apply String.eqb_neq in Hk. rewrite String.eqb_sym in Hk. now rewrite Hk.
  - destruct (String.eqb k0 k) eqn:Ek; cbn [own_property].
    + rewrite Ek. split; [reflexivity|]. intros k' Hk.
      apply String.eqb_eq in Ek. subst k0.
      apply String.eqb_neq in Hk. rewrite String.eqb_sym in Hk. now rewrite Hk.
    + rewrite Ek. split; [exact IH1|]. intros k' Hk.
      destruct (String.eqb k0 k'); [reflexivity|]. now apply IH2.
Qed.

Lemma enrichOrderItems_frame (catalog : nat -> completion value) (items : value) (w : World) :
  storage (snd (enrichOrderItems catalog items w)) = storage w
  /\ orders (snd (enrichOrderItems catalog items w)) = orders w
  /\ forall out, fst (enrichOrderItems catalog items w) = Normal out -> exists es, out = VArr es.
Proof.
  unfold enrichOrderItems. run_se.
  destruct (iterable "items" items) as [l|e]; [|cbn; repeat split; discriminate].
  destruct (enrich_loop_frame catalog l [] w) as (Hs & Ho & _).
  destruct (enrich_loop catalog [] l w) as [[es|e] w1]; cbn [fst snd] in *;
    (split; [exact Hs|]; split; [exact Ho|]); [|discriminate].
  intros out E. inversion E. eauto.
Qed.

Lemma load_loop_spec (catalog : nat -> completion value) (l : list value) :
  forall (fully : list value) (w : World),
    storage (snd (load_loop catalog fully l w)) = storage w
    /\ orders (snd (load_loop catalog fully l w)) = orders w
    /\ forall out, fst (load_loop catalog fully l w) = Normal out ->
         exists news, out = (fully ++ news)%list /\ Forall2 shown l news.
Proof.
  induction l as [|o l IH]; intros fully w; cbn [load_loop].
  - cbn. repeat split. intros out E. inversion E. exists []. rewrite app_nil_r.
    split; [reflexivity|constructor].
  - run_se. destruct (get o "items") as [items|e]; [|cbn; repeat split; discriminate].
    pose proof (enrichOrderItems_frame catalog (parseItems items) w) as (Hs & Ho & Hv).
    destruct (enrichOrderItems catalog (parseItems items) w) as [[parsed|e] w1];
      cbn [fst snd] in *; [|repeat split; auto; discriminate].
    destruct (Hv _ eq_refl) as [es ->].
    specialize (IH (fully ++ [VObj (assign "parsedItems" (VArr es) (own_enumerable o))])%list w1).
    destruct IH as (Hs' & Ho' & Hn).
    split; [congruence|]. split; [congruence|].
    intros out E. destruct (Hn out E) as (news & -> & Hf).
    exists (VObj (assign "parsedItems" (VArr es) (own_enumerable o)) :: news).
    split; [now rewrite <- app_assoc|]. constructor; [|exact Hf]. exists es. reflexivity.
Qed.

(** The loop gets through items that have properties and ids that print:
    a request the catalog refuses gives a placeholder, not a failure. *)
Lemma enrich_loop_succeeds (catalog : nat -> completion value) (items : list value) :
  Forall (fun it => nullish it = false /\ is_normal (ToString (item_id it)) = true) items ->
  forall (acc : list value) (w : World),
    is_normal (fst (enrich_loop catalog acc items w)) = true.
Proof.
  induction 1 as [|it items [Hn Hs] _ IH]; intros acc w; cbn [enrich_loop]; [reflexivity|].
  run_se. rewrite (enrich_item_unfold catalog acc it w Hn).
  destruct (ToBoolean (item_id it)); cbn [negb]; [|apply IH].
  destruct (ToBoolean (cached w (item_id it))); [apply IH|].
  destruct (ToString (item_id it)) as [s|e]; [|discriminate].
  destruct (catalog (length (requested w))); apply IH.
Qed.

Lemma load_loop_succeeds (catalog : nat -> completion value) (l : list value) :
  Forall loadable l ->
  forall (fully : list value) (w : World),
    is_normal (fst (load_loop catalog fully l w)) = true.
Proof.
  induction 1 as [|o l [Hn (items & Hi & Hf)] _ IH]; intros fully w; cbn [load_loop];
    [reflexivity|].
  run_se. rewrite (get_prop _ _ Hn). unfold enrichOrderItems. run_se. rewrite Hi.
  pose proof (enrich_loop_succeeds catalog items Hf [] w) as He.
  destruct (enrich_loop catalog [] items w) as [[es|e] w1]; [|discriminate].
  apply IH.
Qed.

(** X19: [load] never throws and never touches storage, and it replaces
    the orders on screen all at once or not at all.  They stay as they are
    when the request fails, when the answer is not a list (a JSON object,
    as the body of an error is, whatever the status), and when the loop
    over the orders received fails at any order.  An answer that is falsy
    empties them.  When the loop gets through, the orders on screen are
    what it built: one order per order received, in order, each with the
    fields it arrived with and an array [parsedItems]; and it gets through
    whenever every order received has properties and items that are a list
    of values with properties and a printable id. *)
Theorem MyOrders_load_all_or_nothing (net : completion Response)
        (catalog : nat -> completion value) (w : World) :
  fst (load net catalog w) = Normal tt
  /\ storage (snd (load net catalog w)) = storage w
  /\ (forall e, fetchMyOrders net = Throw e -> orders (snd (load net catalog w)) = orders w)
  /\ (forall data e, fetchMyOrders net = Normal data ->
        iterable "list" (if ToBoolean data then data else VArr []) = Throw e ->
        orders (snd (load net catalog w)) = orders w)
  /\ (forall r props, net = Normal r -> json r = Normal (VObj props) ->
        orders (snd (load net catalog w)) = orders w)
  /\ (forall data, fetchMyOrders net = Normal data -> ToBoolean data = false ->
        orders (snd (load net catalog w)) = [])
  /\ (forall data l, fetchMyOrders net = Normal data ->
        iterable "list" (if ToBoolean data then data else VArr []) = Normal l ->
        match fst (load_loop catalog [] l w) with
        | Normal fully => orders (snd (load net catalog w)) = fully /\ Forall2 shown l fully
        | Throw _ => orders (snd (load net catalog w)) = orders w
        end)
  /\ (forall data l, fetchMyOrders net = Normal data ->
        iterable "list" (if ToBoolean data then data else VArr []) = Normal l ->
        Forall loadable l ->
        Forall2 shown l (orders (snd (load net catalog w))))
  /\ (forall o o', shown o o' ->
        nullish o' = false
        /\ isArray (prop o' "parsedItems") = true
        /\ forall props k, o = VObj props -> k <> "parsedItems" -> prop o' k = prop o k).
Proof.
  assert (Hshown : forall o o', shown o o' ->
        nullish o' = false
        /\ isArray (prop o' "parsedItems") = true
        /\ forall props k, o = VObj props -> k <> "parsedItems" -> prop o' k = prop o k).
  { intros o o' [items ->]. split; [reflexivity|].
    destruct (own_property_assign "parsedItems" (VArr items) (own_enumerable o)) as [E1 E2].
    cbn [prop]. rewrite E1. split; [reflexivity|].
    intros props k -> Hk. cbn [prop own_enumerable] in *. now rewrite (E2 k Hk). }
  assert (Hloop : forall data l, fetchMyOrders net = Normal data ->
        iterable "list" (if ToBoolean data then data else VArr []) = Normal l ->
        load net catalog w =
          match load_loop catalog [] l w with
          | (Normal fully, w1) => (Normal tt, setOrders fully w1)
          | (Throw _, w1) => (Normal tt, w1)
          end).
  { intros data l Ef El. unfold load. run_se. rewrite Ef, El.
    destruct (load_loop catalog [] l w) as [[fully|e] w1]; reflexivity. }
  assert (Hmatch : forall data l, fetchMyOrders net = Normal data ->
        iterable "list" (if ToBoolean data then data else VArr []) = Normal l ->
        match fst (load_loop catalog [] l w) with
        | Normal fully => orders (snd (load net catalog w)) = fully /\ Forall2 shown l fully
        | Throw _ => orders (snd (load net catalog w)) = orders w
        end).
  { intros data l Ef El. rewrite (Hloop data l Ef El).
    pose proof (load_loop_spec catalog l [] w) as (_ & Ho & Hn).
    destruct (load_loop catalog [] l w) as [[fully|e] w1]; cbn [fst snd] in *; [|exact Ho].
    destruct (Hn _ eq_refl) as (news & -> & Hf). split; [reflexivity|exact Hf]. }
  assert (Hfail : forall data e, fetchMyOrders net = Normal data ->
        iterable "list" (if ToBoolean data then data else VArr []) = Throw e ->
        load net catalog w = (Normal tt, w)).
  { intros data e Ef El. unfold load. run_se. now rewrite Ef, El. }
  split; [|split; [|split; [|split; [|split; [|split; [|split; [|split]]]]]]].
  - unfold load. run_se.
    destruct (fetchMyOrders net) as [data|e]; [|reflexivity].
    destruct (iterable "list" _) as [l|e]; [|reflexivity].
    destruct (load_loop catalog [] l w) as [[fully|e] w1]; reflexivity.
  - unfold load. run_se.
    destruct (fetchMyOrders net) as [data|e]; [|reflexivity].
    destruct (iterable "list" _) as [l|e]; [|reflexivity].
    pose proof (load_loop_spec catalog l [] w) as (Hs & _ & _).
    destruct (load_loop catalog [] l w) as [[fully|e] w1]; exact Hs.
  - intros e Ef. unfold load. run_se. now rewrite Ef.
  - intros data e Ef El. now rewrite (Hfail data e Ef El).
  - intros r props -> Hj.
    rewrite (Hfail (VObj props) (TypeError "list is not iterable")); [reflexivity| |reflexivity].
    unfold fetchMyOrders. run_bind. exact Hj.
  - intros data Ef Hd. specialize (Hmatch data [] Ef). rewrite Hd in Hmatch.
    apply (Hmatch eq_refl).
  - exact Hmatch.
  - intros data l Ef El Hl. specialize (Hmatch data l Ef El).
    pose proof (load_loop_succeeds catalog l Hl [] w) as Hn.
    destruct (fst (load_loop catalog [] l w)) as [fully|e]; [|discriminate].
    destruct Hmatch as [-> Hf]. exact Hf.
  - exact Hshown.
Qed.

Lemma some_existsb (f : value -> completion bool) (g : value -> bool) (l : list value) :
  Forall (fun o => f o = Normal (g o)) l ->
  some f l = Normal (existsb g l).
Proof.
  induction 1 as [|o l Ho Hl IH]; [reflexivity|].
  cbn [some existsb]. rewrite Ho. run_bind.
  destruct (g o); [reflexivity|exact IH].
Qed.

Lemma includes_recoverable (v : value) :
  includes ["PENDING_PAYMENT"; "PAYMENT_FAILED"; "PENDING"] v
  = includes ["PAYMENT_FAILED"; "PENDING_PAYMENT"; "PENDING"] v.
Proof.
  unfold includes. cbn [existsb].
  destruct (strict_eq_str v "PENDING_PAYMENT"), (strict_eq_str v "PAYMENT_FAILED"); reflexivity.
Qed.

(** X20: the view reloads the orders every five seconds exactly while it
    shows a Retry button: [needsPolling] holds exactly when some order on
    screen is in a state the button is rendered for.  An order in state
    PAYMENT_FAILED, where the poll of the Cart page stops, keeps the
    reloading going; orders that are all PAID end it. *)
Theorem needsPolling_retry (os : list value) :
  Forall (fun o => nullish o = false) os ->
  needsPolling os = Normal (existsb recoverable os)
  /\ Forall (fun o => retry_offered o = Normal (recoverable o)) os
  /\ (forall o, In o os -> strict_eq_str (prop o "status") "PAYMENT_FAILED" = true ->
        needsPolling os = Normal true)
  /\ (Forall (fun o => strict_eq_str (prop o "status") "PAID" = true) os ->
        needsPolling os = Normal false).
Proof.
  intros Hn.
  assert (E : needsPolling os = Normal (existsb recoverable os)).
  { unfold needsPolling. apply some_existsb.
    eapply Forall_impl; [exact Hn|]. intros o Ho. cbv beta in *.
    rewrite (get_prop _ _ Ho). run_bind. unfold recoverable. now rewrite includes_recoverable. }
  split; [exact E|]. split; [|split].
  - eapply Forall_impl; [exact Hn|]. intros o Ho. cbv beta in *.
    unfold retry_offered. now rewrite (get_prop _ _ Ho).
  - intros o Hi Hs. rewrite E. f_equal. apply existsb_exists. exists o. split; [exact Hi|].
    unfold recoverable, includes. cbn [existsb]. now rewrite Hs.
  - intros Hp. rewrite E. f_equal.
    clear E Hn. induction Hp as [|o l Ho Hl IH]; [reflexivity|].
    cbn [existsb]. rewrite IH, orb_false_r.
    unfold recoverable, includes. cbn [existsb].
    destruct (prop o "status"); try discriminate. cbn in *.
    apply String.eqb_eq in Ho. subst. reflexivity.
Qed.

End Orders.

(** * The properties on concrete inputs *)

(** Everything below runs on the executable runtime. *)

Section Examples.
#[local] Existing Instance Reference.runtime.

(** C6 on tokens: one that expires in 2033, read before and after its
    expiry; none; one whose payload is not base64; one without [exp]. *)
Lemma isTokenValid_spec_witness :
  isTokenValid before_expiry (Some token0) = Normal true
  /\ isTokenValid after_expiry (Some token0) = Normal false
  /\ isTokenValid before_expiry None = Normal false
  /\ isTokenValid before_expiry (Some "a.%.c") = Normal false
  /\ isTokenValid before_expiry (Some "h.e30=.s") = Normal false.
Proof.
  split; [|split; [|split; [|split]]].
  - apply (proj1 (proj2 (proj2 (proj2 (proj2 (isTokenValid_spec before_expiry (Some token0))))))).
    exists claims0, (num_of_Z 2000000000). repeat split; vm_compute; reflexivity.
  - apply (proj1 (proj2 (proj2 (proj2 (isTokenValid_spec after_expiry (Some token0)))))
             claims0 (num_of_Z 2000000000)); vm_compute; reflexivity.
  - apply (proj1 (isTokenValid_spec before_expiry None)). reflexivity.
  - apply (proj1 (proj2 (isTokenValid_spec before_expiry (Some "a.%.c"))) "a.%.c");
      [reflexivity|].
    right. left. eexists. vm_compute. reflexivity.
  - apply (proj1 (proj2 (proj2 (isTokenValid_spec before_expiry (Some "h.e30=.s")))) (VObj []));
      [vm_compute; reflexivity|]. right. reflexivity.
Defined.

(** C5 on a signed-in page: the tick signs out once the token has
    expired, and leaves the page alone before that and when storage holds
    no token. *)
Lemma liveness_tick_spec_witness :
  liveness_tick after_expiry signed_in = Normal (logout signed_in)
  /\ signed_out (logout signed_in)
  /\ liveness_tick before_expiry signed_in = Normal signed_in
  /\ liveness_tick after_expiry token_gone = Normal token_gone.
Proof.
  destruct (proj1 (liveness_tick_spec after_expiry signed_in) token0) as [Ht Hs];
    [reflexivity | discriminate | vm_compute; reflexivity |].
  split; [exact Ht | split; [exact Hs | split]].
  - apply (proj1 (proj2 (liveness_tick_spec before_expiry signed_in)) token0);
      [reflexivity | vm_compute; reflexivity].
  - apply (proj2 (proj2 (liveness_tick_spec after_expiry token_gone))). reflexivity.
Defined.

(** C5 as stated fails: the token is gone from storage at tick time, and
    the tick neither redirects to login nor clears the view's token. *)
Lemma liveness_tick_missing_token :
  getToken (app_storage token_gone) = None
  /\ liveness_tick after_expiry token_gone = Normal token_gone
  /\ head (app_history token_gone) = Some "/cart"
  /\ app_token token_gone = Some token0.
Proof. repeat split. Qed.

(** C3 on an accepted and on a refused payment. *)
Lemma createPayment_status_witness :
  (exists v, createPayment (Normal (accepted (dq "{'result':'PENDING'}"))) = Normal v)
  /\ createPayment (Normal declined) = Throw (Error "Payment request failed: 402")
  /\ status_of_error (Error "Payment request failed: 402") = Some 402%N.
Proof.
  split.
  - apply (proj1 (createPayment_status (accepted (dq "{'result':'PENDING'}")))). reflexivity.
  - destruct (proj2 (createPayment_status declined)) as (Hc & Hs & _);
      [discriminate | discriminate |].
    split; [exact Hc | exact Hs].
Defined.

(** C3 as stated fails: two failures with different body texts raise the
    same error, so the error does not carry the body text. *)
Lemma createPayment_error_drops_body :
  exists e,
    createPayment (Normal declined) = Throw e
    /\ createPayment (Normal unavailable) = Throw e
    /\ text declined <> text unavailable.
Proof.
  exists (Error "Payment request failed: 402"). repeat split. discriminate.
Qed.

(** C4 on accepted payments whose bodies are an object, [false], text
    that is not JSON, and nothing. *)
Lemma createPayment_body_witness :
  createPayment (Normal (accepted (dq "{'result':'PENDING'}")))
    = Normal (VObj [("result", VStr "PENDING")])
  /\ createPayment (Normal (accepted "false")) = Normal pending
  /\ createPayment (Normal (accepted "<html>Accepted</html>"))
     = Normal (raw "<html>Accepted</html>")
  /\ createPayment (Normal (accepted "")) = Normal pending.
Proof.
  split; [|split; [|split]].
  - apply (proj1 (proj1 (createPayment_body 202 (Normal (dq "{'result':'PENDING'}")))
                    (VObj [("result", VStr "PENDING")]) ltac:(discriminate) eq_refl));
      reflexivity.
  - apply (proj1 (proj2 (proj1 (createPayment_body 202 (Normal "false"))
                           (VBool false) ltac:(discriminate) eq_refl)));
      reflexivity.
  - apply (proj1 (proj2 (createPayment_body 202 (Normal "<html>Accepted</html>")))
             (SyntaxError "Unexpected token in JSON"));
      [discriminate | reflexivity | now right].
  - apply (proj1 (proj2 (proj2 (createPayment_body 202 (Normal ""))) eq_refl)). reflexivity.
Defined.

(** C4 as stated fails: the body [null] parses as JSON and the parsed
    body is not what comes back; the body [oops] does not parse and what
    comes back is not the synthesized object. *)
Lemma createPayment_accepted_bodies :
  JSON_parse "null" = Normal VNull
  /\ createPayment (Normal (accepted "null")) = Normal (VObj [("result", VStr "PENDING")])
  /\ is_normal (JSON_parse "oops") = false
  /\ createPayment (Normal (accepted "oops")) = Normal (VObj [("raw", VStr "oops")]).
Proof. repeat split. Qed.

(** C1 on the scenario of the specification. *)
Lemma load_merge_order_witness :
  load (answers server_text) (with_token local_text)
    = (Normal tt, setCart (VArr merged_scenario) (with_token local_text))
  /\ count_id (one 1) merged_scenario = 1%nat.
Proof.
  destruct (load_merge_order (answers server_text) (with_token local_text)
              (VObj [("items", VArr server_items)]) server_items local_items)
    as (Hl & _ & Hc); try reflexivity.
  - repeat constructor.
  - repeat constructor.
  - split; [exact Hl|].
    apply (Hc eq_refl (VObj [("product_id", one 1); ("quantity", one 2)]));
      [now left | reflexivity].
Defined.

(** C1 as stated fails: a server list that names product 1 twice gives a
    cart with two entries for product 1. *)
Lemma load_repeated_server_id :
  exists merged,
    load (answers (dq "{'items':[{'product_id':1,'quantity':2},{'product_id':1,'quantity':3}]}"))
         (with_token "[]")
      = (Normal tt, setCart (VArr merged) (with_token "[]"))
    /\ count_id (one 1) merged = 2%nat.
Proof.
  exists [VObj [("product_id", one 1); ("quantity", one 2);
                ("name", VUndefined); ("price", VUndefined)];
          VObj [("product_id", one 1); ("quantity", one 3);
                ("name", VUndefined); ("price", VUndefined)]].
  split; reflexivity.
Qed.



(** C7 with the network down, and with a server that answers text that
    is not JSON. *)
Lemma load_never_throws_witness :
  load offline (with_token local_text)
    = (Normal tt, setCart (VArr local_items) (setMessage (Some advisory) (with_token local_text)))
  /\ exists w', load (answers "not the cart") (with_token local_text) = (Normal tt, w').
Proof.
  split.
  - refine (proj2 (load_never_throws offline (with_token local_text) (VArr local_items) _)
              (TypeError "Failed to fetch") _ _); vm_compute; reflexivity.
  - refine (proj1 (load_never_throws (answers "not the cart") (with_token local_text)
                     (VArr local_items) _)); vm_compute; reflexivity.
Defined.

(** C7 as stated fails: with a stored cart that is not JSON, the
    SyntaxError of [JSON.parse] leaves [load], whatever the server does. *)
Lemma load_throws_on_corrupt_storage :
  storage (with_token "{oops") !! "cart" = Some "{oops"
  /\ fst (load offline (with_token "{oops")) = Throw (SyntaxError "Unexpected token in JSON")
  /\ fst (load (answers server_text) (with_token "{oops"))
     = Throw (SyntaxError "Unexpected token in JSON").
Proof. repeat split. Qed.

(** C8 on an order polled four times: PENDING, a failed request, PAID,
    and a tick that no longer fires. *)
Lemma poll_stops_at_first_terminal_witness :
  let w := run (with_token local_text) ordered in
  let w' := run w (map (EvTick 1) [status_is "PENDING"; offline; status_is "PAID";
                                   status_is "PAID"]) in
  polled w = [] /\ polled w' = [one 42; one 42; one 42]
  /\ timers w' = ∅ /\ pollRef w' = None.
Proof.
  cbv zeta. split; [reflexivity|].
  refine (proj1 (proj2 (poll_stops_at_first_terminal
                          {[ "token" := token0; "cart" := local_text ]} ordered 1 (one 42) _))
            [status_is "PENDING"; offline] (status_is "PAID") [status_is "PAID"] _ _).
  - vm_compute; reflexivity.
  - repeat constructor.
  - vm_compute; reflexivity.
Defined.

(** C9 after one order, and after a second one placed from the reloaded
    cart: the poll of order 43 takes the place of the poll of order 42. *)
Lemma one_live_poll_witness :
  let w := run (with_token local_text) ordered in
  size (timers w) <= 1
  /\ timers (step w EvUnmount) = ∅
  /\ size (timers (run w [EvLoad offline; EvPlaceOrder order_created offline])) <= 1
  /\ timers w !! 1%positive = Some (one 42)
  /\ timers (run w reordered) !! 1%positive = None
  /\ timers (run w reordered) !! 2%positive = Some (one 43)
  /\ pollRef (run w reordered) = Some 2%positive.
Proof.
  cbv zeta. split; [|split; [|split; [|split]]].
  - apply (proj1 (one_live_poll {[ "token" := token0; "cart" := local_text ]} ordered)).
  - apply (proj2 (proj2 (proj2 (proj2 (proj2
             (one_live_poll {[ "token" := token0; "cart" := local_text ]} ordered)))))).
  - apply (proj1 (one_live_poll {[ "token" := token0; "cart" := local_text ]}
                    (ordered ++ [EvLoad offline; EvPlaceOrder order_created offline]))).
  - vm_compute; reflexivity.
  - destruct (proj1 (proj2 (proj2 (proj2 (proj2
               (one_live_poll {[ "token" := token0; "cart" := local_text ]}
                  (ordered ++ [EvLoad (answers server_text)]))))))
               second_order offline
               (VObj [("id", one 43); ("status", VStr "PENDING_PAYMENT")]) "43")
      as (Ht & Hr & _ & Hgone); try (vm_compute; reflexivity).
    split; [|split].
    + apply Hgone. exists (one 42). vm_compute; reflexivity.
    + exact (eq_trans (f_equal (fun m => m !! 2%positive) Ht) eq_refl).
    + exact Hr.
Defined.

(** C10 on three clicks on one product without a token. *)
Lemma local_add_appends_witness :
  JSON_parse (stored_cart_p (clicks tea [offline; offline; offline] signed_off))
    = Normal (VArr (replicate 3 (entry tea)))
  /\ prop (entry tea) "quantity" = one 1
  /\ count_id (one 7) (replicate 3 (entry tea)) = 3%nat.
Proof.
  destruct (local_add_appends tea [offline; offline; offline] signed_off []) as (Hs & Hq & Hc).
  - reflexivity.
  - left. reflexivity.
  - reflexivity.
  - intros k Hk. destruct k as [|[|[|k]]]; [reflexivity | reflexivity | reflexivity |].
    cbn in Hk. lia.
  - split; [exact Hs | split; [exact Hq | exact (Hc eq_refl)]].
Defined.

(** X4 on a token for an administrator and on the same payload between a
    made-up header and signature. *)
Lemma token_signature_unchecked_witness :
  isTokenValid before_expiry (Some (jwt "h" admin_payload "s")) = Normal true
  /\ isTokenValid before_expiry (Some (jwt "" admin_payload "forged")) = Normal true
  /\ isAdmin (Some (jwt "" admin_payload "forged")) = Normal (VBool true).
Proof.
  destruct (token_signature_unchecked before_expiry "h" "s" "" "forged" admin_payload
              eq_refl eq_refl eq_refl eq_refl) as (_ & Hv & Ha).
  split; [|split].
  - vm_compute; reflexivity.
  - rewrite <- Hv. vm_compute; reflexivity.
  - rewrite <- Ha. vm_compute; reflexivity.
Defined.

(** X5 on a stored token without expiry. *)
Lemma scheduleLogout_lenient_witness :
  scheduleLogout before_expiry no_expiry
    = (Normal tt, on_page (setToken (Some "h.e30=.s")) no_expiry)
  /\ liveness_tick before_expiry (page no_expiry) = Normal (logout (page no_expiry)).
Proof.
  apply (scheduleLogout_lenient before_expiry no_expiry (VObj [])); vm_compute; reflexivity.
Defined.

(** X6 on an answer to the login that carries no token. *)
Lemma doLogin_outcome_witness :
  Login.storage (Login.doLogin (Login.Fulfilled no_token) login_form) !! "token"
    = Some "undefined"
  /\ RequireAuth before_expiry
       (Login.storage (Login.doLogin (Login.Fulfilled no_token) login_form)) "/products"
     = Normal (Navigate "/login" "/products").
Proof.
  destruct (proj1 (proj2 (doLogin_outcome (Login.Fulfilled no_token) login_form))
              no_token eq_refl eq_refl eq_refl) as [Hs Hr].
  split; [exact Hs | exact (Hr before_expiry "/products")].
Defined.

(** X7 on an answer with status 500 and the body of an error. *)
Lemma placeOrder_ignores_status_witness :
  message (snd (placeOrder (Normal server_error) offline loaded)) = Some (created "undefined")
  /\ cart (snd (placeOrder (Normal server_error) offline loaded)) = VArr []
  /\ storage (snd (placeOrder (Normal server_error) offline loaded)) !! "cart" = None.
Proof.
  destruct (placeOrder_ignores_status server_error offline loaded
              (VObj [("detail", VStr "Internal Server Error")]) "undefined")
    as (_ & Hc & Hs & Hm & _); try (vm_compute; reflexivity).
  split; [exact Hm | split; [exact Hc|]].
  rewrite Hs. apply lookup_delete_eq.
Defined.

(** X8 on an order request that fails in the network. *)
Lemma placeOrder_failure_keeps_cart_witness :
  placeOrder offline offline loaded
  = (Normal tt, setLoading false (setMessage (Some "TypeError: Failed to fetch") loaded)).
Proof.
  exact (placeOrder_failure_keeps_cart offline offline loaded (TypeError "Failed to fetch")
           eq_refl eq_refl).
Defined.

(** X10 on a payment answered with status 200 and no body. *)
Lemma handleRetryFromCart_frame_witness :
  lastOrder (snd (handleRetryFromCart (answers "") (setLastOrder failed_order loaded)))
    = failed_order
  /\ exists m,
       message (snd (handleRetryFromCart (answers "") (setLastOrder failed_order loaded)))
       = Some ("Retry failed: " ++ m).
Proof.
  apply (proj2 (proj2 (proj2 (proj2 (proj2 (proj2 (proj2 (proj2 (proj2
           (handleRetryFromCart_frame (answers "") (setLastOrder failed_order loaded)))))))))));
    vm_compute; reflexivity.
Defined.

(** X11 on order 42: its poll observes PAYMENT_FAILED, the retry is paid. *)
Lemma retry_after_failed_poll_witness :
  lastOrder (snd (poll_tick (one 42) (status_is "PAYMENT_FAILED") loaded)) = failed_order
  /\ lastOrder (snd (handleRetryFromCart (answers (dq "{'result':'SUCCESS'}"))
                       (snd (poll_tick (one 42) (status_is "PAYMENT_FAILED") loaded))))
     = VNull
  /\ message (snd (handleRetryFromCart (answers (dq "{'result':'SUCCESS'}"))
                     (snd (poll_tick (one 42) (status_is "PAYMENT_FAILED") loaded))))
     = Some "Payment successful for order 42".
Proof.
  destruct (retry_after_failed_poll (one 42) (status_is "PAYMENT_FAILED")
              (answers (dq "{'result':'SUCCESS'}")) loaded "42" paid)
    as (Hl & Hr & _); try (vm_compute; reflexivity).
  destruct (Hr eq_refl) as (Hn & Hm & _).
  split; [exact Hl | split; [exact Hn | exact Hm]].
Defined.

(** X12 on the cart of the scenario, signed in: the first entry is
    removed; an index past the end throws and changes nothing. *)
Lemma removeItem_spec_witness :
  cart (snd (removeItem 0 loaded)) = VArr [VObj [("product_id", one 2); ("quantity", one 1)]]
  /\ exists e, removeItem 2 loaded = (Throw e, loaded).
Proof.
  destruct (removeItem_spec 0 loaded local_items eq_refl) as (H0 & _ & _).
  destruct (removeItem_spec 2 loaded local_items eq_refl) as (_ & H2 & _).
  split.
  - rewrite H0; [reflexivity|].
    right. exists (VObj [("product_id", one 1); ("quantity", one 5)]). split; reflexivity.
  - apply H2; reflexivity.
Defined.

(** X13 on the cart of the scenario, signed out. *)
Lemma removeItem_then_load_witness :
  load offline (snd (removeItem 0 loaded_signed_out))
    = (Normal tt, snd (removeItem 0 loaded_signed_out))
  /\ cart (snd (removeItem 0 loaded_signed_out))
     = VArr [VObj [("product_id", one 2); ("quantity", one 1)]].
Proof.
  apply (removeItem_then_load 0 offline loaded_signed_out local_items);
    vm_compute; reflexivity.
Defined.

(** X14 on one click for tea, signed out, and the Cart page opened
    afterwards. *)
Lemma add_then_load_witness :
  cart (snd (load offline (mount (p_storage (snd (add_to_cart tea offline signed_off))))))
  = VArr [entry tea].
Proof.
  apply (add_then_load tea offline offline signed_off []); vm_compute; reflexivity.
Defined.

(** X15 on items written with apostrophes, and on items that arrive as an
    array of objects. *)
Lemma parseItems_fallback_witness :
  MyOrders.parseItems (VStr "[{'product_id': 7, 'quantity': 2}]") = VArr [two_of_7]
  /\ MyOrders.parseItems (VStr "2 x Tea") = VArr []
  /\ MyOrders.parseItems (VArr [two_of_7]) = VArr [].
Proof.
  split; [|split].
  - destruct (proj1 (proj2 (proj2 (parseItems_fallback
                 (VStr "[{'product_id': 7, 'quantity': 2}]"))))
                "[{'product_id': 7, 'quantity': 2}]" (SyntaxError "Unexpected token in JSON")
                eq_refl) as [E _]; [vm_compute; reflexivity|].
    rewrite E. vm_compute; reflexivity.
  - apply (proj1 (proj2 (proj2 (parseItems_fallback (VStr "2 x Tea"))))
             "2 x Tea" (SyntaxError "Unexpected non-whitespace character after JSON") eq_refl);
      vm_compute; reflexivity.
  - apply (proj2 (proj2 (proj2 (parseItems_fallback (VArr [two_of_7])))));
      vm_compute; reflexivity.
Defined.

(** X16 on three items, one of them without an id. *)
Lemma enrichOrderItems_entries_witness :
  fst (MyOrders.enrichOrderItems catalog0 items0 orders_view) = Normal (VArr enriched0)
  /\ Forall (fun e => ToBoolean (prop e "quantity") = true) enriched0
  /\ length enriched0 <= 3.
Proof.
  assert (E : MyOrders.enrichOrderItems catalog0 items0 orders_view
              = (Normal (VArr enriched0),
                 snd (MyOrders.enrichOrderItems catalog0 items0 orders_view)))
    by (vm_compute; reflexivity).
  destruct (enrichOrderItems_entries catalog0 items0 _ orders_view _ E)
    as (l & es & Hl & Ho & _ & Hq & Hlen).
  inversion Ho; subst es. inversion Hl; subst l.
  split; [now rewrite E | split; [exact Hq | exact Hlen]].
Defined.

(** X18 on two of product 7: the first pass asks the catalog, the second
    does not. *)
Lemma enrich_item_fetches_once_witness :
  MyOrders.requested (snd (MyOrders.enrich_item catalog0 [] two_of_7 orders_view)) = [one 7]
  /\ MyOrders.enrich_item catalog0 [] two_of_7
       (snd (MyOrders.enrich_item catalog0 [] two_of_7 orders_view))
     = (Normal [line product7 (one 2)],
        snd (MyOrders.enrich_item catalog0 [] two_of_7 orders_view)).
Proof.
  destruct (enrich_item_fetches_once catalog0 [] two_of_7 orders_view)
    as (Hr & Hf & _); try (vm_compute; reflexivity).
  split; [exact Hr | exact (Hf product7 eq_refl eq_refl [])].
Defined.

(** X19 on an answer with one paid order of two of product 7, and on an
    answer with status 401 and the body of an error. *)
Lemma MyOrders_load_all_or_nothing_witness :
  MyOrders.orders (snd (MyOrders.load (answers orders_text) catalog0 orders_view))
    = [displayed_order]
  /\ MyOrders.orders
       (snd (MyOrders.load
               (Normal (mkResponse 401 (Normal (dq "{'detail':'Not authenticated'}"))))
               catalog0 (MyOrders.setOrders [paid_order] orders_view)))
     = [paid_order]
  /\ Forall loadable [received_order]
  /\ Forall2 shown [received_order]
       (MyOrders.orders (snd (MyOrders.load (answers orders_text) catalog0 orders_view))).
Proof.
  assert (Hl : Forall loadable [received_order]).
  { repeat constructor. exists [two_of_7]. split; [vm_compute; reflexivity|].
    repeat constructor. }
  split; [|split; [|split; [exact Hl|]]].
  - assert (Ef : MyOrders.fetchMyOrders (answers orders_text) = Normal (VArr [received_order]))
      by (vm_compute; reflexivity).
    pose proof (proj1 (proj2 (proj2 (proj2 (proj2 (proj2 (proj2
                 (MyOrders_load_all_or_nothing (answers orders_text) catalog0 orders_view)))))))
                 (VArr [received_order]) [received_order] Ef eq_refl) as Hm.
    assert (E : fst (MyOrders.load_loop catalog0 [] [received_order] orders_view)
                = Normal [displayed_order]) by (vm_compute; reflexivity).
    rewrite E in Hm. exact (proj1 Hm).
  - apply (proj1 (proj2 (proj2 (proj2 (proj2 (MyOrders_load_all_or_nothing
             (Normal (mkResponse 401 (Normal (dq "{'detail':'Not authenticated'}"))))
             catalog0 (MyOrders.setOrders [paid_order] orders_view))))))
             (mkResponse 401 (Normal (dq "{'detail':'Not authenticated'}")))
             [("detail", VStr "Not authenticated")] eq_refl).
    vm_compute; reflexivity.
  - assert (Ef : MyOrders.fetchMyOrders (answers orders_text) = Normal (VArr [received_order]))
      by (vm_compute; reflexivity).
    exact (proj1 (proj2 (proj2 (proj2 (proj2 (proj2 (proj2 (proj2
             (MyOrders_load_all_or_nothing (answers orders_text) catalog0 orders_view))))))))
             (VArr [received_order]) [received_order] Ef eq_refl Hl).
Defined.

(** X20 on a paid order beside one whose payment failed, and on the paid
    order alone. *)
Lemma needsPolling_retry_witness :
  MyOrders.needsPolling [paid_order; unpaid_order] = Normal true
  /\ MyOrders.needsPolling [paid_order] = Normal false.
Proof.
  split.
  - apply (proj1 (proj2 (proj2 (needsPolling_retry [paid_order; unpaid_order]
             ltac:(repeat constructor)))) unpaid_order); [right; left|]; reflexivity.
  - apply (proj2 (proj2 (proj2 (needsPolling_retry [paid_order] ltac:(repeat constructor))))).
    repeat constructor.
Defined.

(** X22 on a click for tea: signed in with the server accepting, and
    signed out over a stored cart that is not JSON. *)
Lemma add_to_cart_alerts_witness :
  add_to_cart tea (answers "{}") (mkProducts {[ "token" := token0 ]} [])
    = (Normal tt, alert "Added to cart (server)" (mkProducts {[ "token" := token0 ]} []))
  /\ exists e, add_to_cart tea offline (mkProducts {[ "cart" := "oops" ]} [])
               = (Throw e, mkProducts {[ "cart" := "oops" ]} []).
Proof.
  split.
  - apply (proj1 (proj2 (add_to_cart_alerts tea (answers "{}")
                           (mkProducts {[ "token" := token0 ]} []))));
      vm_compute; reflexivity.
  - apply (proj2 (proj2 (add_to_cart_alerts tea offline
                           (mkProducts {[ "cart" := "oops" ]} []))));
      vm_compute; reflexivity.
Defined.

End Examples.
